(** * grafika_differ: the replay orchestration engine

    A shallow embedding of [src/core/event_types.py], [src/core/event_parser.py],
    [src/core/automation_runner.py] and the script mode of [src/main.py],
    with the properties stated about them.

    Conventions of the embedding.
    - A Python [str] is a [list ascii]; a character is a code point in
      U+0000..U+00FF.
    - A Python [float] is an exact rational kept in lowest terms ([Q] under
      [Qred]); binary64 rounding, infinities and NaN are not represented.
    - [re] patterns are values of [regex], run by a backtracking matcher
      that explores alternatives in the priority order of Python's engine.
    - Code that raises returns a [result]; code that touches the clock, the
      process, the log or a backend is a function of the [World]. *)

From Stdlib Require Import List Ascii String ZArith QArith Qround Lia Lqa Bool.
From Stdlib Require Import DecimalString DecimalNat.
Import ListNotations.

Set Implicit Arguments.

(* ================================================================== *)
(** * Python text *)
(* ================================================================== *)

Module Py.

Definition str := list ascii.

(** A literal, as it is written in the source. *)
Definition lit (s : string) : str := list_ascii_of_string s.

Definition code (c : ascii) : nat := nat_of_ascii c.

Definition between (lo hi : nat) (c : ascii) : bool :=
  (lo <=? code c)%nat && (code c <=? hi)%nat.

Definition is_digit (c : ascii) : bool := between 48 57 c.
Definition is_upper_az (c : ascii) : bool := between 65 90 c.
Definition is_lower_az (c : ascii) : bool := between 97 122 c.

(** [str.isspace] on one character, which is also [\s] of a [str] pattern:
    TAB..CR, FS..US, SPACE, NEL and NBSP below U+0100. *)
Definition isspace (c : ascii) : bool :=
  between 9 13 c || between 28 32 c || (code c =? 133)%nat || (code c =? 160)%nat.

Definition newline : ascii := ascii_of_nat 10.

(** [.] of a pattern without DOTALL. *)
Definition not_newline (c : ascii) : bool := negb (code c =? 10)%nat.

(** [str.lower] on one character: A-Z and the Latin-1 capitals
    U+00C0..U+00DE without the multiplication sign. *)
Definition lower (c : ascii) : ascii :=
  if is_upper_az c then ascii_of_nat (code c + 32)
  else if between 192 222 c && negb (code c =? 215)%nat then ascii_of_nat (code c + 32)
  else c.

(** [str.upper] on one character whose capital is below U+0100. *)
Definition upper (c : ascii) : ascii :=
  if is_lower_az c then ascii_of_nat (code c - 32)
  else if between 224 254 c && negb (code c =? 247)%nat then ascii_of_nat (code c - 32)
  else c.

Definition str_lower (s : str) : str := map lower s.
Definition str_upper (s : str) : str := map upper s.

Fixpoint str_eqb (a b : str) : bool :=
  match a, b with
  | [], [] => true
  | x :: a', y :: b' => Ascii.eqb x y && str_eqb a' b'
  | _, _ => false
  end.

Fixpoint lstrip_by (p : ascii -> bool) (s : str) : str :=
  match s with
  | c :: s' => if p c then lstrip_by p s' else s
  | [] => []
  end.

Definition strip_by (p : ascii -> bool) (s : str) : str :=
  rev (lstrip_by p (rev (lstrip_by p s))).

(** [s.strip()] *)
Definition strip (s : str) : str := strip_by isspace s.

Fixpoint startswith (prefix s : str) : bool :=
  match prefix, s with
  | [], _ => true
  | p :: prefix', c :: s' => Ascii.eqb p c && startswith prefix' s'
  | _ :: _, [] => false
  end.

(** [needle in s] *)
Fixpoint contains (needle s : str) : bool :=
  startswith needle s ||
  match s with
  | [] => false
  | _ :: s' => contains needle s'
  end.

(** ** Floats, as exact rationals in lowest terms *)

Definition float := Q.

Definition fsub (a b : float) : float := Qred (a - b).
Definition fadd (a b : float) : float := Qred (a + b).
Definition fmul (a b : float) : float := Qred (a * b).
Definition fdiv (a b : float) : float := Qred (a / b).
Definition fltb (a b : float) : bool := negb (Qle_bool b a).
Definition fleb (a b : float) : bool := Qle_bool a b.
Definition fmax (a b : float) : float := if fltb a b then b else a.
Definition of_int (z : Z) : float := inject_Z z.

(** [int(x)]: truncation towards zero. *)
Definition int_of_float (x : float) : Z :=
  if Qle_bool 0 x then Qfloor x else Qceiling x.

(** [round(x)] with one argument: the nearest integer, ties to even. *)
Definition round (x : float) : Z :=
  let f := Qfloor x in
  let r := (x - inject_Z f)%Q in
  match (r ?= 1 # 2)%Q with
  | Lt => f
  | Gt => (f + 1)%Z
  | Eq => if Z.even f then f else (f + 1)%Z
  end.

Definition digit_val (c : ascii) : Z := Z.of_nat (code c - 48).

Fixpoint digits_val (acc : Z) (s : str) : Z :=
  match s with
  | [] => acc
  | c :: s' => digits_val (10 * acc + digit_val c) s'
  end.

Definition all_digits (s : str) : bool :=
  match s with [] => false | _ => forallb is_digit s end.

Fixpoint split_at_dot (s : str) : str * option str :=
  match s with
  | [] => ([], None)
  | c :: s' =>
      if Ascii.eqb c "."%char then ([], Some s')
      else let (a, b) := split_at_dot s' in (c :: a, b)
  end.

(** [float(s)] on the texts the patterns of this program hand to it: an
    optional minus sign, digits, and optionally a point and more digits.
    [None] stands for the [ValueError] of any other text. *)
Definition float_of_str (s : str) : option float :=
  let (neg, body) :=
    match s with
    | c :: s' => if Ascii.eqb c "-"%char then (true, s') else (false, s)
    | [] => (false, s)
    end in
  let (ip, fp) := split_at_dot body in
  let sign (q : Q) := if neg then Qopp q else q in
  if all_digits ip then
    match fp with
    | None => Some (Qred (sign (inject_Z (digits_val 0 ip))))
    | Some fr =>
        if all_digits fr then
          Some (Qred (sign (Qmake (digits_val 0 (ip ++ fr))
                                  (Pos.pow 10 (Pos.of_nat (List.length fr))))))
        else None
    end
  else None.

(** ** Decimal formatting *)

Definition decimal (n : nat) : str :=
  list_ascii_of_string (NilZero.string_of_uint (Nat.to_uint n)).

Definition zfill (width : nat) (s : str) : str :=
  repeat "0"%char (width - List.length s) ++ s.

(** [f"{z:0{width}d}"]: zeros are inserted after the sign. *)
Definition format_0d (width : nat) (z : Z) : str :=
  if (z <? 0)%Z then "-"%char :: zfill (width - 1) (decimal (Z.to_nat (- z)))
  else zfill width (decimal (Z.to_nat z)).

End Py.

(* ================================================================== *)
(** * Exceptions and results *)
(* ================================================================== *)

(** The argument of [SystemExit]: a message or a status. *)
Inductive exit_arg : Type :=
| exit_message (msg : Py.str)
| exit_status (status : Z).

Inductive exn : Type :=
| ValueError (msg : Py.str)
| TypeError
| FileNotFoundError (msg : Py.str)
| TimeoutError (msg : Py.str)
| TimeoutExpired
| ElementNotFoundError
| PyWinTimeoutError
| BackendError (what : Py.str)
| SystemExit (arg : exit_arg)
| KeyboardInterrupt.

(** [isinstance(e, Exception)]: what [except Exception] catches. *)
Definition is_Exception (e : exn) : bool :=
  match e with
  | SystemExit _ | KeyboardInterrupt => false
  | _ => true
  end.

Inductive result (A : Type) : Type :=
| Ok (a : A)
| Raise (e : exn).
Arguments Ok {A} a.
Arguments Raise {A} e.

(* ================================================================== *)
(** * The fragment of [re] the program uses *)
(* ================================================================== *)

Module Re.
Import Py.

Inductive group : Type :=
| g_delta | g_body | g_state | g_button | g_details | g_key | g_x | g_y.

Definition group_eqb (a b : group) : bool :=
  match a, b with
  | g_delta, g_delta | g_body, g_body | g_state, g_state
  | g_button, g_button | g_details, g_details | g_key, g_key
  | g_x, g_x | g_y, g_y => true
  | _, _ => false
  end.

Inductive regex : Type :=
| Eps
| Cls (p : ascii -> bool)       (* one character of a class *)
| Seq (r1 r2 : regex)
| Alt (r1 r2 : regex)           (* r1|r2, r1 first *)
| Star (p : ascii -> bool)      (* greedy repetition of a class *)
| Opt (r : regex)               (* (?:r)?, greedy *)
| Grp (g : group) (r : regex)   (* (?P<g>r) *)
| Eos.                          (* $ without MULTILINE *)

Declare Scope re_scope.
Delimit Scope re_scope with re.
Bind Scope re_scope with regex.
Infix ";;" := Seq (at level 61, right associativity) : re_scope.

Definition Plus (p : ascii -> bool) : regex := Seq (Cls p) (Star p).

Definition chr (c : ascii) : regex := Cls (Ascii.eqb c).

(** A character of the pattern under IGNORECASE. *)
Definition chr_i (c : ascii) : regex := Cls (fun x => Ascii.eqb (lower x) (lower c)).

Fixpoint word_i (s : str) : regex :=
  match s with
  | [] => Eps
  | c :: s' => Seq (chr_i c) (word_i s')
  end.

(** The text of the groups that took part in a match, latest first. *)
Definition captures := list (group * str).

Fixpoint lookup (g : group) (caps : captures) : option str :=
  match caps with
  | [] => None
  | (g', s) :: caps' => if group_eqb g g' then Some s else lookup g caps'
  end.

(** What was consumed between the input [s] and its suffix [s']. *)
Definition consumed (s s' : str) : str :=
  firstn (List.length s - List.length s') s.

Section Matcher.
Variable R : Type.

(** Greedy [p*]: the longest exec first, then shorter ones. *)
Fixpoint star_k (p : ascii -> bool) (s : str) (k : str -> option R) : option R :=
  match s with
  | c :: s' =>
      if p c then
        match star_k p s' k with
        | Some x => Some x
        | None => k s
        end
      else k s
  | [] => k []
  end.

(** [exec r s caps k]: the first way, in priority order, to match [r] at
    the head of [s] such that the continuation [k] accepts the rest. *)
Fixpoint exec (r : regex) (s : str) (caps : captures)
         (k : str -> captures -> option R) : option R :=
  match r with
  | Eps => k s caps
  | Cls p =>
      match s with
      | c :: s' => if p c then k s' caps else None
      | [] => None
      end
  | Seq r1 r2 => exec r1 s caps (fun s1 c1 => exec r2 s1 c1 k)
  | Alt r1 r2 =>
      match exec r1 s caps k with
      | Some x => Some x
      | None => exec r2 s caps k
      end
  | Star p => star_k p s (fun s' => k s' caps)
  | Opt r' =>
      match exec r' s caps k with
      | Some x => Some x
      | None => k s caps
      end
  | Grp g r' => exec r' s caps (fun s' c' => k s' ((g, consumed s s') :: c'))
  | Eos =>
      match s with
      | [] => k s caps
      | [c] => if Ascii.eqb c newline then k s caps else None
      | _ => None
      end
  end.
End Matcher.

(** [pattern.match(s)] *)
Definition re_match (r : regex) (s : str) : option captures :=
  exec r s [] (fun _ caps => Some caps).

(** [pattern.search(s)] *)
Fixpoint re_search (r : regex) (s : str) : option captures :=
  match re_match r s with
  | Some caps => Some caps
  | None =>
      match s with
      | [] => None
      | _ :: s' => re_search r s'
      end
  end.

(** [re.sub(p+, repl, s)] for a one-character class [p]: every maximal exec
    of [p] is replaced by [repl]. *)
Fixpoint sub_runs (p : ascii -> bool) (repl : str) (s : str) : str :=
  match s with
  | [] => []
  | c :: s' =>
      if p c then
        match s' with
        | c' :: _ => if p c' then sub_runs p repl s' else repl ++ sub_runs p repl s'
        | [] => repl
        end
      else c :: sub_runs p repl s'
  end.

End Re.

Definition bind_result {A B : Type} (r : result A) (k : A -> result B) : result B :=
  match r with
  | Ok a => k a
  | Raise e => Raise e
  end.

Declare Scope result_scope.
Delimit Scope result_scope with result.
Notation "'let*' x ':=' e 'in' k" := (bind_result e (fun x => k))
  (at level 10, x name, e at level 100, k at level 200) : result_scope.

(* ================================================================== *)
(** * [src/core/event_types.py] *)
(* ================================================================== *)

Record Event : Type := mkEvent {
  index : Z;
  timestamp : Py.float;
  delta : Py.float;
  action : Py.str;
  button : option Py.str;
  window_point : option (Z * Z);
  world_point : option (Py.float * Py.float);
  raw : Py.str
}.

(** [event.delta = d] *)
Definition set_delta (e : Event) (d : Py.float) : Event :=
  mkEvent (index e) (timestamp e) d (action e) (button e)
          (window_point e) (world_point e) (raw e).

(** [Event.label] *)
Definition label (e : Event) : Py.str :=
  let base := action e in
  match button e with
  | Some (c :: b) => base ++ Py.lit "_" ++ (c :: b)
  | _ => base
  end.

(* ================================================================== *)
(** * [src/core/event_parser.py] *)
(* ================================================================== *)

Module ScriptParser.
Import Py Re.
Local Open Scope re_scope.
Local Open Scope result_scope.

(** [\[\s*\+(?P<delta>\d+(?:\.\d+)?)s\s*\]\s*(?P<body>.+)$] *)
Definition DELTA_RE : regex :=
  chr "[" ;; Star isspace ;; chr "+" ;;
  Grp g_delta (Plus is_digit ;; Opt (chr "." ;; Plus is_digit)) ;;
  chr "s" ;; Star isspace ;; chr "]" ;; Star isspace ;;
  Grp g_body (Plus not_newline) ;; Eos.

(** [[LR]] under IGNORECASE *)
Definition cls_LR (x : ascii) : bool :=
  Ascii.eqb (lower x) "l" || Ascii.eqb (lower x) "r".

(** [[A-Z0-9]] under IGNORECASE *)
Definition cls_AZ09 (x : ascii) : bool :=
  is_lower_az (lower x) || is_digit (lower x).

(** [onMouse(?P<state>Pressed|Released)\s+(?P<button>[LR]):\s*(?P<details>.+)],
    IGNORECASE *)
Definition MOUSE_RE : regex :=
  word_i (lit "onMouse") ;;
  Grp g_state (Alt (word_i (lit "Pressed")) (word_i (lit "Released"))) ;;
  Plus isspace ;; Grp g_button (Cls cls_LR) ;; chr_i ":" ;; Star isspace ;;
  Grp g_details (Plus not_newline).

(** [onKey(?P<state>Pressed|Released)\s+(?P<key>[A-Z0-9]):\s*(?P<details>.+)],
    IGNORECASE *)
Definition KEY_RE : regex :=
  word_i (lit "onKey") ;;
  Grp g_state (Alt (word_i (lit "Pressed")) (word_i (lit "Released"))) ;;
  Plus isspace ;; Grp g_key (Cls cls_AZ09) ;; chr_i ":" ;; Star isspace ;;
  Grp g_details (Plus not_newline).

(** [-?\d+(?:\.\d+)?] *)
Definition number : regex :=
  Opt (chr "-") ;; Plus is_digit ;; Opt (chr "." ;; Plus is_digit).

(** [window\((?P<x>-?\d+(?:\.\d+)?),(?P<y>-?\d+(?:\.\d+)?)\)], IGNORECASE *)
Definition WINDOW_RE : regex :=
  word_i (lit "window(") ;; Grp g_x number ;; chr_i "," ;; Grp g_y number ;; chr_i ")".

(** [world\((?P<x>-?\d+(?:\.\d+)?),(?P<y>-?\d+(?:\.\d+)?)\)], IGNORECASE *)
Definition WORLD_RE : regex :=
  word_i (lit "world(") ;; Grp g_x number ;; chr_i "," ;; Grp g_y number ;; chr_i ")".

(** [match.group(g)]; a group that took no part is [None] in Python, and
    every use the parser makes of it would raise. *)
Definition group_text (caps : captures) (g : group) : result str :=
  match lookup g caps with
  | Some s => Ok s
  | None => Raise TypeError
  end.

(** [float(text)] *)
Definition to_float (text : str) : result float :=
  match float_of_str text with
  | Some q => Ok q
  | None => Raise (ValueError (lit "could not convert string to float: " ++ text))
  end.

(** [ScriptParser._parse_window] *)
Definition _parse_window (details : str) : result (option (Z * Z)) :=
  match re_search WINDOW_RE details with
  | None => Ok None
  | Some m =>
      let* gx := group_text m g_x in
      let* fx := to_float gx in
      let x := round fx in
      let* gy := group_text m g_y in
      let* fy := to_float gy in
      let y := round fy in
      Ok (Some (x, y))
  end.

(** [ScriptParser._parse_world] *)
Definition _parse_world (details : str) : result (option (float * float)) :=
  match re_search WORLD_RE details with
  | None => Ok None
  | Some m =>
      let* gx := group_text m g_x in
      let* x := to_float gx in
      let* gy := group_text m g_y in
      let* y := to_float gy in
      Ok (Some (x, y))
  end.

(** [ScriptParser._parse_line] *)
Definition _parse_line (line : str) (event_index : Z) : result Event :=
  match re_match DELTA_RE line with
  | None => Raise (ValueError (lit "Could not parse timestamp in line: " ++ line))
  | Some delta_match =>
      let* delta_text := group_text delta_match g_delta in
      let* timestamp := to_float delta_text in
      let* body := group_text delta_match g_body in
      match re_match MOUSE_RE body with
      | Some mouse_match =>
          let* state_text := group_text mouse_match g_state in
          let state := str_lower state_text in
          let* button_text := group_text mouse_match g_button in
          let button := str_upper button_text in
          let* details := group_text mouse_match g_details in
          let* window_point := _parse_window details in
          let* world_point := _parse_world details in
          let action :=
            if str_eqb state (lit "pressed") then lit "mouse_press"
            else lit "mouse_release" in
          let button_name :=
            if str_eqb button (lit "L") then lit "left" else lit "right" in
          if negb (str_eqb button (lit "L") || str_eqb button (lit "R")) then
            Raise (ValueError (lit "Unsupported mouse button in line: " ++ line))
          else
            Ok (mkEvent event_index timestamp 0 action (Some button_name)
                        window_point world_point line)
      | None =>
          match re_match KEY_RE body with
          | Some key_match =>
              let* state_text := group_text key_match g_state in
              let state := str_lower state_text in
              let* key := group_text key_match g_key in
              let action :=
                if str_eqb state (lit "pressed") then lit "key_press"
                else lit "key_release" in
              Ok (mkEvent event_index timestamp 0 action (Some key)
                          None None line)
          | None =>
              if contains (lit "exiting application") (str_lower body) then
                Ok (mkEvent event_index timestamp 0 (lit "exit") None
                            None None line)
              else
                Raise (ValueError (lit "Unsupported event line: " ++ line))
          end
      end
  end.

(** The loop of [ScriptParser._assign_deltas], [prev] being
    [prev_timestamp]. *)
Fixpoint assign_from (prev : float) (events : list Event) : list Event :=
  match events with
  | [] => []
  | event :: rest =>
      let d := fsub (timestamp event) prev in
      let d := if fltb d 0 then 0%Q else d in
      set_delta event d :: assign_from (timestamp event) rest
  end.

(** [ScriptParser._assign_deltas]; the list it updates in place is
    returned. *)
Definition _assign_deltas (events : list Event) : list Event :=
  match events with
  | [] => []
  | _ => assign_from 0 events
  end.

(** The loop of [ScriptParser.parse], [events] being the list built so
    far. *)
Fixpoint parse_lines (lines : list str) (events : list Event)
  : result (list Event) :=
  match lines with
  | [] => Ok events
  | raw_line :: rest =>
      match strip raw_line with
      | [] => parse_lines rest events
      | line =>
          let* e := _parse_line line (Z.of_nat (List.length events)) in
          parse_lines rest (events ++ [e])
      end
  end.

(** [ScriptParser.parse] *)
Definition parse (lines : list str) : result (list Event) :=
  let* events := parse_lines lines [] in
  Ok (_assign_deltas events).

End ScriptParser.

(* ================================================================== *)
(** * The world the runner acts on *)
(* ================================================================== *)

Inductive level : Type := DEBUG | INFO | WARNING | ERROR.

(** What the program does to its surroundings, in the order it does it.
    A log record keeps its format string and, where one is passed, the
    exception. *)
Inductive effect : Type :=
| E_log (lvl : level) (fmt : Py.str) (exc : option exn)
| E_sleep (seconds : Py.float)
| E_mkdir (path : Py.str)
| E_spawn (exe : Py.str)
| E_terminate
| E_wait (timeout : Py.float)
| E_kill
| E_backend (what : Py.str) (path : Py.str).

(** The clock, the file system, and the one child process of a run.
    [exit_at] is the time at which the child is gone ([None]: it stays);
    [term_delay] is how long it takes to go once asked to terminate
    ([None]: it ignores the request). *)
Record World : Type := mkWorld {
  now : Py.float;
  files : list (Py.str * Py.str);
  pid : Z;
  exit_at : option Py.float;
  term_delay : option Py.float;
  trace : list effect
}.

Definition set_now (w : World) (t : Py.float) : World :=
  mkWorld t (files w) (pid w) (exit_at w) (term_delay w) (trace w).

Definition set_exit_at (w : World) (t : option Py.float) : World :=
  mkWorld (now w) (files w) (pid w) t (term_delay w) (trace w).

Definition emit (w : World) (e : effect) : World :=
  mkWorld (now w) (files w) (pid w) (exit_at w) (term_delay w) (trace w ++ [e]).

(** The child runs until the clock reaches [exit_at]. *)
Definition alive (w : World) : bool :=
  match exit_at w with
  | None => true
  | Some t => Py.fltb (now w) t
  end.

(** An operation of the surroundings: it may raise, and it changes the
    world. *)
Definition IO (A : Type) : Type := World -> result A * World.

Module Sys.
Import Py.

(** [time.time()] *)
Definition time : IO float := fun w => (Ok (now w), w).

(** [time.sleep(seconds)] *)
Definition sleep (seconds : float) : IO unit := fun w =>
  if fltb seconds 0 then
    (Raise (ValueError (lit "sleep length must be non-negative")), w)
  else (Ok tt, emit (set_now w (fadd (now w) seconds)) (E_sleep seconds)).

Fixpoint read (path : str) (fs : list (str * str)) : option str :=
  match fs with
  | [] => None
  | (p, text) :: fs' => if str_eqb p path then Some text else read path fs'
  end.

(** [path.exists()] *)
Definition path_exists (path : str) : IO bool := fun w =>
  (Ok (match read path (files w) with Some _ => true | None => false end), w).

(** [path.read_text()] *)
Definition read_text (path : str) : IO str := fun w =>
  match read path (files w) with
  | Some text => (Ok text, w)
  | None => (Raise (FileNotFoundError path), w)
  end.

(** [path.mkdir(parents=True, exist_ok=True)] *)
Definition mkdir (path : str) : IO unit := fun w => (Ok tt, emit w (E_mkdir path)).

(** [logging.<lvl>(fmt, ...)] *)
Definition log (lvl : level) (fmt : string) (exc : option exn) : IO unit :=
  fun w => (Ok tt, emit w (E_log lvl (lit fmt) exc)).

(** [subprocess.Popen([exe], ...)]; the handle is the pid. *)
Definition Popen (exe : str) : IO Z := fun w => (Ok (pid w), emit w (E_spawn exe)).

(** [process.poll()]: [None] while the child runs. *)
Definition poll : IO (option Z) := fun w =>
  (Ok (if alive w then None else Some 0%Z), w).

(** The child once it has been asked to terminate. *)
Definition signalled (w : World) : World :=
  if alive w then
    match term_delay w with
    | Some d =>
        let t := fadd (now w) d in
        match exit_at w with
        | Some t0 => if fltb t0 t then w else set_exit_at w (Some t)
        | None => set_exit_at w (Some t)
        end
    | None => w
    end
  else w.

(** [process.terminate()] *)
Definition terminate : IO unit := fun w => (Ok tt, emit (signalled w) E_terminate).

(** [process.kill()] *)
Definition kill : IO unit := fun w =>
  (Ok tt, emit (if alive w then set_exit_at w (Some (now w)) else w) E_kill).

(** [process.wait(timeout=timeout)]: returns once the child is gone, or
    raises when the timeout passes first. *)
Definition wait (timeout : float) : IO Z := fun w =>
  let limit := fadd (now w) timeout in
  match exit_at w with
  | Some t =>
      if fleb t limit then
        (Ok 0%Z, emit (set_now w (fmax (now w) t)) (E_wait timeout))
      else (Raise TimeoutExpired, emit (set_now w limit) (E_wait timeout))
  | None => (Raise TimeoutExpired, emit (set_now w limit) (E_wait timeout))
  end.

(** Separators of [str.splitlines] below U+0100. *)
Definition is_linebreak (c : ascii) : bool :=
  between 10 13 c || between 28 30 c || (code c =? 133)%nat.

(** [text.splitlines()], [cur] being the line read so far, reversed. *)
Fixpoint splitlines_from (cur : str) (text : str) : list str :=
  match text with
  | [] => match cur with [] => [] | _ => [rev cur] end
  | c :: rest =>
      if is_linebreak c then
        match rest with
        | c' :: rest' =>
            if (code c =? 13)%nat && (code c' =? 10)%nat
            then rev cur :: splitlines_from [] rest'
            else rev cur :: splitlines_from [] rest
        | [] => [rev cur]
        end
      else splitlines_from (c :: cur) rest
  end.

Definition splitlines (text : str) : list str := splitlines_from [] text.

End Sys.

(* ================================================================== *)
(** * The runner's own state, and computations over it *)
(* ================================================================== *)

(** The mutable attribute of [AutomationRunner]. *)
Record Self : Type := mkSelf { _capture_index : nat }.

(** A method of the runner. [None] is a loop that was still running when
    its fuel ran out; an exception leaves the state it was raised in. *)
Definition M (A : Type) : Type := Self -> World -> option (result A * Self * World).

Definition ret {A : Type} (a : A) : M A := fun s w => Some (Ok a, s, w).

Definition raise {A : Type} (e : exn) : M A := fun s w => Some (Raise e, s, w).

Definition out_of_fuel {A : Type} : M A := fun _ _ => None.

Definition bind {A B : Type} (m : M A) (k : A -> M B) : M B := fun s w =>
  match m s w with
  | None => None
  | Some (Ok a, s', w') => k a s' w'
  | Some (Raise e, s', w') => Some (Raise e, s', w')
  end.

Definition lift {A : Type} (io : IO A) : M A := fun s w =>
  let (r, w') := io w in Some (r, s, w').

(** [try: body / except <catches> as exc: handler exc] *)
Definition try_except {A : Type} (body : M A) (catches : exn -> bool)
           (handler : exn -> M A) : M A := fun s w =>
  match body s w with
  | Some (Raise e, s', w') =>
      if catches e then handler e s' w' else Some (Raise e, s', w')
  | other => other
  end.

(** [try: body / finally: final] *)
Definition try_finally {A : Type} (body : M A) (final : M unit) : M A := fun s w =>
  match body s w with
  | None => None
  | Some (r, s', w') =>
      match final s' w' with
      | None => None
      | Some (Ok _, s'', w'') => Some (r, s'', w'')
      | Some (Raise e, s'', w'') => Some (Raise e, s'', w'')
      end
  end.

(** [for x in xs: body x] *)
Fixpoint for_each {A : Type} (xs : list A) (body : A -> M unit) : M unit :=
  match xs with
  | [] => ret tt
  | x :: xs' => bind (body x) (fun _ => for_each xs' body)
  end.

Declare Scope m_scope.
Delimit Scope m_scope with M.
Notation "'let!' x ':=' m 'in' k" := (bind m (fun x => k))
  (at level 10, x name, m at level 100, k at level 200) : m_scope.
Notation "m '>>' k" := (bind m (fun _ => k))
  (at level 62, right associativity) : m_scope.

(** [AutomationConfig] *)
Record AutomationConfig : Type := mkConfig {
  exe_path : Py.str;
  window_title : option Py.str;
  screenshot_dir : Py.str;
  launch_wait : Py.float;
  window_timeout : Py.float;
  exit_timeout : Py.float;
  pointer_duration : Py.float;
  capture_delay : Py.float
}.

(** The calls into pywinauto, pyautogui and the X11 classes. A window is
    its handle; the X11 lookups return [None] or a handle, and handle 0 is
    as false as [None]. *)
Record Backend : Type := mkBackend {
  (* runner construction: the imports and [setup_linux_environment] *)
  platform_init : IO unit;
  (* pywinauto: connect, window or top_window, wrapper_object, set_focus *)
  win_locate : Z -> option Py.str -> IO Z;
  win_client_to_screen : Z -> Z * Z -> IO (Z * Z);
  win_client_rect : Z -> IO (Z * Z * Z * Z);
  win_capture_as_image_save : Z -> Py.str -> IO unit;
  win_close : Z -> IO unit;
  (* pyautogui *)
  pyautogui_screenshot_save : option (Z * Z * Z * Z) -> Py.str -> IO unit;
  pyautogui_moveTo : Z -> Z -> option Py.float -> IO unit;
  pyautogui_mouseDown : Py.str -> IO unit;
  pyautogui_mouseUp : Py.str -> IO unit;
  pyautogui_press : Py.str -> IO unit;
  (* X11WindowManager *)
  find_window_by_title : Py.str -> IO (option Z);
  find_windows_by_process : Z -> IO (list Z);
  find_any_visible_window : IO (option Z);
  focus_window : Z -> IO bool;
  close_window : Z -> IO bool;
  (* X11Screenshot: what [capture_window] and [capture_screen] do inside
     their [try] *)
  capture_window_tools : Z -> Py.str -> IO bool;
  capture_screen_tools : Py.str -> IO bool;
  (* X11Input *)
  move_mouse : Z -> Z -> option Py.float -> IO bool;
  mouse_press : Py.str -> IO bool;
  mouse_release : Py.str -> IO bool;
  send_key_to_window : Z -> Py.str -> IO bool;
  (* ProcessManager *)
  is_process_running : Z -> IO bool
}.

(** Truth of an optional handle, of an optional text. *)
Definition truthy_handle (h : option Z) : bool :=
  match h with
  | Some z => negb (z =? 0)%Z
  | None => false
  end.

Definition truthy_text (t : option Py.str) : bool :=
  match t with
  | Some (_ :: _) => true
  | _ => false
  end.

(* ================================================================== *)
(** * [src/platform/x11_automation.py]: [X11Screenshot] *)
(* ================================================================== *)

Module X11Screenshot.
Local Open Scope m_scope.

(** [X11Screenshot.capture_window]: the tools are tried inside a [try]
    whose handler logs and answers [False]. *)
Definition capture_window (B : Backend) (window_id : Z) (output_path : Py.str)
  : M bool :=
  try_except (lift (capture_window_tools B window_id output_path)) is_Exception
    (fun e => lift (Sys.log ERROR "Error capturing window {window_id}: {e}" (Some e)) >>
              ret false).

(** [X11Screenshot.capture_screen] *)
Definition capture_screen (B : Backend) (output_path : Py.str) : M bool :=
  try_except (lift (capture_screen_tools B output_path)) is_Exception
    (fun e => lift (Sys.log ERROR "Error capturing screen: {e}" (Some e)) >>
              ret false).

End X11Screenshot.

(* ================================================================== *)
(** * [src/core/automation_runner.py] *)
(* ================================================================== *)

Module AutomationRunner.
Import Py.
Local Open Scope m_scope.

Section Runner.
(** The platform the module was loaded on, the calls it makes, and the
    configuration the runner was built with. *)
Variable IS_LINUX : bool.
Variable B : Backend.
Variable config : AutomationConfig.

Definition time_sleep (seconds : float) : M unit := lift (Sys.sleep seconds).
Definition logging (lvl : level) (fmt : string) : M unit := lift (Sys.log lvl fmt None).
Definition logging_exc (lvl : level) (fmt : string) (e : exn) : M unit :=
  lift (Sys.log lvl fmt (Some e)).

(** [screenshot_dir / filename] *)
Definition in_screenshot_dir (filename : str) : str :=
  screenshot_dir config ++ lit "/" ++ filename.

(** [AutomationRunner._next_capture_path] *)
Definition _next_capture_path (label : str) : M str := fun s w =>
  let filename :=
    format_0d 3 (Z.of_nat (_capture_index s)) ++ lit "_" ++ label ++ lit ".png" in
  Some (Ok (in_screenshot_dir filename), mkSelf (_capture_index s + 1), w).

(** [[^A-Za-z0-9_]] *)
Definition unsafe_char (c : ascii) : bool :=
  negb (is_upper_az c || is_lower_az c || is_digit c || Ascii.eqb c "_").

(** [re.sub(r"[^A-Za-z0-9_]+", "_", label).strip("_") or "event"] *)
Definition safe_label (label : str) : str :=
  match strip_by (Ascii.eqb "_") (Re.sub_runs unsafe_char (lit "_") label) with
  | [] => lit "event"
  | s => s
  end.

(** [AutomationRunner._event_screenshot_path] *)
Definition _event_screenshot_path (event : Event) : M str :=
  let safe := safe_label (label event) in
  let millis := round (fmul (timestamp event) 1000) in
  let label :=
    format_0d 7 millis ++ lit "_" ++ format_0d 3 (index event) ++ lit "_" ++ safe in
  _next_capture_path label.

(** [AutomationRunner._sleep_before_capture] *)
Definition _sleep_before_capture : M unit :=
  if fltb 0 (capture_delay config) then time_sleep (capture_delay config) else ret tt.

(** ** Windows *)

(** [AutomationRunner._client_region_windows] *)
Definition _client_region_windows (window : Z) : M (option (Z * Z * Z * Z)) :=
  try_except
    (let! rect := lift (win_client_rect B window) in
     let '(rect_left, rect_top, width, height) := rect in
     if (width <=? 0)%Z || (height <=? 0)%Z then
       raise (ValueError (lit "Invalid client rectangle size"))
     else ret (Some (rect_left, rect_top, width, height)))
    is_Exception
    (fun exc => logging_exc DEBUG "Unable to obtain client region: %s" exc >> ret None).

(** [AutomationRunner._capture_screen_windows] *)
Definition _capture_screen_windows (path : str) : M unit :=
  logging DEBUG "Capturing screen to %s" >>
  lift (pyautogui_screenshot_save B None path).

(** [AutomationRunner._capture_window_windows]; [saved] is whether the
    first [try] reached its [return]. *)
Definition _capture_window_windows (window : Z) (path : str) : M unit :=
  let! region := _client_region_windows window in
  let! saved :=
    match region with
    | Some r =>
        try_except
          (lift (pyautogui_screenshot_save B (Some r) path) >> ret true)
          is_Exception
          (fun exc =>
             logging_exc WARNING
               "Client-area capture failed (%s); retrying with full window" exc >>
             ret false)
    | None => ret false
    end in
  if saved then ret tt
  else
    try_except
      (lift (win_capture_as_image_save B window path))
      is_Exception
      (fun exc =>
         logging_exc WARNING
           "Window capture failed (%s), falling back to full screen" exc >>
         _capture_screen_windows path).

(** The loop of [AutomationRunner._wait_for_window_windows] *)
Fixpoint wait_for_window_windows_loop (fuel : nat) (deadline : float) (pid : Z)
  : M Z :=
  match fuel with
  | O => out_of_fuel
  | S fuel' =>
      let! t := lift Sys.time in
      if fltb t deadline then
        let! found :=
          try_except
            (let! wrapper := lift (win_locate B pid (window_title config)) in
             ret (Some wrapper))
            is_Exception
            (fun exc =>
               match exc with
               | ElementNotFoundError | PyWinTimeoutError =>
                   time_sleep (2 # 10) >> ret None
               | _ =>
                   logging_exc DEBUG "Window lookup retry due to: %s" exc >>
                   time_sleep (2 # 10) >> ret None
               end) in
        match found with
        | Some wrapper => ret wrapper
        | None => wait_for_window_windows_loop fuel' deadline pid
        end
      else
        raise (TimeoutError (lit "Failed to locate window within {window_timeout} seconds"))
  end.

(** [AutomationRunner._wait_for_window_windows] *)
Definition _wait_for_window_windows (fuel : nat) (pid : Z) : M Z :=
  let! t := lift Sys.time in
  let deadline := fadd t (window_timeout config) in
  wait_for_window_windows_loop fuel deadline pid.

(** [AutomationRunner._send_mouse_windows] *)
Definition _send_mouse_windows (window : Z) (event : Event) (press : bool) : M unit :=
  let! coords :=
    match window_point event with
    | Some p =>
        try_except
          (let! c := lift (win_client_to_screen B window p) in ret (Some c))
          is_Exception
          (fun exc =>
             logging_exc WARNING "Falling back to absolute coords for %s: %s" exc >>
             ret None)
    | None => ret None
    end in
  (match coords with
   | Some (x, y) =>
       if fltb 0 (pointer_duration config)
       then lift (pyautogui_moveTo B x y (Some (pointer_duration config)))
       else lift (pyautogui_moveTo B x y None)
   | None => ret tt
   end) >>
  let button := if truthy_text (button event)
                then match button event with Some b => b | None => lit "left" end
                else lit "left" in
  if press then lift (pyautogui_mouseDown B button)
  else lift (pyautogui_mouseUp B button).

(** [AutomationRunner._send_key_windows] *)
Definition _send_key_windows (event : Event) : M unit :=
  match button event with
  | Some (c :: key) => lift (pyautogui_press B (c :: key))
  | _ => ret tt
  end.

(** [AutomationRunner._handle_event_windows]; [returned] is whether the
    [exit] branch reached its [return]. *)
Definition _handle_event_windows (window : Z) (event : Event) : M unit :=
  logging INFO "Event %03d: %s" >>
  (if fltb 0 (delta event) then time_sleep (delta event) else ret tt) >>
  let! returned :=
    if str_eqb (action event) (lit "mouse_press") then
      _send_mouse_windows window event true >> ret false
    else if str_eqb (action event) (lit "mouse_release") then
      _send_mouse_windows window event false >> ret false
    else if str_eqb (action event) (lit "key_press") then
      _send_key_windows event >> ret false
    else if str_eqb (action event) (lit "key_release") then
      logging DEBUG "Key release event: %s" >> ret false
    else if str_eqb (action event) (lit "exit") then
      let! exit_path := _event_screenshot_path event in
      _sleep_before_capture >>
      _capture_window_windows window exit_path >>
      try_except (lift (win_close B window)) is_Exception
        (fun exc => logging_exc DEBUG "Window close via UI failed: %s" exc) >>
      ret true
    else logging WARNING "Unhandled event action: %s" >> ret false in
  if returned then ret tt
  else
    let! screenshot_path := _event_screenshot_path event in
    _sleep_before_capture >>
    _capture_window_windows window screenshot_path.

(** ** Linux *)

(** One pass through the [try] of [_wait_for_window_linux]: the handle
    to return, or [None] after the pause. *)
Definition find_and_focus (pid : Z) : M (option Z) :=
  let window_id : option Z := None in
  let! window_id :=
    if truthy_text (window_title config) then
      match window_title config with
      | Some title =>
          logging DEBUG "Searching for window with title containing: '{window_title}'" >>
          lift (find_window_by_title B title)
      | None => ret window_id
      end
    else ret window_id in
  let! window_id :=
    if negb (truthy_handle window_id) then
      logging DEBUG "Searching for windows by process ID: {pid}" >>
      let! windows_by_process := lift (find_windows_by_process B pid) in
      match windows_by_process with
      | first :: _ =>
          logging DEBUG "Found window 0x{window_id:x} by process {pid}" >>
          ret (Some first)
      | [] => ret window_id
      end
    else ret window_id in
  let! window_id :=
    if negb (truthy_handle window_id) && negb (truthy_text (window_title config)) then
      logging DEBUG "Searching for any visible window" >>
      let! any := lift (find_any_visible_window B) in
      (if truthy_handle any
       then logging DEBUG "Found fallback window 0x{window_id:x}" else ret tt) >>
      ret any
    else ret window_id in
  let! focused :=
    match window_id with
    | Some id =>
        if truthy_handle window_id then
          let! ok := lift (focus_window B id) in
          if ok then
            logging INFO "Successfully focused window 0x{window_id:x}" >> ret (Some id)
          else ret None
        else ret None
    | None => ret None
    end in
  match focused with
  | Some id => ret (Some id)
  | None => time_sleep (2 # 10) >> ret None
  end.

(** The loop of [AutomationRunner._wait_for_window_linux] *)
Fixpoint wait_for_window_linux_loop (fuel : nat) (deadline : float) (pid : Z)
  : M Z :=
  match fuel with
  | O => out_of_fuel
  | S fuel' =>
      let! t := lift Sys.time in
      if fltb t deadline then
        let! found :=
          try_except (find_and_focus pid) is_Exception
            (fun exc =>
               logging_exc DEBUG "Window lookup retry due to: %s" exc >>
               time_sleep (2 # 10) >> ret None) in
        match found with
        | Some window_id => ret window_id
        | None => wait_for_window_linux_loop fuel' deadline pid
        end
      else
        raise (TimeoutError (lit "Failed to locate window within {window_timeout} seconds"))
  end.

(** [AutomationRunner._wait_for_window_linux] *)
Definition _wait_for_window_linux (fuel : nat) (pid : Z) : M Z :=
  let! t := lift Sys.time in
  let deadline := fadd t (window_timeout config) in
  wait_for_window_linux_loop fuel deadline pid.

(** [AutomationRunner._capture_window_linux] *)
Definition _capture_window_linux (window_id : Z) (path : str) : M unit :=
  logging DEBUG "Capturing window %s to %s" >>
  let! success := X11Screenshot.capture_window B window_id path in
  if negb success then
    logging WARNING "Window capture failed, falling back to full screen" >>
    X11Screenshot.capture_screen B path >> ret tt
  else ret tt.

(** [AutomationRunner._send_mouse_linux] *)
Definition _send_mouse_linux (window_id : Z) (event : Event) (press : bool) : M unit :=
  (match window_point event with
   | Some (x, y) =>
       if fltb 0 (pointer_duration config)
       then lift (move_mouse B x y (Some (pointer_duration config))) >> ret tt
       else lift (move_mouse B x y None) >> ret tt
   | None => ret tt
   end) >>
  let button := if truthy_text (button event)
                then match button event with Some b => b | None => lit "left" end
                else lit "left" in
  if press then lift (mouse_press B button) >> ret tt
  else lift (mouse_release B button) >> ret tt.

(** [AutomationRunner._send_key_linux] *)
Definition _send_key_linux (window_id : Z) (event : Event) : M unit :=
  match button event with
  | Some (c :: key) => lift (send_key_to_window B window_id (c :: key)) >> ret tt
  | _ => ret tt
  end.

(** [AutomationRunner._handle_event_linux]; [returned] is whether the
    [exit] branch reached its [return]. *)
Definition _handle_event_linux (window_id : Z) (event : Event) : M unit :=
  logging INFO "Event %03d: %s" >>
  (if fltb 0 (delta event) then time_sleep (delta event) else ret tt) >>
  let! returned :=
    if str_eqb (action event) (lit "mouse_press") then
      _send_mouse_linux window_id event true >> ret false
    else if str_eqb (action event) (lit "mouse_release") then
      _send_mouse_linux window_id event false >> ret false
    else if str_eqb (action event) (lit "key_press") then
      _send_key_linux window_id event >> ret false
    else if str_eqb (action event) (lit "key_release") then
      logging DEBUG "Key release event: %s" >> ret false
    else if str_eqb (action event) (lit "exit") then
      let! exit_path := _event_screenshot_path event in
      _sleep_before_capture >>
      _capture_window_linux window_id exit_path >>
      try_except (lift (close_window B window_id) >> ret tt) is_Exception
        (fun exc => logging_exc DEBUG "Window close via X11 failed: %s" exc) >>
      ret true
    else logging WARNING "Unhandled event action: %s" >> ret false in
  if returned then ret tt
  else
    let! screenshot_path := _event_screenshot_path event in
    _sleep_before_capture >>
    _capture_window_linux window_id screenshot_path.

(** ** Common *)

(** [self._capture_window_linux(...)] if [IS_LINUX], else
    [self._capture_window_windows(...)] *)
Definition capture (window : Z) (path : str) : M unit :=
  if IS_LINUX then _capture_window_linux window path
  else _capture_window_windows window path.

(** [AutomationRunner._cleanup_process] *)
Definition _cleanup_process : M unit :=
  let! status := lift Sys.poll in
  match status with
  | None =>
      logging INFO "Terminating process %s" >>
      lift Sys.terminate >>
      try_except (lift (Sys.wait 5) >> ret tt)
        (fun e => match e with TimeoutExpired => true | _ => false end)
        (fun _ =>
           logging INFO "Force killing hung process %s" >>
           lift Sys.kill)
  | Some _ => ret tt
  end.

(** The [while] loop of [AutomationRunner._await_exit] on Linux; [None]
    is the [return] from inside it. *)
Fixpoint await_exit_loop (fuel : nat) (start_time : float) (pid : Z) : M unit :=
  match fuel with
  | O => out_of_fuel
  | S fuel' =>
      let! t := lift Sys.time in
      if fltb (fsub t start_time) (exit_timeout config) then
        let! running := lift (is_process_running B pid) in
        if negb running then ret tt
        else time_sleep (1 # 10) >> await_exit_loop fuel' start_time pid
      else ret tt
  end.

(** [AutomationRunner._await_exit]; the runner has a [process_manager]
    exactly when it was built on Linux. *)
Definition _await_exit (fuel : nat) (pid : Z) : M unit :=
  if fleb (exit_timeout config) 0 then ret tt
  else
    try_except
      (if IS_LINUX then
         let! start_time := lift Sys.time in
         await_exit_loop fuel start_time pid
       else lift (Sys.wait (exit_timeout config)) >> ret tt)
      (fun e => match e with TimeoutExpired => true | _ => false end)
      (fun _ => logging WARNING "Process did not exit within %.1f seconds").

(** What [run] and [run_stealth] do first inside their [try]: the window,
    the pauses, the first frame. *)
Definition until_after_launch (fuel : nat) (pid : Z) : M Z :=
  let! window :=
    if IS_LINUX then _wait_for_window_linux fuel pid
    else _wait_for_window_windows fuel pid in
  logging INFO "Window ready: %s" >>
  time_sleep (launch_wait config) >>
  _sleep_before_capture >>
  let! path := _next_capture_path (lit "after_launch") in
  capture window path >>
  ret window.

(** The [try] block of [AutomationRunner.run] *)
Definition run_try (fuel : nat) (events : list Event) (pid : Z) : M unit :=
  let! window := until_after_launch fuel pid in
  for_each events
    (fun event =>
       if IS_LINUX then _handle_event_linux window event
       else _handle_event_windows window event) >>
  _await_exit fuel pid.

(** [AutomationRunner.run] *)
Definition run (fuel : nat) (events : list Event) : M unit :=
  let! found := lift (Sys.path_exists (exe_path config)) in
  if negb found then
    raise (FileNotFoundError (lit "Executable not found: " ++ exe_path config))
  else
    logging INFO "Launching %s" >>
    let! process := lift (Sys.Popen (exe_path config)) in
    try_finally (run_try fuel events process) _cleanup_process.

(** The [while True] loop of [AutomationRunner.run_stealth] *)
Fixpoint stealth_loop (fuel : nat) (window : Z) (start end_time interval : float)
         (next_ts : float) : M unit :=
  match fuel with
  | O => out_of_fuel
  | S fuel' =>
      let! t := lift Sys.time in
      if fleb end_time t then ret tt
      else
        (if fltb t next_ts then time_sleep (fmax 0 (fsub next_ts t)) else ret tt) >>
        _sleep_before_capture >>
        let! t' := lift Sys.time in
        let label :=
          lit "stealth_" ++
          format_0d 7 (int_of_float (fmul (fsub t' start) 1000)) ++ lit "ms" in
        let! path := _next_capture_path label in
        capture window path >>
        stealth_loop fuel' window start end_time interval (fadd next_ts interval)
  end.

(** The [try] block of [AutomationRunner.run_stealth] *)
Definition run_stealth_try (fuel : nat) (delta_ms length_ms : Z) (pid : Z) : M unit :=
  let! window := until_after_launch fuel pid in
  let! start := lift Sys.time in
  let end_time := fadd start (fmax 0 (fdiv (of_int length_ms) 1000)) in
  let interval := fdiv (of_int (Z.max 1 delta_ms)) 1000 in
  let next_ts := start in
  stealth_loop fuel window start end_time interval next_ts >>
  _sleep_before_capture >>
  let! path := _next_capture_path (lit "after_stealth") in
  capture window path >>
  _await_exit fuel pid.

(** [AutomationRunner.run_stealth] *)
Definition run_stealth (fuel : nat) (delta_ms length_ms : Z) : M unit :=
  let! found := lift (Sys.path_exists (exe_path config)) in
  if negb found then
    raise (FileNotFoundError (lit "Executable not found: " ++ exe_path config))
  else
    logging INFO "Launching %s (stealth)" >>
    let! process := lift (Sys.Popen (exe_path config)) in
    try_finally (run_stealth_try fuel delta_ms length_ms process) _cleanup_process.

(** [AutomationRunner.__init__]: the state of a new runner. *)
Definition init : M unit := fun _ w =>
  (lift (Sys.mkdir (screenshot_dir config)) >> lift (platform_init B)) (mkSelf 0) w.

End Runner.
End AutomationRunner.

(* ================================================================== *)
(** * [src/main.py]: script mode *)
(* ================================================================== *)

Module Main.
Import Py.
Local Open Scope m_scope.

(** The arguments script mode reads. *)
Record Args : Type := mkArgs {
  script : option str;
  exe : option str;
  arg_window_title : option str;
  screenshots : str;
  output : option str;
  arg_launch_wait : float;
  arg_window_timeout : float;
  arg_exit_timeout : float;
  arg_pointer_duration : float;
  arg_capture_delay : float
}.

Definition of_result {A : Type} (r : result A) : M A := fun s w => Some (r, s, w).

(** [AutomationConfig(...)] as [main] fills it in. *)
Definition config_of (args : Args) (exe : str) : AutomationConfig :=
  let output_dir := match output args with Some d => d | None => screenshots args end in
  mkConfig exe (arg_window_title args) output_dir (arg_launch_wait args)
           (arg_window_timeout args) (arg_exit_timeout args)
           (arg_pointer_duration args) (arg_capture_delay args).

(** [main] from "Handle script mode" on. [_configure_pyautogui] changes
    nothing the runner observes. *)
Definition main (IS_LINUX : bool) (B : Backend) (fuel : nat) (args : Args) : M unit :=
  match script args with
  | None =>
      raise (SystemExit (exit_message
        (lit "Script mode requires --script pointing to the event transcript")))
  | Some script_path =>
      match exe args with
      | None =>
          raise (SystemExit (exit_message
            (lit "Script mode requires --exe pointing to the target executable")))
      | Some exe_path =>
          let! found := lift (Sys.path_exists script_path) in
          if negb found then
            raise (FileNotFoundError (lit "Script not found: " ++ script_path))
          else
            try_except
              (let! text := lift (Sys.read_text script_path) in
               let! events := of_result (ScriptParser.parse (Sys.splitlines text)) in
               match events with
               | [] =>
                   raise (SystemExit (exit_message
                     (lit "No events to replay; script is empty")))
               | _ =>
                   lift (Sys.log INFO "Parsed %d events" None) >>
                   let config := config_of args exe_path in
                   AutomationRunner.init B config >>
                   AutomationRunner.run IS_LINUX B config fuel events
               end)
              (fun e => match e with KeyboardInterrupt => true | _ => false end)
              (fun _ =>
                 lift (Sys.log INFO "Replay interrupted by user" None) >>
                 raise (SystemExit (exit_status 0)))
      end
  end.

End Main.

(* ================================================================== *)
(** * Vocabulary of the statements *)
(* ================================================================== *)

Module ReSpec.
Import Py Re.

(** [Matches r pre rest c c']: [r] can consume [pre] in front of [rest],
    taking the captures from [c] to [c']. *)
Inductive Matches : regex -> str -> str -> captures -> captures -> Prop :=
| M_Eps rest c : Matches Eps [] rest c c
| M_Cls p ch rest c : p ch = true -> Matches (Cls p) [ch] rest c c
| M_Seq r1 r2 pre1 pre2 rest c c1 c2 :
    Matches r1 pre1 (pre2 ++ rest) c c1 ->
    Matches r2 pre2 rest c1 c2 ->
    Matches (Seq r1 r2) (pre1 ++ pre2) rest c c2
| M_AltL r1 r2 pre rest c c' : Matches r1 pre rest c c' -> Matches (Alt r1 r2) pre rest c c'
| M_AltR r1 r2 pre rest c c' : Matches r2 pre rest c c' -> Matches (Alt r1 r2) pre rest c c'
| M_Star p pre rest c : Forall (fun x => p x = true) pre -> Matches (Star p) pre rest c c
| M_OptY r pre rest c c' : Matches r pre rest c c' -> Matches (Opt r) pre rest c c'
| M_OptN r rest c : Matches (Opt r) [] rest c c
| M_Grp g r pre rest c c' :
    Matches r pre rest c c' -> Matches (Grp g r) pre rest c ((g, pre) :: c')
| M_Eos_end c : Matches Eos [] [] c c
| M_Eos_nl c : Matches Eos [] [newline] c c.

Definition all_true (p : ascii -> bool) (s : str) : Prop :=
  Forall (fun c => p c = true) s.

(** The texts of [\d+(?:\.\d+)?]. *)
Inductive unsigned_decimal : str -> Prop :=
| ud_int c ip : all_true is_digit (c :: ip) -> unsigned_decimal (c :: ip)
| ud_frac c ip d fr :
    all_true is_digit (c :: ip) -> all_true is_digit (d :: fr) ->
    unsigned_decimal ((c :: ip) ++ "."%char :: d :: fr).

End ReSpec.

Module TranscriptSpec.
Import Py Re ScriptParser.

(** A line that [parse] skips. *)
Definition blank (raw_line : str) : bool :=
  match strip raw_line with
  | [] => true
  | _ => false
  end.

Definition nonblank (raw_line : str) : bool := negb (blank raw_line).

Definition matched (r : regex) (s : str) : bool :=
  match re_match r s with
  | Some _ => true
  | None => false
  end.

(** The three forms of a body. *)
Definition mouse_form (body : str) : bool := matched MOUSE_RE body.
Definition key_form (body : str) : bool := matched KEY_RE body.
Definition exit_form (body : str) : bool :=
  contains (lit "exiting application") (str_lower body).

(** The body that follows a valid timestamp prefix. *)
Definition body_of (line : str) : option str :=
  match re_match DELTA_RE line with
  | Some m => lookup g_body m
  | None => None
  end.

(** A non-blank line without a valid timestamp prefix, or whose body has
    none of the three forms. *)
Definition malformed (raw_line : str) : bool :=
  negb (blank raw_line) &&
  match body_of (strip raw_line) with
  | None => true
  | Some body => negb (mouse_form body || key_form body || exit_form body)
  end.

(** The error that names a malformed line. *)
Definition error_of (raw_line : str) : exn :=
  let line := strip raw_line in
  if matched DELTA_RE line
  then ValueError (lit "Unsupported event line: " ++ line)
  else ValueError (lit "Could not parse timestamp in line: " ++ line).

(** The running previous timestamp when event [k] is reached. *)
Definition prev_timestamp (events : list Event) (k : nat) : float :=
  match k with
  | O => 0%Q
  | S j => match nth_error events j with
           | Some e => timestamp e
           | None => 0%Q
           end
  end.

Definition clamp (d : float) : float := if fltb d 0 then 0%Q else d.

(** [[ +<seconds>s ] <body>], with any white space where the pattern
    allows it. *)
Definition stamped (ws0 seconds ws1 ws2 body : str) : str :=
  "["%char :: ws0 ++ "+"%char :: seconds ++ "s"%char :: ws1 ++ "]"%char :: ws2 ++ body.

Definition state_text (pressed : bool) : str :=
  if pressed then lit "Pressed" else lit "Released".

Definition mouse_action (pressed : bool) : str :=
  if pressed then lit "mouse_press" else lit "mouse_release".

(** [onMouse(Pressed|Released) <letter>:<tail>], [ws] being the white
    space before the letter and [tail] all that follows the colon. *)
Definition mouse_body (pressed : bool) (ws : str) (letter : ascii) (tail : str) : str :=
  lit "onMouse" ++ state_text pressed ++ ws ++ letter :: ":"%char :: tail.

(** The first character of [s], if any, is outside [p]. *)
Definition stops (p : ascii -> bool) (s : str) : Prop :=
  match s with
  | [] => True
  | c :: _ => p c = false
  end.

End TranscriptSpec.

Module RunnerSpec.
Import Py.
Local Open Scope m_scope.

(** The child, asked to terminate in [w], is gone within [grace] seconds. *)
Definition gone_within (grace : float) (w : World) : bool :=
  match fst (Sys.wait grace (snd (Sys.terminate w))) with
  | Ok _ => true
  | Raise _ => false
  end.

(** What [_cleanup_process] adds to the trace of a world in which the
    child still runs. *)
Definition cleanup_effects (w : World) : list effect :=
  [E_log INFO (lit "Terminating process %s") None; E_terminate; E_wait 5] ++
  (if gone_within 5 w then []
   else [E_log INFO (lit "Force killing hung process %s") None; E_kill]).

(** The [try] block of [run] without its last step. *)
Definition replay (IS_LINUX : bool) (B : Backend) (config : AutomationConfig)
           (fuel : nat) (events : list Event) (pid : Z) : M unit :=
  let! window := AutomationRunner.until_after_launch IS_LINUX B config fuel pid in
  for_each events
    (fun event =>
       if IS_LINUX then AutomationRunner._handle_event_linux B config window event
       else AutomationRunner._handle_event_windows B config window event).

(** The world in which the [try] block of [run] starts. *)
Definition launched (config : AutomationConfig) (fmt : string) (w : World) : World :=
  emit (emit w (E_log INFO (lit fmt) None)) (E_spawn (exe_path config)).

Definition io_ok {A : Type} (a : A) : IO A := fun w => (Ok a, w).
Definition io_fail {A : Type} (e : exn) : IO A := fun w => (Raise e, w).

(** A desktop on which no window ever shows up and every other call
    answers at once. *)
Definition empty_desktop : Backend :=
  mkBackend (io_ok tt)
    (fun _ _ => io_fail ElementNotFoundError) (fun _ p => io_ok p)
    (fun _ => io_ok (0, 0, 800, 600)%Z) (fun _ _ => io_ok tt) (fun _ => io_ok tt)
    (fun _ _ => io_ok tt) (fun _ _ _ => io_ok tt) (fun _ => io_ok tt)
    (fun _ => io_ok tt) (fun _ => io_ok tt)
    (fun _ => io_ok None) (fun _ => io_ok []) (io_ok None)
    (fun _ => io_ok true) (fun _ => io_ok true)
    (fun _ _ => io_ok true) (fun _ => io_ok true)
    (fun _ _ _ => io_ok true) (fun _ => io_ok true) (fun _ => io_ok true)
    (fun _ _ => io_ok true) (fun _ => io_ok true).

(** A Windows desktop on which the client rectangle is known and every
    way of taking a picture fails. *)
Definition broken_screen : Backend :=
  mkBackend (io_ok tt)
    (fun _ _ => io_ok 1%Z) (fun _ p => io_ok p)
    (fun _ => io_ok (0, 0, 800, 600)%Z)
    (fun _ _ => io_fail (BackendError (lit "capture_as_image failed")))
    (fun _ => io_ok tt)
    (fun _ _ => io_fail (BackendError (lit "screen grab failed")))
    (fun _ _ _ => io_ok tt) (fun _ => io_ok tt)
    (fun _ => io_ok tt) (fun _ => io_ok tt)
    (fun _ => io_ok None) (fun _ => io_ok []) (io_ok None)
    (fun _ => io_ok true) (fun _ => io_ok true)
    (fun _ _ => io_ok false) (fun _ => io_ok false)
    (fun _ _ _ => io_ok true) (fun _ => io_ok true) (fun _ => io_ok true)
    (fun _ _ => io_ok true) (fun _ => io_ok true).

(** A computation that leaves the runner's own state alone. *)
Definition keeps_self {A : Type} (m : M A) : Prop :=
  forall s w r s' w', m s w = Some (r, s', w') -> s' = s.

(** [{counter:03d}_{label}.png] *)
Definition capture_filename (counter : nat) (label : str) : str :=
  format_0d 3 (Z.of_nat counter) ++ lit "_" ++ label ++ lit ".png".

(** [{millis:07d}_{index:03d}_{safe_label}] *)
Definition event_label (event : Event) : str :=
  format_0d 7 (round (fmul (timestamp event) 1000)) ++ lit "_" ++
  format_0d 3 (index event) ++ lit "_" ++
  AutomationRunner.safe_label (label event).

Fixpoint take_while (p : ascii -> bool) (s : str) : str :=
  match s with
  | c :: s' => if p c then c :: take_while p s' else []
  | [] => []
  end.

Fixpoint digits_nat (acc : nat) (s : str) : nat :=
  match s with
  | [] => acc
  | c :: s' => digits_nat (10 * acc + (code c - 48)) s'
  end.

(** The number a file name starts with. *)
Definition counter_of (filename : str) : nat :=
  digits_nat 0 (take_while is_digit filename).

(** The sanitization as C5 words it: each character outside
    [[A-Za-z0-9_]] becomes an underscore of its own. *)
Definition replace_each_char (label : str) : str :=
  match strip_by (Ascii.eqb "_")
          (map (fun c => if AutomationRunner.unsafe_char c then "_"%char else c) label)
  with
  | [] => lit "event"
  | s => s
  end.

(** A label that needs no sanitization. *)
Definition clean_label (label : str) : Prop :=
  label <> [] /\
  Forall (fun c => AutomationRunner.unsafe_char c = false) label /\
  hd "a"%char label <> "_"%char /\ last label "a"%char <> "_"%char.

(** Taking a picture on the steady desktop: it lasts [latency] seconds and
    leaves a frame at [path]. *)
Definition shoot (latency : float) (path : str) : IO unit := fun w =>
  (Ok tt, emit (set_now w (fadd (now w) latency)) (E_backend (lit "frame") path)).

(** A desktop on which the window is there at once and every capture
    succeeds after [latency] seconds. *)
Definition steady_desktop (latency : float) : Backend :=
  mkBackend (io_ok tt)
    (fun _ _ => io_ok 1%Z) (fun _ p => io_ok p)
    (fun _ => io_ok (0, 0, 800, 600)%Z)
    (fun _ path => shoot latency path) (fun _ => io_ok tt)
    (fun _ path => shoot latency path)
    (fun _ _ _ => io_ok tt) (fun _ => io_ok tt)
    (fun _ => io_ok tt) (fun _ => io_ok tt)
    (fun _ => io_ok None) (fun _ => io_ok [1%Z]) (io_ok None)
    (fun _ => io_ok true) (fun _ => io_ok true)
    (fun _ path w => let (_, w') := shoot latency path w in (Ok true, w'))
    (fun path w => let (_, w') := shoot latency path w in (Ok true, w'))
    (fun _ _ _ => io_ok true) (fun _ => io_ok true) (fun _ => io_ok true)
    (fun _ _ => io_ok true) (fun _ => io_ok true).

(** The frames written so far, oldest first. *)
Fixpoint frames_of (effects : list effect) : list str :=
  match effects with
  | [] => []
  | E_backend _ path :: rest => path :: frames_of rest
  | _ :: rest => frames_of rest
  end.

Definition frames (w : World) : list str := frames_of (trace w).

(** The command-line defaults, with the executable [app] and the
    screenshot directory [shots]. *)
Definition stealth_config : AutomationConfig :=
  mkConfig (lit "app") None (lit "shots") (3 # 2) 15 10 0 0.

Definition fresh_world : World :=
  mkWorld 0 [(lit "app", [])] 4242 None (Some (1 # 10)) [].

(** The world when the stealth loop takes its picture: after the pause up
    to [next_ts], if there is one. *)
Definition at_tick (next_ts : float) (w : World) : World :=
  if fltb (now w) next_ts
  then snd (Sys.sleep (fmax 0 (fsub next_ts (now w))) w)
  else w.

(** [stealth_{ms:07d}ms] *)
Definition stealth_label (ms : Z) : str :=
  lit "stealth_" ++ format_0d 7 ms ++ lit "ms".

(** The paths of [n] interval frames, the first with number [counter] at
    tick [k] of [step] milliseconds. *)
Fixpoint tick_paths (config : AutomationConfig) (step : Z) (counter : nat) (k : Z)
         (n : nat) : list str :=
  match n with
  | O => []
  | S n' =>
      AutomationRunner.in_screenshot_dir config
        (capture_filename counter (stealth_label (k * step))) ::
      tick_paths config step (S counter) (k + 1) n'
  end.

(** A configuration with a short discovery timeout, and a world whose
    child ignores the request to terminate. *)
Definition timeout_config : AutomationConfig :=
  mkConfig (lit "app") None (lit "shots") 0 (1 # 2) 10 0 0.

Definition stubborn_child : World :=
  mkWorld 0 [(lit "app", [])] 4242 None None [].

(** A configuration that does not wait for the child to exit. *)
Definition no_wait_config : AutomationConfig :=
  mkConfig (lit "app") None (lit "shots") 0 15 0 0 0.

(** Script-mode arguments with the defaults of the command line. *)
Definition script_args (script exe : str) : Main.Args :=
  Main.mkArgs (Some script) (Some exe) None (lit "screenshots") None
              (3 # 2) 15 10 0 0.

End RunnerSpec.

(* ================================================================== *)
(** * Further parts of the program

    [src/analysis/comparison.py], [src/ui/interactive_viewer.py], the
    comparison, interactive and stealth modes of [src/main.py], and the
    window search, the mouse buttons and the tool checks of
    [src/platform/x11_automation.py], each with the vocabulary in which
    its properties are stated. *)
(* ================================================================== *)

(* ================================================================== *)
(** * More vocabulary: the grammar of a transcript *)
(* ================================================================== *)

Module GrammarSpec.
Import Py Re ScriptParser ReSpec TranscriptSpec.

Definition key_action (pressed : bool) : str :=
  if pressed then lit "key_press" else lit "key_release".

(** [onKey(Pressed|Released) <key>:<tail>], [ws] being the white space
    before the key and [tail] all that follows the colon. *)
Definition key_body (pressed : bool) (ws : str) (key : ascii) (tail : str) : str :=
  lit "onKey" ++ state_text pressed ++ ws ++ key :: ":"%char :: tail.

(** The texts of [-?\d+(?:\.\d+)?]. *)
Inductive signed_decimal : str -> Prop :=
| sd_plain s : unsigned_decimal s -> signed_decimal s
| sd_minus s : unsigned_decimal s -> signed_decimal ("-"%char :: s).

(** [details] holds [<keyword><x>,<y>)], the keyword -- which ends with
    the opening parenthesis -- in any case. *)
Definition point_at (keyword details x y : str) : Prop :=
  exists before kw after,
    details = before ++ kw ++ x ++ ","%char :: y ++ ")"%char :: after /\
    str_lower kw = keyword /\ signed_decimal x /\ signed_decimal y.

(** A letter or a digit of ASCII. *)
Definition alnum (c : ascii) : bool := is_upper_az c || is_lower_az c || is_digit c.

(** The events [_parse_line] can build, whatever delta they are given
    later. *)
Inductive parsed_event : Event -> Prop :=
| pe_mouse idx ts d pressed (left : bool) wp wd line :
    parsed_event
      (mkEvent idx ts d (mouse_action pressed)
               (Some (if left then lit "left" else lit "right")) wp wd line)
| pe_key idx ts d pressed key line :
    alnum key = true ->
    parsed_event (mkEvent idx ts d (key_action pressed) (Some [key]) None None line)
| pe_exit idx ts d line :
    parsed_event (mkEvent idx ts d (lit "exit") None None None line).

(** The sum of a list of floats. *)
Fixpoint total (xs : list float) : Q :=
  match xs with
  | [] => 0
  | x :: xs' => x + total xs'
  end.

(** No event is stamped earlier than the one before it. *)
Definition ascending (events : list Event) : Prop :=
  forall j ej ek,
    nth_error events j = Some ej -> nth_error events (S j) = Some ek ->
    (timestamp ej <= timestamp ek)%Q.

(** What [parse] asks of an event: a stamp that is not negative and one of
    the three shapes. *)
Definition well_shaped (e : Event) : Prop := (0 <= timestamp e)%Q /\ parsed_event e.

Local Open Scope re_scope.

(** [<keyword>(?P<x>number),(?P<y>number)\)], IGNORECASE; the keyword ends
    with the opening parenthesis. *)
Definition point_re (keyword : str) : regex :=
  word_i keyword ;; Grp g_x number ;; chr_i "," ;; Grp g_y number ;; chr_i ")".

End GrammarSpec.

(* ================================================================== *)
(** * More vocabulary: a replay *)
(* ================================================================== *)

Module ReplaySpec.
Import Py RunnerSpec.

(** The paths of the frames of [events], the first with number
    [counter]. *)
Fixpoint event_paths (config : AutomationConfig) (counter : nat)
         (events : list Event) : list str :=
  match events with
  | [] => []
  | event :: rest =>
      AutomationRunner.in_screenshot_dir config
        (capture_filename counter (event_label event)) ::
      event_paths config (S counter) rest
  end.

(** A desktop on which the window does not show up: every lookup ends at
    once with one of the two errors by which pywinauto says so. *)
Definition nothing_there (B : Backend) : Prop :=
  forall pid title w,
    win_locate B pid title w = (Raise ElementNotFoundError, w) \/
    win_locate B pid title w = (Raise PyWinTimeoutError, w).

(** The least number of pauses of 0.2 seconds that cover [timeout]. *)
Definition lookups (timeout : float) : nat := Z.to_nat (Qceiling (timeout * 5)).

(** The child is gone by the time [timeout] has passed. *)
Definition exits_within (timeout : float) (w : World) : bool :=
  match exit_at w with
  | Some t => fleb t (fadd (now w) timeout)
  | None => false
  end.

(** The message of [time.sleep] for a negative length. *)
Definition negative_sleep : exn :=
  ValueError (lit "sleep length must be non-negative").

Definition lookup_timeout : exn :=
  TimeoutError (lit "Failed to locate window within {window_timeout} seconds").

(** The world after one pause of the lookup loop. *)
Definition pause (w : World) : World := snd (Sys.sleep (2 # 10) w).

(** A computation that returns [a], leaves the runner alone and writes no
    frame. *)
Definition quiet_to {A : Type} (a : A) (m : M A) : Prop :=
  forall s w, exists w', m s w = Some (Ok a, s, w') /\ frames w' = frames w.

End ReplaySpec.

(* ================================================================== *)
(** * Operations of the surroundings, in sequence *)
(* ================================================================== *)

Definition io_ret {A : Type} (a : A) : IO A := fun w => (Ok a, w).

Definition io_raise {A : Type} (e : exn) : IO A := fun w => (Raise e, w).

Definition io_bind {A B : Type} (m : IO A) (k : A -> IO B) : IO B := fun w =>
  match m w with
  | (Ok a, w') => k a w'
  | (Raise e, w') => (Raise e, w')
  end.

(** [for x in xs: body x] *)
Fixpoint io_for {A : Type} (xs : list A) (body : A -> IO unit) : IO unit :=
  match xs with
  | [] => io_ret tt
  | x :: xs' => io_bind (body x) (fun _ => io_for xs' body)
  end.

(** [logging.<lvl>(fmt, args...)], the record keeping the message with
    its arguments filled in. *)
Definition log_text (lvl : level) (msg : Py.str) : IO unit := fun w =>
  (Ok tt, emit w (E_log lvl msg None)).

Declare Scope io_scope.
Delimit Scope io_scope with IO.
Notation "'do!' x ':=' m 'in' k" := (io_bind m (fun x => k))
  (at level 10, x name, m at level 100, k at level 200) : io_scope.
Notation "m ';;;' k" := (io_bind m (fun _ => k))
  (at level 62, right associativity) : io_scope.

(* ================================================================== *)
(** * Names of files, and sets of them *)
(* ================================================================== *)

Module Pathlib.
Import Py.

(** [directory / name] *)
Definition joinpath (directory name : str) : str := directory ++ lit "/" ++ name.

(** [name.rfind('.')] *)
Fixpoint rfind_dot (name : str) : option nat :=
  match name with
  | [] => None
  | c :: rest =>
      match rfind_dot rest with
      | Some i => Some (S i)
      | None => if Ascii.eqb c "."%char then Some 0%nat else None
      end
  end.

(** Where [PurePath.suffix] and [PurePath.stem] cut a name: at its last
    point, unless that is its first or its last character (pathlib up to
    Python 3.13). *)
Definition cut (name : str) : option nat :=
  match rfind_dot name with
  | Some i =>
      if (0 <? i)%nat && (i <? List.length name - 1)%nat then Some i else None
  | None => None
  end.

(** [Path(name).suffix] *)
Definition suffix (name : str) : str :=
  match cut name with
  | Some i => skipn i name
  | None => []
  end.

(** [Path(name).stem] *)
Definition stem (name : str) : str :=
  match cut name with
  | Some i => firstn i name
  | None => name
  end.

(** [a <= b] on [str]: by code points, a prefix first. *)
Fixpoint str_leb (a b : str) : bool :=
  match a, b with
  | [], _ => true
  | _ :: _, [] => false
  | x :: a', y :: b' =>
      if (code x <? code y)%nat then true
      else if (code x =? code y)%nat then str_leb a' b'
      else false
  end.

Definition mem (name : str) (names : list str) : bool := existsb (str_eqb name) names.

(** The keys of [{path.name: path for path in ...}]: each name once, in
    the order of its first appearance. *)
Fixpoint keys (names : list str) : list str :=
  match names with
  | [] => []
  | name :: rest => name :: filter (fun n => negb (str_eqb name n)) (keys rest)
  end.

(** [a.keys() & b.keys()] and [a.keys() - b.keys()] *)
Definition both (a b : list str) : list str := filter (fun n => mem n b) (keys a).
Definition only (a b : list str) : list str := filter (fun n => negb (mem n b)) (keys a).

Fixpoint insert_sorted (name : str) (names : list str) : list str :=
  match names with
  | [] => [name]
  | n :: rest => if str_leb name n then name :: names else n :: insert_sorted name rest
  end.

(** [sorted(names)] *)
Definition sorted (names : list str) : list str := fold_right insert_sorted [] names.

End Pathlib.

(* ================================================================== *)
(** * Pillow and the directories of frames *)
(* ================================================================== *)

(** What the program looks at in an opened image. *)
Record Picture : Type := mkPicture {
  size : Z * Z;
  mode : Py.str;
  content : Py.str
}.

(** The calls into pathlib and Pillow that read and write frames. *)
Record Gallery : Type := mkGallery {
  path_exists : Py.str -> IO bool;                 (* directory.exists() *)
  path_is_dir : Py.str -> IO bool;                 (* directory.is_dir() *)
  glob_png : Py.str -> IO (list Py.str);           (* names of directory.glob("*.png") *)
  image_open : Py.str -> IO Picture;               (* Image.open(path) *)
  image_convert : Picture -> Py.str -> IO Picture; (* img.convert(mode) *)
  image_difference : Picture -> Picture -> IO Picture; (* ImageChops.difference(a, b) *)
  image_save : Picture -> Py.str -> IO unit        (* img.save(path) *)
}.

(* ================================================================== *)
(** * [src/analysis/comparison.py] *)
(* ================================================================== *)

Module Comparison.
Import Py Pathlib.
Local Open Scope io_scope.

Section Compare.
Variable G : Gallery.

(** [not directory.exists() or not directory.is_dir()] *)
Definition not_a_directory (directory : str) : IO bool :=
  do! there := path_exists G directory in
  if negb there then io_ret true
  else do! is_dir := path_is_dir G directory in io_ret (negb is_dir).

(** The loop over [(first_dir, second_dir)]. *)
Fixpoint check_directories (directories : list str) : IO unit :=
  match directories with
  | [] => io_ret tt
  | directory :: rest =>
      do! bad := not_a_directory directory in
      if bad then
        io_raise (FileNotFoundError (lit "Input directory not found: " ++ directory))
      else check_directories rest
  end.

(** [img_a.size != img_b.size], negated *)
Definition size_eqb (a b : Z * Z) : bool :=
  (fst a =? fst b)%Z && (snd a =? snd b)%Z.

(** [str(z)] and [str((width, height))] *)
Definition str_of_int (z : Z) : str :=
  if (z <? 0)%Z then "-"%char :: decimal (Z.to_nat (- z)) else decimal (Z.to_nat z).

Definition repr_size (a : Z * Z) : str :=
  lit "(" ++ str_of_int (fst a) ++ lit ", " ++ str_of_int (snd a) ++ lit ")".

(** [Path(name).stem + "_diff" + Path(name).suffix] *)
Definition out_name (name : str) : str := stem name ++ lit "_diff" ++ suffix name.

(** The loop over [shared_names], [processed] being the count so far. *)
Fixpoint diff_frames (first_dir second_dir output_dir : str) (names : list str)
         (processed : nat) : IO nat :=
  match names with
  | [] => io_ret processed
  | name :: rest =>
      let output_path := joinpath output_dir (out_name name) in
      do! img_a := image_open G (joinpath first_dir name) in
      do! img_b := image_open G (joinpath second_dir name) in
      if negb (size_eqb (size img_a) (size img_b)) then
        log_text WARNING
          (lit "Skipping " ++ name ++ lit " due to size mismatch (" ++
           repr_size (size img_a) ++ lit " vs " ++ repr_size (size img_b) ++
           lit ")") ;;;
        diff_frames first_dir second_dir output_dir rest processed
      else
        do! img_b :=
          if negb (str_eqb (mode img_a) (mode img_b))
          then image_convert G img_b (mode img_a)
          else io_ret img_b in
        do! diff := image_difference G img_a img_b in
        image_save G diff output_path ;;;
        log_text INFO (lit "Wrote diff frame: " ++ output_path) ;;;
        diff_frames first_dir second_dir output_dir rest (S processed)
  end.

(** [generate_comparison] *)
Definition generate_comparison (inputs : list str) (output_dir : str) : IO unit :=
  match inputs with
  | [first_dir; second_dir] =>
      check_directories [first_dir; second_dir] ;;;
      Sys.mkdir output_dir ;;;
      do! first_files := glob_png G first_dir in
      do! second_files := glob_png G second_dir in
      let shared_names := sorted (both first_files second_files) in
      match shared_names with
      | [] =>
          io_raise (SystemExit (exit_message
            (lit "No matching frames to compare; ensure filenames align")))
      | _ =>
          let unmatched_first := sorted (only first_files second_files) in
          let unmatched_second := sorted (only second_files first_files) in
          io_for unmatched_first (fun name =>
            log_text WARNING
              (lit "Skipping frame present only in first input: " ++ name)) ;;;
          io_for unmatched_second (fun name =>
            log_text WARNING
              (lit "Skipping frame present only in second input: " ++ name)) ;;;
          do! processed :=
            diff_frames first_dir second_dir output_dir shared_names 0 in
          log_text INFO
            (lit "Completed diff generation for " ++ decimal processed ++
             lit " frame(s)")
      end
  | _ =>
      io_raise (ValueError
        (lit "Comparison mode expects exactly two input directories"))
  end.
End Compare.

End Comparison.

(* ================================================================== *)
(** * [src/ui/interactive_viewer.py] *)
(* ================================================================== *)

Module InteractiveViewer.
Import Py Pathlib.
Local Open Scope io_scope.

(** [min(a, b)] and [max(a, b)] of two floats *)
Definition fmin (a b : float) : float := if fltb b a then b else a.

(** The attributes of a viewer that its methods read. [_draw_x] and
    [_draw_w] are [None] until [render] has set them. *)
Record Viewer : Type := mkViewer {
  dir_a : str;
  dir_b : str;
  dir_diff : option str;
  names : list str;
  files_diff : list str;
  mode : Z;
  index : Z;
  alpha : float;
  split : float;
  fit : bool;
  help_on : bool;
  _draw_x : option Z;
  _draw_w : option Z
}.

Definition set_mode_field (v : Viewer) (m : Z) : Viewer :=
  mkViewer (dir_a v) (dir_b v) (dir_diff v) (names v) (files_diff v) m (index v)
           (alpha v) (split v) (fit v) (help_on v) (_draw_x v) (_draw_w v).

Definition set_index (v : Viewer) (i : Z) : Viewer :=
  mkViewer (dir_a v) (dir_b v) (dir_diff v) (names v) (files_diff v) (mode v) i
           (alpha v) (split v) (fit v) (help_on v) (_draw_x v) (_draw_w v).

Definition set_alpha (v : Viewer) (a : float) : Viewer :=
  mkViewer (dir_a v) (dir_b v) (dir_diff v) (names v) (files_diff v) (mode v) (index v)
           a (split v) (fit v) (help_on v) (_draw_x v) (_draw_w v).

Definition set_split (v : Viewer) (x : float) : Viewer :=
  mkViewer (dir_a v) (dir_b v) (dir_diff v) (names v) (files_diff v) (mode v) (index v)
           (alpha v) x (fit v) (help_on v) (_draw_x v) (_draw_w v).

Definition set_fit (v : Viewer) (b : bool) : Viewer :=
  mkViewer (dir_a v) (dir_b v) (dir_diff v) (names v) (files_diff v) (mode v) (index v)
           (alpha v) (split v) b (help_on v) (_draw_x v) (_draw_w v).

Definition set_help_on (v : Viewer) (b : bool) : Viewer :=
  mkViewer (dir_a v) (dir_b v) (dir_diff v) (names v) (files_diff v) (mode v) (index v)
           (alpha v) (split v) (fit v) b (_draw_x v) (_draw_w v).

Definition set_drawn (v : Viewer) (x w : Z) : Viewer :=
  mkViewer (dir_a v) (dir_b v) (dir_diff v) (names v) (files_diff v) (mode v) (index v)
           (alpha v) (split v) (fit v) (help_on v) (Some x) (Some w).

(** The calls into tkinter and, inside [render], into Pillow.
    [tk_compose] is [render] up to the point where it stores where it will
    draw -- it loads, composes and fits the images -- and answers the x
    offset and the width of what it will draw; [tk_paint] is the rest of
    [render]. *)
Record Tk : Type := mkTk {
  tk_open : IO unit;                    (* tk.Tk(), the canvas, the bindings *)
  tk_cursor : str -> IO unit;           (* canvas.config(cursor=...) *)
  tk_winfo_width : IO Z;                (* canvas.winfo_width() *)
  tk_compose : Viewer -> IO (Z * Z);
  tk_paint : Viewer -> IO unit;
  tk_mainloop : Viewer -> IO unit       (* root.mainloop() *)
}.

(** A method of the viewer: its outcome, and the viewer and the world it
    leaves. *)
Definition Method : Type := Viewer -> World -> result unit * Viewer * World.

Section Methods.
Variable G : Gallery.
Variable T : Tk.

(** [InteractiveViewer.render] *)
Definition render : Method := fun v w =>
  match tk_compose T v w with
  | (Raise e, w1) => (Raise e, v, w1)
  | (Ok (x, width), w1) =>
      let v1 := set_drawn v x width in
      let (r, w2) := tk_paint T v1 w1 in (r, v1, w2)
  end.

(** [InteractiveViewer._toggle_fit] and [_toggle_help] *)
Definition _toggle_fit : Method := fun v w => render (set_fit v (negb (fit v))) w.
Definition _toggle_help : Method := fun v w =>
  render (set_help_on v (negb (help_on v))) w.

(** [InteractiveViewer.set_mode] *)
Definition set_mode (m : Z) : Method := fun v w =>
  let v1 := set_mode_field v m in
  let (r, w1) :=
    if (mode v1 =? 2)%Z then
      match tk_cursor T (lit "sb_h_double_arrow") w with
      | (Raise e, w') =>
          if is_Exception e then tk_cursor T [] w' else (Raise e, w')
      | ok => ok
      end
    else tk_cursor T [] w in
  match r with
  | Ok _ => render v1 w1
  | Raise e => (Raise e, v1, w1)
  end.

(** [InteractiveViewer._set_alpha] *)
Definition _set_alpha (a : float) : Method := fun v w =>
  let v1 := set_alpha v (fmax 0 (fmin 1 a)) in
  if (mode v1 =? 1)%Z then render v1 w else (Ok tt, v1, w).

(** [InteractiveViewer._set_split] *)
Definition _set_split (x : float) : Method := fun v w =>
  let v1 := set_split v (fmax 0 (fmin 1 x)) in
  if (mode v1 =? 2)%Z then render v1 w else (Ok tt, v1, w).

(** [(i + step) % len(self.names)]; with no names the division raises
    [ZeroDivisionError]. *)
Definition turn (step : Z) : Method := fun v w =>
  match names v with
  | [] => (Raise (BackendError (lit "ZeroDivisionError")), v, w)
  | _ => render (set_index v ((index v + step) mod Z.of_nat (List.length (names v)))) w
  end.

(** [InteractiveViewer.prev] and [next] *)
Definition prev : Method := turn (-1).
Definition next : Method := turn 1.

(** [InteractiveViewer._update_split_from_x]; the default of the second
    [getattr] is computed whether it is needed or not. *)
Definition _update_split_from_x (x : Z) : Method := fun v w =>
  let draw_x := match _draw_x v with Some d => d | None => 0%Z end in
  match tk_winfo_width T w with
  | (Raise e, w1) => (Raise e, v, w1)
  | (Ok width, w1) =>
      let draw_w := Z.max 1 (match _draw_w v with Some d => d | None => width end) in
      let rel := fdiv (of_int (x - draw_x)) (of_int draw_w) in
      _set_split rel v w1
  end.

(** [InteractiveViewer._on_click] and [_on_drag] *)
Definition _on_click (x : Z) : Method := fun v w =>
  if (mode v =? 2)%Z then
    match tk_winfo_width T w with
    | (Raise e, w1) => (Raise e, v, w1)
    | (Ok width, w1) =>
        if (0 <? width)%Z then _update_split_from_x x v w1 else (Ok tt, v, w1)
    end
  else (Ok tt, v, w).

Definition _on_drag (x : Z) : Method := _on_click x.

(** What the user can do, as [_bind_events] binds it. *)
Inductive gesture : Type :=
| Configure | Button_1 (x : Z) | B1_Motion (x : Z)
| Left | Right | Key_1 | Key_2 | Key_3 | Key_4
| BracketLeft | BracketRight | Comma | Period
| Key_f | Key_F | Key_h | Question.

(** The callback bound to a gesture. *)
Definition callback (g : gesture) : Method := fun v w =>
  match g with
  | Configure => render v w
  | Button_1 x => _on_click x v w
  | B1_Motion x => _on_drag x v w
  | Left => prev v w
  | Right => next v w
  | Key_1 => set_mode 0 v w
  | Key_2 => set_mode 1 v w
  | Key_3 => set_mode 2 v w
  | Key_4 => set_mode 3 v w
  | BracketLeft => _set_alpha (fsub (alpha v) (5 # 100)) v w
  | BracketRight => _set_alpha (fadd (alpha v) (5 # 100)) v w
  | Comma => _set_split (fsub (split v) (5 # 100)) v w
  | Period => _set_split (fadd (split v) (5 # 100)) v w
  | Key_f | Key_F => _toggle_fit v w
  | Key_h | Question => _toggle_help v w
  end.

(** [not directory.exists() or not directory.is_dir()] for each of the
    first two inputs *)
Fixpoint check_directories (directories : list str) : IO unit :=
  match directories with
  | [] => io_ret tt
  | directory :: rest =>
      do! bad := Comparison.not_a_directory G directory in
      if bad then
        io_raise (FileNotFoundError (lit "Input directory not found: " ++ directory))
      else check_directories rest
  end.

(** [InteractiveViewer.__init__], [_load_files] and [_setup_viewer] *)
Definition init (inputs : list str) : IO Viewer :=
  match inputs with
  | dir_a :: dir_b :: more =>
      let dir_diff := match more with d :: _ => Some d | [] => None end in
      check_directories [dir_a; dir_b] ;;;
      do! dir_diff :=
        match dir_diff with
        | Some d =>
            do! there := path_exists G d in
            if negb there then
              log_text WARNING (lit "Diff directory not found: " ++ d) ;;;
              io_ret None
            else io_ret (Some d)
        | None => io_ret None
        end in
      (* _load_files *)
      do! files_a := glob_png G dir_a in
      do! files_b := glob_png G dir_b in
      let names := sorted (both files_a files_b) in
      match names with
      | [] =>
          io_raise (SystemExit (exit_message
            (lit "No matching PNG filenames across the first two inputs")))
      | _ =>
          do! files_diff :=
            match dir_diff with
            | Some d => do! found := glob_png G d in io_ret (keys found)
            | None => io_ret []
            end in
          (* _setup_viewer *)
          tk_open T ;;;
          let v := mkViewer dir_a dir_b dir_diff names files_diff 0 0 (1 # 2) (1 # 2)
                            true true None None in
          fun w => let '(r, v1, w1) := render v w in
                   match r with
                   | Ok _ => (Ok v1, w1)
                   | Raise e => (Raise e, w1)
                   end
      end
  | _ =>
      io_raise (ValueError
        (lit "Interactive viewer requires at least two input directories"))
  end.

(** [InteractiveViewer.run] *)
Definition run (v : Viewer) : IO unit := tk_mainloop T v.
End Methods.

End InteractiveViewer.

(* ================================================================== *)
(** * [src/main.py]: the four modes *)
(* ================================================================== *)

Module MainModes.
Import Py.
Local Open Scope m_scope.

(** The choices of [--mode]. *)
Inductive mode_choice : Type := script | comparison | interactive | stealth.

(** The arguments as [argparse] hands them over: those script mode reads,
    and the others. [inputs] is [None] without [--inputs]. *)
Record Namespace : Type := mkNamespace {
  mode : mode_choice;
  common : Main.Args;
  positional_exe : option str;
  inputs : option (list str);
  delta : Z;
  length : Z
}.

(** [except KeyboardInterrupt: logging.info(message); sys.exit(0)] *)
Definition interruptible (message : string) (body : M unit) : M unit :=
  try_except body
    (fun e => match e with KeyboardInterrupt => true | _ => false end)
    (fun _ => lift (Sys.log INFO message None) >> raise (SystemExit (exit_status 0))).

(** [main] *)
Definition main (IS_LINUX : bool) (B : Backend) (G : Gallery)
           (T : InteractiveViewer.Tk) (fuel : nat) (args : Namespace) : M unit :=
  match mode args with
  | interactive =>
      match inputs args with
      | Some (first :: second :: more) =>
          interruptible "Viewer interrupted by user"
            (let! viewer :=
               lift (InteractiveViewer.init G T (first :: second :: more)) in
             lift (InteractiveViewer.run T viewer))
      | _ =>
          raise (SystemExit (exit_message
            (lit "Interactive mode requires --inputs with 2 (optionally 3) directories")))
      end
  | comparison =>
      match inputs args with
      | Some (first :: more) =>
          match Main.output (common args) with
          | None =>
              raise (SystemExit (exit_message
                (lit "Comparison mode requires an --output directory")))
          | Some output =>
              interruptible "Comparison interrupted by user"
                (lift (Comparison.generate_comparison G (first :: more) output))
          end
      | _ =>
          raise (SystemExit (exit_message
            (lit "Comparison mode requires exactly two --inputs directories")))
      end
  | stealth =>
      let exe :=
        match Main.exe (common args) with
        | Some exe => Some exe
        | None => positional_exe args
        end in
      match exe with
      | None =>
          raise (SystemExit (exit_message
            (lit "Stealth mode requires --exe (or a positional exe path)")))
      | Some exe =>
          let config := Main.config_of (common args) exe in
          interruptible "Stealth capture interrupted by user"
            (AutomationRunner.init B config >>
             AutomationRunner.run_stealth IS_LINUX B config fuel (delta args) (length args))
      end
  | script => Main.main IS_LINUX B fuel (common args)
  end.

End MainModes.

(* ================================================================== *)
(** * [src/platform/x11_automation.py] *)
(* ================================================================== *)

(** [try: m except Exception as e: handler e] *)
Definition io_except {A : Type} (m : IO A) (handler : exn -> IO A) : IO A := fun w =>
  match m w with
  | (Raise e, w1) => if is_Exception e then handler e w1 else (Raise e, w1)
  | ok => ok
  end.

(** What the X server answers. A window is its id. The title and the class
    of a window are what [X11WindowManager._get_window_title] and
    [_get_window_class] return for it. *)
Record Display : Type := mkDisplay {
  root : Z;                                          (* self.root.id *)
  query_tree_children : Z -> IO (list Z);            (* window.query_tree().children *)
  _get_window_title : Z -> IO (option Py.str);
  _get_window_class : Z -> IO (option Py.str);
  send_button_event : bool -> Z -> IO unit           (* send_event(...); sync() *)
}.

(** The programs on the path and the environment. *)
Record Shell : Type := mkShell {
  subprocess_run : list Py.str -> IO Z;              (* subprocess.run(cmd, ...).returncode *)
  environ_get : Py.str -> IO (option Py.str)         (* os.environ.get(name) *)
}.

Module X11.
Import Py.
Local Open Scope io_scope.

(** An entry of the dictionary [windows]. *)
Record WindowInfo : Type := mkWindowInfo {
  info_name : option str;
  info_class : option str;
  info_depth : nat
}.

(** [windows[window_id] = info]: a new key goes last, a known key keeps
    its place. *)
Fixpoint dict_set (window_id : Z) (info : WindowInfo) (windows : list (Z * WindowInfo))
  : list (Z * WindowInfo) :=
  match windows with
  | [] => [(window_id, info)]
  | (k, v) :: rest =>
      if (k =? window_id)%Z then (window_id, info) :: rest
      else (k, v) :: dict_set window_id info rest
  end.

(** A step of the traversal: its outcome, and the dictionary and the world
    it leaves. *)
Definition Walk : Type :=
  list (Z * WindowInfo) -> World -> result unit * list (Z * WindowInfo) * World.

(** [t and pattern.lower() in t.lower()] *)
Definition text_has (pattern : str) (t : option str) : bool :=
  match t with
  | Some (c :: rest) => contains (str_lower pattern) (str_lower (c :: rest))
  | _ => false
  end.

(** [any(sys_win in title.lower() for sys_win in [...])] *)
Definition system_title (title : str) : bool :=
  existsb (fun sys_win => contains sys_win (str_lower title))
    [lit "desktop"; lit "panel"; lit "taskbar"; lit "menu"; lit "system"; lit "root"].

(** [X11Input._get_button_code] *)
Definition _get_button_code (button : str) : option Z :=
  let key := str_lower button in
  if str_eqb key (lit "left") then Some 1%Z
  else if str_eqb key (lit "middle") then Some 2%Z
  else if str_eqb key (lit "right") then Some 3%Z
  else if str_eqb key (lit "4") then Some 4%Z
  else if str_eqb key (lit "5") then Some 5%Z
  else if str_eqb key (lit "6") then Some 6%Z
  else if str_eqb key (lit "7") then Some 7%Z
  else None.

Section Desktop.
Variable D : Display.
Variable Sh : Shell.

(** [traverse_tree] inside [X11WindowManager._get_window_tree]. [depth]
    starts at 0 and the function returns once it is above 10, so that 11
    nested calls do something: [fuel] counts them down. *)
Fixpoint traverse_tree (fuel : nat) (window : Z) (depth : nat) : Walk :=
  fun windows w =>
  match fuel with
  | O => (Ok tt, windows, w)
  | S fuel' =>
      if (10 <? depth)%nat then (Ok tt, windows, w)
      else
        let '(r, windows', w') :=
          match _get_window_title D window w with
          | (Raise e, w1) => (Raise e, windows, w1)
          | (Ok name, w1) =>
              match _get_window_class D window w1 with
              | (Raise e, w2) => (Raise e, windows, w2)
              | (Ok class, w2) =>
                  let windows1 :=
                    dict_set window (mkWindowInfo name class depth) windows in
                  match query_tree_children D window w2 with
                  | (Raise e, w3) => (Raise e, windows1, w3)
                  | (Ok children, w3) =>
                      (fix each (children : list Z) : Walk := fun windows w =>
                         match children with
                         | [] => (Ok tt, windows, w)
                         | child :: rest =>
                             match traverse_tree fuel' child (S depth) windows w with
                             | (Raise e, windows', w') => (Raise e, windows', w')
                             | (Ok _, windows', w') => each rest windows' w'
                             end
                         end) children windows1 w3
                  end
              end
          end in
        match r with
        | Raise e =>
            if is_Exception e then
              (Ok tt, windows',
               emit w' (E_log DEBUG (lit "Error traversing window tree: {e}") (Some e)))
            else (Raise e, windows', w')
        | Ok _ => (Ok tt, windows', w')
        end
  end.

(** [X11WindowManager._get_window_tree] *)
Definition _get_window_tree : IO (list (Z * WindowInfo)) := fun w =>
  let '(r, windows, w') := traverse_tree 11 (root D) 0 [] w in
  match r with
  | Ok _ => (Ok windows, w')
  | Raise e => (Raise e, w')
  end.

(** The loop of [find_window_by_title] over [windows.items()]. *)
Fixpoint first_with_title (title_pattern : str) (windows : list (Z * WindowInfo))
  : IO (option Z) :=
  match windows with
  | [] => io_ret None
  | (window_id, _) :: rest =>
      do! window_title := _get_window_title D window_id in
      do! window_class := _get_window_class D window_id in
      if text_has title_pattern window_title then io_ret (Some window_id)
      else if text_has title_pattern window_class then io_ret (Some window_id)
      else first_with_title title_pattern rest
  end.

(** [X11WindowManager.find_window_by_title] *)
Definition find_window_by_title (title_pattern : str) : IO (option Z) :=
  do! windows := _get_window_tree in first_with_title title_pattern windows.

(** The loop of [find_any_visible_window]. *)
Fixpoint first_visible (windows : list (Z * WindowInfo)) : IO (option Z) :=
  match windows with
  | [] => io_ret None
  | (window_id, _) :: rest =>
      do! window_title := _get_window_title D window_id in
      do! window_class := _get_window_class D window_id in
      if negb (truthy_text window_title) && negb (truthy_text window_class) then
        first_visible rest
      else if truthy_text window_title &&
              system_title (match window_title with Some t => t | None => [] end) then
        first_visible rest
      else if truthy_text window_title || truthy_text window_class then
        Sys.log DEBUG
          "Found candidate window 0x{window_id:x}: title='{window_title}', class='{window_class}'"
          None ;;;
        io_ret (Some window_id)
      else first_visible rest
  end.

(** [X11WindowManager.find_any_visible_window] *)
Definition find_any_visible_window : IO (option Z) :=
  do! windows := _get_window_tree in first_visible windows.

(** [try: result = subprocess.run(cmd, ...); if result.returncode == 0:
    ... except (subprocess.TimeoutExpired, FileNotFoundError): pass]:
    whether the [if] was entered. *)
Definition exits_with_0 (cmd : list str) : IO bool := fun w =>
  match subprocess_run Sh cmd w with
  | (Ok returncode, w1) => (Ok (returncode =? 0)%Z, w1)
  | (Raise TimeoutExpired, w1) => (Ok false, w1)
  | (Raise (FileNotFoundError _), w1) => (Ok false, w1)
  | (Raise e, w1) => (Raise e, w1)
  end.

(** [X11Input.mouse_press] *)
Definition mouse_press (button : str) : IO bool :=
  io_except
    (match _get_button_code button with
     | None => io_ret false
     | Some button_code =>
         do! done := exits_with_0 [lit "xdotool"; lit "mousedown";
                                   Comparison.str_of_int button_code] in
         if done then io_ret true
         else send_button_event D true button_code ;;; io_ret true
     end)
    (fun e =>
       Sys.log ERROR "Error pressing mouse button {button}: {e}" (Some e) ;;;
       io_ret false).

(** [X11Input.mouse_release] *)
Definition mouse_release (button : str) : IO bool :=
  io_except
    (match _get_button_code button with
     | None => io_ret false
     | Some button_code =>
         do! done := exits_with_0 [lit "xdotool"; lit "mouseup";
                                   Comparison.str_of_int button_code] in
         if done then io_ret true
         else send_button_event D false button_code ;;; io_ret true
     end)
    (fun e =>
       Sys.log ERROR "Error releasing mouse button {button}: {e}" (Some e) ;;;
       io_ret false).

(** What [X11Screenshot.capture_screen] does inside its [try]. *)
Definition capture_screen_tools (output_path : str) : IO bool :=
  do! done := exits_with_0 [lit "scrot"; output_path] in
  if done then
    Sys.log DEBUG "Captured screen using scrot: {output_path}" None ;;; io_ret true
  else
    do! done := exits_with_0 [lit "import"; output_path] in
    if done then
      Sys.log DEBUG "Captured screen using import: {output_path}" None ;;; io_ret true
    else
      Sys.log WARNING "No screenshot tool available. Install scrot or ImageMagick." None ;;;
      io_ret false.

(** [X11Screenshot.capture_screen] *)
Definition capture_screen (output_path : str) : IO bool :=
  io_except (capture_screen_tools output_path)
    (fun e => Sys.log ERROR "Error capturing screen: {e}" (Some e) ;;; io_ret false).

(** The loop over [screenshot_tools], which ends at the first tool
    found. *)
Fixpoint which_any (tools : list str) : IO bool :=
  match tools with
  | [] => io_ret false
  | tool :: rest =>
      do! returncode := subprocess_run Sh [lit "which"; tool] in
      if (returncode =? 0)%Z then io_ret true else which_any rest
  end.

(** [check_x11_dependencies] *)
Definition check_x11_dependencies : IO (list str) :=
  do! found_screenshot := which_any [lit "scrot"; lit "import"; lit "xwd"] in
  let missing :=
    if negb found_screenshot
    then [lit "screenshot tool (install scrot, imagemagick, or xwd)"] else [] in
  do! returncode := subprocess_run Sh [lit "which"; lit "xdotool"] in
  let missing :=
    if negb (returncode =? 0)%Z then missing ++ [lit "xdotool"] else missing in
  do! display := environ_get Sh (lit "DISPLAY") in
  let missing :=
    if negb (truthy_text display)
    then missing ++ [lit "DISPLAY environment variable (X11 server not running)"]
    else missing in
  io_ret missing.

(** [setup_linux_environment] *)
Definition setup_linux_environment (IS_LINUX : bool) : IO bool :=
  if negb IS_LINUX then
    Sys.log WARNING "Not running on Linux - X11 features will not be available" None ;;;
    io_ret false
  else
    do! missing := check_x11_dependencies in
    match missing with
    | [] =>
        Sys.log INFO "Linux/X11 environment validated successfully" None ;;;
        io_ret true
    | _ =>
        Sys.log ERROR "Missing required X11 dependencies:" None ;;;
        io_for missing (fun item => log_text ERROR (lit "  - " ++ item)) ;;;
        Sys.log ERROR "Please install missing dependencies and ensure X11 is running"
                None ;;;
        io_ret false
    end.

End Desktop.
End X11.

(* ================================================================== *)
(** * More vocabulary: galleries, modes, gestures *)
(* ================================================================== *)

Module GallerySpec.
Import Py Pathlib.

(** A gallery that does not change while it is read: [dirs] gives the
    names [glob] finds in a directory ([None]: there is no such
    directory), [pics] the image behind a path ([None]: the file is no
    image). Converting changes the mode, a difference has the size and mode
    of its first argument, and saving leaves a frame at the path. *)
Definition still_gallery (dirs : str -> option (list str))
           (pics : str -> option Picture) : Gallery :=
  mkGallery
    (fun d => io_ret (match dirs d with Some _ => true | None => false end))
    (fun d => io_ret (match dirs d with Some _ => true | None => false end))
    (fun d => io_ret (match dirs d with Some found => found | None => [] end))
    (fun p => match pics p with
              | Some pic => io_ret pic
              | None => io_raise (BackendError (lit "cannot identify image file"))
              end)
    (fun pic m => io_ret (mkPicture (size pic) m (content pic)))
    (fun a b => io_ret (mkPicture (size a) (mode a) (content a ++ content b)))
    (fun pic path w => (Ok tt, emit w (E_backend (lit "diff") path))).

(** The messages logged at [lvl], oldest first. *)
Fixpoint messages (lvl : level) (effects : list effect) : list str :=
  match effects with
  | [] => []
  | E_log l msg _ :: rest =>
      match l, lvl with
      | DEBUG, DEBUG | INFO, INFO | WARNING, WARNING | ERROR, ERROR =>
          msg :: messages lvl rest
      | _, _ => messages lvl rest
      end
  | _ :: rest => messages lvl rest
  end.

(** The two frames of [name] can be opened and have the same size. *)
Definition same_size (pics : str -> option Picture) (first_dir second_dir name : str)
  : bool :=
  match pics (joinpath first_dir name), pics (joinpath second_dir name) with
  | Some a, Some b => Comparison.size_eqb (size a) (size b)
  | _, _ => false
  end.

Definition size_text (pics : str -> option Picture) (path : str) : str :=
  match pics path with
  | Some a => Comparison.repr_size (size a)
  | None => []
  end.

(** The three warnings of [generate_comparison]. *)
Definition only_first (name : str) : str :=
  lit "Skipping frame present only in first input: " ++ name.
Definition only_second (name : str) : str :=
  lit "Skipping frame present only in second input: " ++ name.
Definition mismatch (pics : str -> option Picture) (first_dir second_dir name : str)
  : str :=
  lit "Skipping " ++ name ++ lit " due to size mismatch (" ++
  size_text pics (joinpath first_dir name) ++ lit " vs " ++
  size_text pics (joinpath second_dir name) ++ lit ")".

(** [names] in ascending order, no name twice. *)
Fixpoint ascending (names : list str) : Prop :=
  match names with
  | [] => True
  | a :: rest =>
      match rest with
      | [] => True
      | b :: _ => str_leb a b = true /\ a <> b
      end /\ ascending rest
  end.

End GallerySpec.

Module ModesSpec.
Import Py RunnerSpec.

(** A desktop on which the user interrupts the first lookup of the
    window. *)
Definition interrupted_desktop : Backend :=
  mkBackend (io_ok tt)
    (fun _ _ => io_fail KeyboardInterrupt) (fun _ p => io_ok p)
    (fun _ => io_ok (0, 0, 800, 600)%Z) (fun _ _ => io_ok tt) (fun _ => io_ok tt)
    (fun _ _ => io_ok tt) (fun _ _ _ => io_ok tt) (fun _ => io_ok tt)
    (fun _ => io_ok tt) (fun _ => io_ok tt)
    (fun _ => io_fail KeyboardInterrupt) (fun _ => io_fail KeyboardInterrupt)
    (io_fail KeyboardInterrupt)
    (fun _ => io_ok true) (fun _ => io_ok true)
    (fun _ _ => io_ok true) (fun _ => io_ok true)
    (fun _ _ _ => io_ok true) (fun _ => io_ok true) (fun _ => io_ok true)
    (fun _ _ => io_ok true) (fun _ => io_ok true).

(** The arguments of a mode, the others as the command line defaults
    them. *)
Definition namespace (m : MainModes.mode_choice) (common : Main.Args)
  : MainModes.Namespace :=
  MainModes.mkNamespace m common None None 50 5000.

Definition no_args : Main.Args :=
  Main.mkArgs None None None (lit "screenshots") None (3 # 2) 15 10 0 0.

Definition interrupted (message : string) : effect := E_log INFO (lit message) None.

(** A gallery without directories, and a tkinter that does nothing. *)
Definition no_gallery : Gallery := GallerySpec.still_gallery (fun _ => None) (fun _ => None).

Definition idle_tk : InteractiveViewer.Tk :=
  InteractiveViewer.mkTk (io_ok tt) (fun _ => io_ok tt) (io_ok 800%Z)
    (fun _ => io_ok (0, 800)%Z) (fun _ => io_ok tt) (fun _ => io_ok tt).

End ModesSpec.

Module ViewerSpec.
Import Py InteractiveViewer.

(** What every method relies on: there is a current pair of frames, and
    the blend and the split are fractions. *)
Definition in_range (v : Viewer) : Prop :=
  (0 <= index v < Z.of_nat (List.length (names v)))%Z /\
  (0 <= alpha v <= 1)%Q /\ (0 <= split v <= 1)%Q.

Definition viewer_of (r : result unit * Viewer * World) : Viewer := snd (fst r).

(** What [render] leaves alone: everything but where the image was
    drawn. *)
Definition same_settings (v v1 : Viewer) : Prop :=
  dir_a v1 = dir_a v /\ dir_b v1 = dir_b v /\ dir_diff v1 = dir_diff v /\
  names v1 = names v /\ files_diff v1 = files_diff v /\ mode v1 = mode v /\
  index v1 = index v /\ alpha v1 = alpha v /\ split v1 = split v /\
  fit v1 = fit v /\ help_on v1 = help_on v.

(** The directories and the names of the frames are the same. *)
Definition same_frames (v v1 : Viewer) : Prop :=
  names v1 = names v /\ dir_a v1 = dir_a v /\ dir_b v1 = dir_b v /\
  dir_diff v1 = dir_diff v /\ files_diff v1 = files_diff v.

(** A tkinter whose calls all succeed. *)
Definition responsive (T : Tk) : Prop :=
  (forall w, exists w', tk_open T w = (Ok tt, w')) /\
  (forall v w, exists p w', tk_compose T v w = (Ok p, w')) /\
  (forall v w, exists w', tk_paint T v w = (Ok tt, w')).

(** The canvas is on the screen: it says how wide it is, and it is. *)
Definition canvas_shown (T : Tk) : Prop :=
  forall w, exists width w', tk_winfo_width T w = (Ok width, w') /\ (0 < width)%Z.

(** The diff directory the viewer keeps, and the names it finds there. *)
Definition diff_kept (dirs : str -> option (list str)) (more : list str)
  : option str * list str :=
  match more with
  | d :: _ =>
      match dirs d with
      | Some found => (Some d, Pathlib.keys found)
      | None => (None, [])
      end
  | [] => (None, [])
  end.

(** What [__init__] has logged before it looks for the frames. *)
Definition diff_warning (dirs : str -> option (list str)) (more : list str)
  : list effect :=
  match more with
  | d :: _ =>
      match dirs d with
      | Some _ => []
      | None => [E_log WARNING (lit "Diff directory not found: " ++ d) None]
      end
  | [] => []
  end.

End ViewerSpec.

Module ComparisonSpec.
Import Py Pathlib GallerySpec.

(** Where the diff of [name] goes. *)
Definition diff_path (output_dir name : str) : str :=
  joinpath output_dir (Comparison.out_name name).

(** What one turn of the loop over the shared names leaves in the trace. *)
Definition frame_effects (pics : str -> option Picture)
           (first_dir second_dir output_dir name : str) : list effect :=
  if same_size pics first_dir second_dir name then
    [E_backend (lit "diff") (diff_path output_dir name);
     E_log INFO (lit "Wrote diff frame: " ++ diff_path output_dir name) None]
  else [E_log WARNING (mismatch pics first_dir second_dir name) None].

Definition warning (msg : str) : effect := E_log WARNING msg None.

Definition completed (processed : nat) : effect :=
  E_log INFO
    (lit "Completed diff generation for " ++ decimal processed ++ lit " frame(s)") None.

(** Both frames of every name can be opened. *)
Definition readable (pics : str -> option Picture) (first_dir second_dir : str)
           (names : list str) : Prop :=
  forall name, In name names ->
    pics (joinpath first_dir name) <> None /\ pics (joinpath second_dir name) <> None.

End ComparisonSpec.

Module X11Spec.
Import Py.

(** A display that does not change while it is searched and answers every
    question. *)
Definition still_display (top : Z) (kids : Z -> list Z)
           (titles classes : Z -> option str) : Display :=
  mkDisplay top (fun id => io_ret (kids id)) (fun id => io_ret (titles id))
            (fun id => io_ret (classes id)) (fun _ _ => io_ret tt).

(** The windows at most [levels - 1] steps below [window], a window before
    the windows below it, these from first to last. *)
Fixpoint reach (kids : Z -> list Z) (levels : nat) (window : Z) : list Z :=
  match levels with
  | O => []
  | S levels' => window :: flat_map (reach kids levels') (kids window)
  end.

(** The title or the class of the window holds the pattern, in any
    case. *)
Definition named (titles classes : Z -> option str) (pattern : str) (window : Z)
  : bool :=
  X11.text_has pattern (titles window) || X11.text_has pattern (classes window).

(** What [find_any_visible_window] accepts: a window with a title that is
    not one of the desktop's, or one without a title that has a class. *)
Definition candidate (titles classes : Z -> option str) (window : Z) : bool :=
  match titles window with
  | Some (c :: t) => negb (X11.system_title (c :: t))
  | _ => truthy_text (classes window)
  end.

(** The path as [which] sees it, and the environment: [installed] says
    which programs there are, [status] how a command ends. Running a
    command leaves no trace. *)
Definition tools (installed : str -> bool) (status : list str -> Z)
           (display : option str) : Shell :=
  mkShell
    (fun cmd w =>
       match cmd with
       | prog :: args =>
           if negb (installed prog) then (Raise (FileNotFoundError prog), w)
           else if str_eqb prog (lit "which") then
             (Ok (match args with
                  | tool :: _ => if installed tool then 0%Z else 1%Z
                  | [] => 1%Z
                  end), w)
           else (Ok (status cmd), w)
       | [] => (Raise (ValueError (lit "empty command")), w)
       end)
    (fun name w =>
       (Ok (if str_eqb name (lit "DISPLAY") then display else None), w)).

(** The button the Linux replay hands to [mouse_press] and
    [mouse_release]: [event.button or "left"]. *)
Definition button_sent (event : Event) : str :=
  if truthy_text (button event)
  then match button event with Some b => b | None => lit "left" end
  else lit "left".

(** The keys of a dictionary after [d[k] = v]. *)
Definition key_added (k : Z) (ks : list Z) : list Z :=
  if existsb (Z.eqb k) ks then ks else ks ++ [k].

(** What [check_x11_dependencies] misses, in the order it reports it. *)
Definition missing_tools (installed : str -> bool) (display : option str) : list str :=
  (if existsb installed [lit "scrot"; lit "import"; lit "xwd"] then []
   else [lit "screenshot tool (install scrot, imagemagick, or xwd)"]) ++
  (if installed (lit "xdotool") then [] else [lit "xdotool"]) ++
  (if truthy_text display then []
   else [lit "DISPLAY environment variable (X11 server not running)"]).

(** What [setup_linux_environment] logs about them. *)
Definition setup_report (missing : list str) : list effect :=
  match missing with
  | [] => [E_log INFO (lit "Linux/X11 environment validated successfully") None]
  | _ =>
      [E_log ERROR (lit "Missing required X11 dependencies:") None] ++
      map (fun item => E_log ERROR (lit "  - " ++ item) None) missing ++
      [E_log ERROR (lit "Please install missing dependencies and ensure X11 is running")
             None]
  end.

Definition error_logged (template : string) (e : exn) : effect :=
  E_log ERROR (lit template) (Some e).

End X11Spec.

Module LinuxSpec.
Import Py RunnerSpec.

(** An X11 desktop on which no search finds a window. *)
Definition nothing_found (B : Backend) : Prop :=
  (forall title w, find_window_by_title B title w = (Ok None, w)) /\
  (forall pid w, find_windows_by_process B pid w = (Ok [], w)) /\
  (forall w, find_any_visible_window B w = (Ok None, w)).

(** What one pass of the lookup loop of [_wait_for_window_linux] leaves in
    the trace when it finds nothing. *)
Definition pass_effects (config : AutomationConfig) : list effect :=
  (if truthy_text (window_title config)
   then [E_log DEBUG
           (lit "Searching for window with title containing: '{window_title}'") None]
   else []) ++
  [E_log DEBUG (lit "Searching for windows by process ID: {pid}") None] ++
  (if truthy_text (window_title config) then []
   else [E_log DEBUG (lit "Searching for any visible window") None]) ++
  [E_sleep (2 # 10)].

(** The child is there whenever it is looked for. *)
Definition keeps_running (B : Backend) : Prop :=
  forall pid w, is_process_running B pid w = (Ok true, w).

(** The least number of pauses of 0.1 seconds that cover [timeout]. *)
Definition polls (timeout : float) : nat := Z.to_nat (Qceiling (timeout * 10)).

(** The world after one pause of the exit loop. *)
Definition nap (w : World) : World := snd (Sys.sleep (1 # 10) w).

(** The world after one pass of the lookup loop that finds nothing. *)
Definition passed (config : AutomationConfig) (w : World) : World :=
  mkWorld (fadd (now w) (2 # 10)) (files w) (pid w) (exit_at w) (term_delay w)
          (trace w ++ pass_effects config).

Fixpoint passes (config : AutomationConfig) (n : nat) : list effect :=
  match n with
  | O => []
  | S n' => pass_effects config ++ passes config n'
  end.

(** [B] with another answer to [find_any_visible_window]. *)
Definition with_fallback (B : Backend) (any : IO (option Z)) : Backend :=
  mkBackend (platform_init B) (win_locate B) (win_client_to_screen B)
    (win_client_rect B) (win_capture_as_image_save B) (win_close B)
    (pyautogui_screenshot_save B) (pyautogui_moveTo B) (pyautogui_mouseDown B)
    (pyautogui_mouseUp B) (pyautogui_press B)
    (find_window_by_title B) (find_windows_by_process B) any
    (focus_window B) (close_window B)
    (capture_window_tools B) (capture_screen_tools B)
    (move_mouse B) (mouse_press B) (mouse_release B) (send_key_to_window B)
    (is_process_running B).

End LinuxSpec.

(* ================================================================== *)
(** * Properties *)
(* ================================================================== *)

Module ReFacts.
Import Py Re ReSpec.

Lemma consumed_app (pre rest : str) : consumed (pre ++ rest) rest = pre.
Proof.
  unfold consumed. rewrite length_app.
  replace (List.length pre + List.length rest - List.length rest)%nat
    with (List.length pre) by lia.
  rewrite firstn_app, firstn_all, Nat.sub_diag. simpl. apply app_nil_r.
Qed.

Lemma star_k_sound (R : Type) (p : ascii -> bool) (k : str -> option R) :
  forall s x, star_k p s k = Some x ->
  exists pre rest, s = pre ++ rest /\ Forall (fun c => p c = true) pre /\ k rest = Some x.
Proof.
  induction s as [|c s IH]; intros x H; simpl in H.
  - exists [], []. auto.
  - destruct (p c) eqn:Hp.
    + destruct (star_k p s k) as [y|] eqn:Hs.
      * inversion H; subst y.
        destruct (IH x eq_refl) as (pre & rest & -> & Hall & Hk).
        exists (c :: pre), rest. auto.
      * exists [], (c :: s). auto.
    + exists [], (c :: s). auto.
Qed.

Lemma run_sound (R : Type) :
  forall r s c (k : str -> captures -> option R) x,
  exec r s c k = Some x ->
  exists pre rest c', s = pre ++ rest /\ Matches r pre rest c c' /\ k rest c' = Some x.
Proof.
  induction r as [|p|r1 IH1 r2 IH2|r1 IH1 r2 IH2|p|r IH|g r IH|];
    intros s c k x H; simpl in H.
  - exists [], s, c. repeat split; auto. constructor.
  - destruct s as [|ch s]; [discriminate|].
    destruct (p ch) eqn:Hp; [|discriminate].
    exists [ch], s, c. repeat split; auto. now constructor.
  - apply IH1 in H. destruct H as (pre1 & rest1 & c1 & -> & M1 & H).
    apply IH2 in H. destruct H as (pre2 & rest & c2 & -> & M2 & H).
    exists (pre1 ++ pre2), rest, c2. rewrite app_assoc. repeat split; auto.
    econstructor; eauto.
  - destruct (exec r1 s c k) as [y|] eqn:H1.
    + inversion H; subst y. apply IH1 in H1.
      destruct H1 as (pre & rest & c' & -> & M1 & Hk).
      exists pre, rest, c'. repeat split; auto. now apply M_AltL.
    + apply IH2 in H. destruct H as (pre & rest & c' & -> & M2 & Hk).
      exists pre, rest, c'. repeat split; auto. now apply M_AltR.
  - apply star_k_sound in H. destruct H as (pre & rest & -> & Hall & Hk).
    exists pre, rest, c. repeat split; auto. now constructor.
  - destruct (exec r s c k) as [y|] eqn:H1.
    + inversion H; subst y. apply IH in H1.
      destruct H1 as (pre & rest & c' & -> & M1 & Hk).
      exists pre, rest, c'. repeat split; auto. now apply M_OptY.
    + exists [], s, c. repeat split; auto. apply M_OptN.
  - apply IH in H. destruct H as (pre & rest & c' & -> & M1 & Hk).
    rewrite consumed_app in Hk.
    exists pre, rest, ((g, pre) :: c'). repeat split; auto. now constructor.
  - destruct s as [|ch [|ch' s]]; try discriminate.
    + exists [], [], c. repeat split; auto. constructor.
    + destruct (Ascii.eqb ch newline) eqn:E; [|discriminate].
      apply Ascii.eqb_eq in E. subst ch.
      exists [], [newline], c. repeat split; auto. constructor.
Qed.


Ltac inv H := inversion H; subst; clear H.

(** Takes a derivation over a concrete pattern apart, one node at a time. *)
Ltac inv_matches :=
  repeat match goal with
  | H : Matches (Seq _ _) _ _ _ _ |- _ => inv H
  | H : Matches (Grp _ _) _ _ _ _ |- _ => inv H
  | H : Matches (Cls _) _ _ _ _ |- _ => inv H
  | H : Matches (Star _) _ _ _ _ |- _ => inv H
  | H : Matches Eps _ _ _ _ |- _ => inv H
  | H : Matches Eos _ _ _ _ |- _ => inv H
  | H : Matches (Alt _ _) _ _ _ _ |- _ => inv H
  | H : Matches (Opt _) _ _ _ _ |- _ => inv H
  end.

Lemma re_match_sound r s m :
  re_match r s = Some m ->
  exists pre rest, s = pre ++ rest /\ Matches r pre rest [] m.
Proof.
  unfold re_match. intros H. apply run_sound in H.
  destruct H as (pre & rest & c' & -> & HM & Hk). inversion Hk; subst.
  eauto.
Qed.

Lemma re_search_sound r : forall s m,
  re_search r s = Some m -> exists skipped t, s = skipped ++ t /\ re_match r t = Some m.
Proof.
  induction s as [|ch s IH]; intros m H; simpl in H.
  - destruct (re_match r []) eqn:E; [|discriminate].
    inversion H; subst. exists [], []. auto.
  - destruct (re_match r (ch :: s)) eqn:E.
    + inversion H; subst. exists [], (ch :: s). auto.
    + apply IH in H. destruct H as (sk & t & -> & Ht).
      exists (ch :: sk), t. auto.
Qed.

End ReFacts.

Module TextFacts.
Import Py ReSpec.

Lemma forallb_all_true p s : forallb p s = true <-> all_true p s.
Proof. unfold all_true. rewrite forallb_forall, Forall_forall. tauto. Qed.

Lemma digit_not_dot c : is_digit c = true -> Ascii.eqb c "."%char = false.
Proof.
  intros H. destruct (Ascii.eqb c ".") eqn:E; auto.
  apply Ascii.eqb_eq in E. subst c. discriminate H.
Qed.

Lemma digit_not_minus c : is_digit c = true -> Ascii.eqb c "-"%char = false.
Proof.
  intros H. destruct (Ascii.eqb c "-") eqn:E; auto.
  apply Ascii.eqb_eq in E. subst c. discriminate H.
Qed.

Lemma split_at_dot_digits ip :
  all_true is_digit ip -> split_at_dot ip = (ip, None).
Proof.
  induction 1 as [|c ip Hc _ IH]; simpl; auto.
  now rewrite (digit_not_dot _ Hc), IH.
Qed.

Lemma split_at_dot_point ip fr :
  all_true is_digit ip -> split_at_dot (ip ++ "."%char :: fr) = (ip, Some fr).
Proof.
  induction 1 as [|c ip Hc _ IH]; simpl; auto.
  now rewrite (digit_not_dot _ Hc), IH.
Qed.

Lemma all_digits_intro c s : all_true is_digit (c :: s) -> all_digits (c :: s) = true.
Proof. intros H. unfold all_digits. now apply forallb_all_true. Qed.

Lemma float_of_unsigned s :
  unsigned_decimal s -> exists q, float_of_str s = Some q.
Proof.
  intros [c ip H | c ip d fr H1 H2]; unfold float_of_str.
  - assert (Hc : is_digit c = true) by now inversion H.
    simpl app. cbv iota beta. rewrite (digit_not_minus _ Hc).
    rewrite (split_at_dot_digits H), (all_digits_intro H). eauto.
  - assert (Hc : is_digit c = true) by now inversion H1.
    change ((c :: ip) ++ "."%char :: d :: fr) with (c :: (ip ++ "."%char :: d :: fr)).
    cbv iota beta. rewrite (digit_not_minus _ Hc).
    change (c :: (ip ++ "."%char :: d :: fr)) with ((c :: ip) ++ "."%char :: d :: fr).
    rewrite (split_at_dot_point _ H1), (all_digits_intro H1), (all_digits_intro H2). eauto.
Qed.

Lemma float_of_signed s :
  unsigned_decimal s -> exists q, float_of_str ("-"%char :: s) = Some q.
Proof.
  intros [c ip H | c ip d fr H1 H2]; unfold float_of_str; cbv iota beta;
    change (Ascii.eqb "-" "-") with true; cbv iota.
  - rewrite (split_at_dot_digits H), (all_digits_intro H). eauto.
  - rewrite (split_at_dot_point _ H1), (all_digits_intro H1), (all_digits_intro H2). eauto.
Qed.

End TextFacts.

Module ParserFacts.
Import Py Re ReSpec ScriptParser ReFacts TextFacts TranscriptSpec.

Ltac inv_seq :=
  match goal with H : Matches (Seq _ _) _ _ _ _ |- _ => inv H end.
Ltac inv_grp :=
  match goal with H : Matches (Grp _ _) _ _ _ _ |- _ => inv H end.

Lemma Matches_unsigned pre rest c c' :
  Matches (Plus is_digit ;; Opt (chr "." ;; Plus is_digit))%re pre rest c c' ->
  c' = c /\ unsigned_decimal pre.
Proof.
  unfold Plus, chr. intros H. inv_matches.
  - split; auto.
    match goal with |- unsigned_decimal (([?a] ++ ?p) ++ [?d] ++ [?e] ++ ?q) =>
      change (unsigned_decimal ((a :: p) ++ d :: e :: q)) end.
    match goal with H : Ascii.eqb "." _ = true |- _ => apply Ascii.eqb_eq in H; subst end.
    apply ud_frac; constructor; auto.
  - split; auto. rewrite app_nil_r. simpl. apply ud_int. constructor; auto.
Qed.

Ltac use_unsigned :=
  match goal with
  | H : Matches (Seq (Plus is_digit) _) _ _ _ _ |- _ =>
      apply Matches_unsigned in H; let Hu := fresh "Hu" in destruct H as [-> Hu]
  end.

Lemma Matches_number pre rest c c' :
  Matches number pre rest c c' -> c' = c /\ exists q, float_of_str pre = Some q.
Proof.
  unfold number. intros H. inv_seq. use_unsigned.
  match goal with H : Matches (Opt _) _ _ _ _ |- _ => inv H end.
  - unfold chr in *. inv_matches.
    match goal with H : Ascii.eqb "-" _ = true |- _ => apply Ascii.eqb_eq in H; subst end.
    split; auto. simpl. now apply float_of_signed.
  - split; auto. simpl. now apply float_of_unsigned.
Qed.

Lemma delta_groups line m :
  re_match DELTA_RE line = Some m ->
  exists ts body q,
    m = [(g_body, body); (g_delta, ts)] /\ float_of_str ts = Some q.
Proof.
  intros H. apply re_match_sound in H. destruct H as (pre & rest & -> & H).
  unfold DELTA_RE in H.
  do 3 inv_seq. inv_seq. inv_grp. use_unsigned.
  destruct (float_of_unsigned Hu) as [q Hq].
  unfold chr, Plus in *. inv_matches; eauto.
Qed.


Lemma mouse_groups body m :
  re_match MOUSE_RE body = Some m ->
  exists st b details,
    m = [(g_details, details); (g_button, [b]); (g_state, st)] /\ cls_LR b = true.
Proof.
  intros H. apply re_match_sound in H. destruct H as (pre & rest & -> & H).
  cbv [MOUSE_RE word_i lit list_ascii_of_string Plus chr chr_i] in H.
  inv_matches; eauto.
Qed.

Lemma key_groups body m :
  re_match KEY_RE body = Some m ->
  exists st k details,
    m = [(g_details, details); (g_key, [k]); (g_state, st)] /\ cls_AZ09 k = true.
Proof.
  intros H. apply re_match_sound in H. destruct H as (pre & rest & -> & H).
  cbv [KEY_RE word_i lit list_ascii_of_string Plus chr chr_i] in H.
  inv_matches; eauto.
Qed.

Ltac use_number :=
  repeat match goal with
  | H : Matches number _ _ _ _ |- _ =>
      apply Matches_number in H;
      let q := fresh "q" in let Hq := fresh "Hq" in destruct H as [-> [q Hq]]
  end.

Lemma window_groups details m :
  re_search WINDOW_RE details = Some m ->
  exists x y qx qy,
    m = [(g_y, y); (g_x, x)] /\ float_of_str x = Some qx /\ float_of_str y = Some qy.
Proof.
  intros H. apply re_search_sound in H. destruct H as (sk & t & -> & H).
  apply re_match_sound in H. destruct H as (pre & rest & -> & H).
  cbv [WINDOW_RE word_i lit list_ascii_of_string chr chr_i] in H.
  repeat first [inv_seq | inv_grp]. use_number. inv_matches. eauto 10.
Qed.

Lemma world_groups details m :
  re_search WORLD_RE details = Some m ->
  exists x y qx qy,
    m = [(g_y, y); (g_x, x)] /\ float_of_str x = Some qx /\ float_of_str y = Some qy.
Proof.
  intros H. apply re_search_sound in H. destruct H as (sk & t & -> & H).
  apply re_match_sound in H. destruct H as (pre & rest & -> & H).
  cbv [WORLD_RE word_i lit list_ascii_of_string chr chr_i] in H.
  repeat first [inv_seq | inv_grp]. use_number. inv_matches. eauto 10.
Qed.

Lemma parse_window_total details : exists p, _parse_window details = Ok p.
Proof.
  unfold _parse_window. destruct (re_search WINDOW_RE details) as [m|] eqn:E; eauto.
  apply window_groups in E. destruct E as (x & y & qx & qy & -> & Hx & Hy).
  unfold group_text, to_float. simpl. rewrite Hx. simpl. rewrite Hy. simpl. eauto.
Qed.

Lemma parse_world_total details : exists p, _parse_world details = Ok p.
Proof.
  unfold _parse_world. destruct (re_search WORLD_RE details) as [m|] eqn:E; eauto.
  apply world_groups in E. destruct E as (x & y & qx & qy & -> & Hx & Hy).
  unfold group_text, to_float. simpl. rewrite Hx. simpl. rewrite Hy. simpl. eauto.
Qed.

(** The button group is one of l, r, L, R, so its capital is L or R. *)
Lemma button_letter b :
  cls_LR b = true ->
  (str_upper [b] = lit "L" \/ str_upper [b] = lit "R").
Proof.
  destruct b as [[] [] [] [] [] [] [] []]; intros H; try discriminate H;
    vm_compute; auto.
Qed.


Lemma body_of_none line : body_of line = None -> re_match DELTA_RE line = None.
Proof.
  unfold body_of. destruct (re_match DELTA_RE line) as [m|] eqn:E; auto.
  apply delta_groups in E. destruct E as (ts & body & q & -> & _). discriminate.
Qed.

Lemma parse_line_no_stamp line idx :
  re_match DELTA_RE line = None ->
  _parse_line line idx =
  Raise (ValueError (lit "Could not parse timestamp in line: " ++ line)).
Proof. intros H. unfold _parse_line. now rewrite H. Qed.

(** The mouse branch cannot reach its [raise]. *)
Lemma parse_line_mouse line idx ts q body m mm :
  re_match DELTA_RE line = Some m ->
  m = [(g_body, body); (g_delta, ts)] -> float_of_str ts = Some q ->
  re_match MOUSE_RE body = Some mm ->
  exists st b details wp wd,
    mm = [(g_details, details); (g_button, [b]); (g_state, st)] /\
    cls_LR b = true /\
    _parse_line line idx =
    Ok (mkEvent idx q 0
          (if str_eqb (str_lower st) (lit "pressed")
           then lit "mouse_press" else lit "mouse_release")
          (Some (if str_eqb (str_upper [b]) (lit "L") then lit "left" else lit "right"))
          wp wd line).
Proof.
  intros Hm -> Hq Hmm.
  destruct (mouse_groups _ Hmm) as (st & b & details & -> & Hb).
  destruct (parse_window_total details) as [wp Hwp].
  destruct (parse_world_total details) as [wd Hwd].
  exists st, b, details, wp, wd. repeat split; auto.
  unfold _parse_line. rewrite Hm. unfold group_text, to_float. simpl lookup.
  cbv beta iota. simpl bind_result at 1. rewrite Hq. simpl bind_result at 1.
  simpl bind_result at 1. rewrite Hmm. simpl.
  rewrite Hwp, Hwd. simpl.
  destruct (button_letter _ Hb) as [E|E]; injection E as E; rewrite E; reflexivity.
Qed.

Lemma parse_line_exit line idx ts q body m :
  re_match DELTA_RE line = Some m ->
  m = [(g_body, body); (g_delta, ts)] -> float_of_str ts = Some q ->
  re_match MOUSE_RE body = None -> re_match KEY_RE body = None ->
  exit_form body = true ->
  _parse_line line idx = Ok (mkEvent idx q 0 (lit "exit") None None None line).
Proof.
  intros Hm -> Hq Hmouse Hkey Hexit.
  unfold _parse_line. rewrite Hm. unfold group_text, to_float. simpl lookup.
  cbv beta iota. simpl bind_result at 1. rewrite Hq. simpl bind_result at 1.
  simpl bind_result at 1. rewrite Hmouse, Hkey.
  unfold exit_form in Hexit. simpl in Hexit |- *. now rewrite Hexit.
Qed.

Lemma parse_line_accepts line idx body :
  body_of line = Some body ->
  mouse_form body || key_form body || exit_form body = true ->
  exists e, _parse_line line idx = Ok e.
Proof.
  unfold body_of. destruct (re_match DELTA_RE line) as [m|] eqn:Hm; [|discriminate].
  destruct (delta_groups _ Hm) as (ts & body' & q & E & Hq). subst m.
  simpl. intros [= <-] Hform.
  destruct (re_match MOUSE_RE body') as [mm|] eqn:Hmouse.
  - destruct (parse_line_mouse line idx Hm eq_refl Hq Hmouse)
      as (st & b & details & wp & wd & _ & _ & ->). eauto.
  - unfold mouse_form, matched in Hform. rewrite Hmouse in Hform. simpl in Hform.
    unfold _parse_line. rewrite Hm. unfold group_text, to_float. simpl lookup.
    cbv beta iota. simpl bind_result at 1. rewrite Hq. simpl bind_result at 1.
    simpl bind_result at 1. rewrite Hmouse.
    destruct (re_match KEY_RE body') as [km|] eqn:Hkey.
    + destruct (key_groups _ Hkey) as (st & k & details & -> & _). simpl. eauto.
    + unfold key_form, matched in Hform. rewrite Hkey in Hform. simpl in Hform.
      unfold exit_form in Hform. simpl in Hform |- *. rewrite Hform. eauto.
Qed.

Lemma parse_line_rejects line idx body :
  body_of line = Some body ->
  mouse_form body || key_form body || exit_form body = false ->
  _parse_line line idx = Raise (ValueError (lit "Unsupported event line: " ++ line)).
Proof.
  unfold body_of. destruct (re_match DELTA_RE line) as [m|] eqn:Hm; [|discriminate].
  destruct (delta_groups _ Hm) as (ts & body' & q & E & Hq). subst m.
  simpl. intros [= <-] Hform.
  apply orb_false_elim in Hform. destruct Hform as [Hform Hexit].
  apply orb_false_elim in Hform. destruct Hform as [Hmouse Hkey].
  unfold mouse_form, key_form, matched in *.
  destruct (re_match MOUSE_RE body') eqn:E1; [discriminate|].
  destruct (re_match KEY_RE body') eqn:E2; [discriminate|].
  unfold _parse_line. rewrite Hm. unfold group_text, to_float. simpl lookup.
  cbv beta iota. simpl bind_result at 1. rewrite Hq. simpl bind_result at 1.
  simpl bind_result at 1. rewrite E1, E2.
  unfold exit_form in Hexit. simpl in Hexit |- *. now rewrite Hexit.
Qed.

(** What [_parse_line] raises on a non-blank malformed line, and that it
    raises nothing on any other. *)
Lemma parse_line_malformed raw_line idx :
  malformed raw_line = true ->
  _parse_line (strip raw_line) idx = Raise (error_of raw_line).
Proof.
  unfold malformed, error_of. intros H. apply andb_true_iff in H. destruct H as [_ H].
  destruct (body_of (strip raw_line)) as [body|] eqn:Hb.
  - rewrite (parse_line_rejects _ idx Hb) by now apply negb_true_iff.
    unfold body_of in Hb. unfold matched.
    destruct (re_match DELTA_RE (strip raw_line)); [reflexivity|discriminate].
  - apply body_of_none in Hb. unfold matched. rewrite Hb.
    now apply parse_line_no_stamp.
Qed.

Lemma parse_line_wellformed raw_line idx :
  blank raw_line = false -> malformed raw_line = false ->
  exists e, _parse_line (strip raw_line) idx = Ok e.
Proof.
  unfold malformed. intros -> H. simpl in H.
  destruct (body_of (strip raw_line)) as [body|] eqn:Hb; [|discriminate].
  apply negb_false_iff in H. eapply parse_line_accepts; eauto.
Qed.

Lemma bind_result_ok (A B : Type) (r : result A) (k : A -> result B) b :
  bind_result r k = Ok b -> exists a, r = Ok a /\ k a = Ok b.
Proof. destruct r; simpl; intros H; [eauto|discriminate]. Qed.

(** The fields [_parse_line] sets from its arguments. *)
Lemma parse_line_fields line idx e :
  _parse_line line idx = Ok e -> index e = idx /\ raw e = line /\ delta e = 0%Q.
Proof.
  unfold _parse_line. intros H.
  destruct (re_match DELTA_RE line); [|discriminate].
  repeat match goal with
  | H : bind_result _ _ = Ok _ |- _ =>
      apply bind_result_ok in H; let a := fresh "a" in destruct H as (a & _ & H)
  | H : match ?x with _ => _ end = Ok _ |- _ => destruct x; try discriminate H
  | H : (if ?x then _ else _) = Ok _ |- _ => destruct x; try discriminate H
  end;
  inversion H; subst; simpl; auto.
Qed.

End ParserFacts.

Module ParserTheorems.
Import Py Re ReSpec ScriptParser ReFacts TextFacts TranscriptSpec ParserFacts.

(** ** Deltas *)

Lemma clamp_nonneg d : (0 <= clamp d)%Q.
Proof.
  unfold clamp, fltb. destruct (Qle_bool 0 d) eqn:E; simpl.
  - now apply Qle_bool_iff.
  - apply Qle_refl.
Qed.

Lemma assign_from_nth : forall events prev k,
  nth_error (assign_from prev events) k =
  match nth_error events k with
  | Some e =>
      Some (set_delta e
              (clamp (fsub (timestamp e)
                           (match k with
                            | O => prev
                            | S j => prev_timestamp events k
                            end))))
  | None => None
  end.
Proof.
  induction events as [|e0 events IH]; intros prev k.
  - destruct k; reflexivity.
  - destruct k as [|k]; simpl; [reflexivity|].
    rewrite IH. destruct (nth_error events k) as [e|] eqn:E; [|reflexivity].
    destruct k as [|k]; simpl; [reflexivity|].
    reflexivity.
Qed.

Lemma assign_deltas_nth events k :
  nth_error (_assign_deltas events) k =
  match nth_error events k with
  | Some e => Some (set_delta e (clamp (fsub (timestamp e) (prev_timestamp events k))))
  | None => None
  end.
Proof.
  destruct events as [|e0 events].
  - destruct k; reflexivity.
  - unfold _assign_deltas. rewrite assign_from_nth.
    destruct (nth_error (e0 :: events) k); [|reflexivity].
    destruct k; reflexivity.
Qed.

Lemma assign_deltas_length events :
  List.length (_assign_deltas events) = List.length events.
Proof.
  destruct events as [|e0 events]; [reflexivity|]. unfold _assign_deltas.
  generalize (e0 :: events) as l, 0%Q. induction l; intros; simpl; auto.
Qed.

Lemma prev_timestamp_assign events k :
  prev_timestamp (_assign_deltas events) k = prev_timestamp events k.
Proof.
  destruct k as [|j]; [reflexivity|]. simpl. rewrite assign_deltas_nth.
  destruct (nth_error events j); reflexivity.
Qed.

Lemma parse_ok lines events :
  parse lines = Ok events ->
  exists parsed, parse_lines lines [] = Ok parsed /\ events = _assign_deltas parsed.
Proof.
  unfold parse. destruct (parse_lines lines []) as [parsed|]; simpl; [|discriminate].
  intros [= <-]. eauto.
Qed.



(** ** Indices *)

Lemma parse_lines_spec : forall lines acc events,
  parse_lines lines acc = Ok events ->
  exists new,
    events = acc ++ new /\
    List.length new = List.length (filter nonblank lines) /\
    forall k e, nth_error new k = Some e ->
      index e = Z.of_nat (List.length acc + k) /\
      exists raw_line,
        nth_error (filter nonblank lines) k = Some raw_line /\ raw e = strip raw_line.
Proof.
  induction lines as [|raw_line lines IH]; intros acc events H; simpl in H.
  - inversion H; subst. exists []. rewrite app_nil_r.
    split; [reflexivity|]. split; [reflexivity|].
    intros [|k] e Hk; discriminate.
  - unfold nonblank at 1 2, blank. simpl filter.
    destruct (strip raw_line) as [|c line] eqn:Hs.
    + simpl. apply IH in H. exact H.
    + simpl. destruct (_parse_line (c :: line) (Z.of_nat (List.length acc))) as [e0|]
        eqn:Hl; simpl in H; [|discriminate].
      apply IH in H. destruct H as (new & -> & Hlen & Hnth).
      exists (e0 :: new). rewrite <- app_assoc.
      split; [reflexivity|]. split; [simpl; now rewrite Hlen|].
      apply parse_line_fields in Hl. destruct Hl as (Hi & Hr & _).
      intros [|k] e Hk; simpl in Hk.
      * inversion Hk; subst e0. rewrite Hi, Nat.add_0_r. split; [reflexivity|].
        exists raw_line. simpl. now rewrite Hs.
      * apply Hnth in Hk. destruct Hk as [Hk Hraw]. split; [|exact Hraw].
        rewrite Hk, length_app. simpl. f_equal. lia.
Qed.

Lemma parse_lines_skips_blank : forall lines acc,
  parse_lines (filter nonblank lines) acc = parse_lines lines acc.
Proof.
  induction lines as [|raw_line lines IH]; intros acc; [reflexivity|].
  simpl. unfold nonblank at 1, blank.
  destruct (strip raw_line) as [|c line] eqn:Hs; simpl.
  - apply IH.
  - rewrite Hs. destruct (_parse_line _ _); simpl; auto.
Qed.



(** ** Malformed lines *)

Lemma parse_lines_aborts : forall lines acc raw_line,
  find malformed lines = Some raw_line ->
  parse_lines lines acc = Raise (error_of raw_line).
Proof.
  induction lines as [|l lines IH]; intros acc raw_line H; simpl in H; [discriminate|].
  simpl. destruct (malformed l) eqn:Hm.
  - inversion H; subst l.
    assert (Hb : blank raw_line = false).
    { unfold malformed in Hm. apply andb_true_iff in Hm. now apply negb_true_iff. }
    pose proof (parse_line_malformed raw_line (Z.of_nat (List.length acc)) Hm) as He.
    unfold blank in Hb. destruct (strip raw_line) as [|c line]; [discriminate|].
    now rewrite He.
  - destruct (blank l) eqn:Hb.
    + unfold blank in Hb. destruct (strip l); [|discriminate]. now apply IH.
    + destruct (parse_line_wellformed l (Z.of_nat (List.length acc)) Hb Hm) as [e He].
      unfold blank in Hb. destruct (strip l) as [|c line]; [discriminate|].
      rewrite He. simpl. now apply IH.
Qed.



End ParserTheorems.

(** ** Running a pattern on a text that is known in part *)

Module ReEval.
Import Py Re ReSpec ReFacts TranscriptSpec.

Section Steps.
Variable R : Type.
Implicit Types (k : str -> captures -> option R) (c : captures) (s : str).

Lemma run_seq r1 r2 s c k :
  exec (r1 ;; r2) s c k = exec r1 s c (fun s1 c1 => exec r2 s1 c1 k).
Proof. reflexivity. Qed.

Lemma run_grp g r s c k :
  exec (Grp g r) s c k = exec r s c (fun s' c' => k s' ((g, consumed s s') :: c')).
Proof. reflexivity. Qed.

Lemma run_cls_hit p a s c k : p a = true -> exec (Cls p) (a :: s) c k = k s c.
Proof. intros H. simpl. now rewrite H. Qed.

Lemma run_cls_miss p a s c k : p a = false -> exec (Cls p) (a :: s) c k = None.
Proof. intros H. simpl. now rewrite H. Qed.

Lemma run_chr_hit a s c k : exec (chr a) (a :: s) c k = k s c.
Proof. apply run_cls_hit. apply Ascii.eqb_refl. Qed.

Lemma run_word w s c k : exec (word_i w) (w ++ s) c k = k s c.
Proof.
  revert c k. induction w as [|a w IH]; intros c k; [reflexivity|].
  simpl word_i. rewrite run_seq. simpl app. unfold chr_i.
  rewrite run_cls_hit by apply Ascii.eqb_refl. apply IH.
Qed.

Lemma star_k_greedy p (k : str -> option R) pre rest x :
  all_true p pre -> stops p rest -> k rest = Some x ->
  star_k p (pre ++ rest) k = Some x.
Proof.
  intros Hpre Hrest Hk. induction Hpre as [|a pre Ha _ IH]; simpl.
  - destruct rest as [|a rest]; simpl in *; auto. now rewrite Hrest.
  - now rewrite Ha, IH.
Qed.

(** A exec of [p] after which nothing the continuation needs can start. *)
Lemma star_k_none p (q : ascii -> bool) (k : str -> option R) pre rest :
  all_true p pre -> stops p rest ->
  (forall a, p a = true -> q a = false) -> stops q rest ->
  (forall a s, q a = false -> k (a :: s) = None) -> k [] = None ->
  star_k p (pre ++ rest) k = None.
Proof.
  intros Hpre Hrest Hpq Hq Hk Hnil.
  assert (Hr : k rest = None).
  { destruct rest as [|a rest]; auto. }
  induction Hpre as [|a pre Ha _ IH]; simpl.
  - destruct rest as [|a rest]; simpl in *; auto. now rewrite Hrest.
  - rewrite Ha, IH. apply Hk. now apply Hpq.
Qed.

Lemma run_star_greedy p pre rest c k x :
  all_true p pre -> stops p rest -> k rest c = Some x ->
  exec (Star p) (pre ++ rest) c k = Some x.
Proof. intros. simpl. now apply star_k_greedy. Qed.

Lemma run_plus_greedy p a pre rest c k x :
  all_true p (a :: pre) -> stops p rest -> k rest c = Some x ->
  exec (Plus p) ((a :: pre) ++ rest) c k = Some x.
Proof.
  intros H Hrest Hk. inversion H; subst. unfold Plus. rewrite run_seq.
  simpl app. rewrite run_cls_hit by assumption. now apply run_star_greedy.
Qed.

Lemma run_alt r1 r2 s c k :
  exec (Alt r1 r2) s c k =
  match exec r1 s c k with Some x => Some x | None => exec r2 s c k end.
Proof. reflexivity. Qed.

Lemma run_opt_miss r s c k : exec r s c k = None -> exec (Opt r) s c k = k s c.
Proof. intros H. simpl. now rewrite H. Qed.

Lemma run_opt_hit r s c k x : exec r s c k = Some x -> exec (Opt r) s c k = Some x.
Proof. intros H. simpl. now rewrite H. Qed.

(** [\d+(?:\.\d+)?] in front of a character that is neither a digit nor
    a point. *)
Lemma run_unsigned text a rest c k x :
  unsigned_decimal text -> is_digit a = false -> Ascii.eqb "." a = false ->
  k (a :: rest) c = Some x ->
  exec (Plus is_digit ;; Opt (chr "." ;; Plus is_digit)) (text ++ a :: rest) c k = Some x.
Proof.
  intros Hu Ha Hdot Hk. rewrite run_seq.
  destruct Hu as [d ip H | d ip d' fr H1 H2].
  - apply run_plus_greedy; [assumption|exact Ha|].
    rewrite run_opt_miss; [assumption|].
    rewrite run_seq. now apply run_cls_miss.
  - rewrite <- app_assoc. apply run_plus_greedy; [assumption|reflexivity|].
    apply run_opt_hit. simpl app. rewrite run_seq, run_chr_hit.
    change (d' :: fr ++ a :: rest) with ((d' :: fr) ++ a :: rest).
    now apply run_plus_greedy.
Qed.
End Steps.

Lemma consumed_suffix (s pre rest : str) : s = pre ++ rest -> consumed s rest = pre.
Proof. intros ->. apply consumed_app. Qed.

End ReEval.

Module MouseLines.
Import Py Re ReSpec ScriptParser ReFacts TextFacts TranscriptSpec ParserFacts ReEval.

(** The timestamp pattern on a line of the grammar. *)
Lemma delta_match ws0 seconds ws1 ws2 b body :
  all_true isspace ws0 -> unsigned_decimal seconds ->
  all_true isspace ws1 -> all_true isspace ws2 ->
  isspace b = false -> all_true not_newline (b :: body) ->
  re_match DELTA_RE (stamped ws0 seconds ws1 ws2 (b :: body)) =
  Some [(g_body, b :: body); (g_delta, seconds)].
Proof.
  intros H0 Hs H1 H2 Hb Hbody.
  unfold re_match, DELTA_RE, stamped.
  rewrite run_seq, run_chr_hit.
  rewrite run_seq. apply run_star_greedy; [assumption|reflexivity|]. cbv beta.
  rewrite run_seq, run_chr_hit.
  rewrite run_seq, run_grp. apply run_unsigned; [assumption|reflexivity|reflexivity|].
  rewrite consumed_app.
  rewrite run_seq, run_chr_hit.
  rewrite run_seq. apply run_star_greedy; [assumption|reflexivity|]. cbv beta.
  rewrite run_seq, run_chr_hit.
  rewrite run_seq. apply run_star_greedy; [assumption|exact Hb|]. cbv beta.
  rewrite run_seq, run_grp.
  rewrite <- (app_nil_r (b :: body)) at 1.
  apply run_plus_greedy; [assumption|exact I|].
  rewrite (@consumed_suffix _ (b :: body) []) by (symmetry; apply app_nil_r).
  reflexivity.
Qed.

Lemma LR_not_space a : isspace a = true -> cls_LR a = false.
Proof.
  destruct a as [[] [] [] [] [] [] [] []]; intros H; try discriminate H; reflexivity.
Qed.

(** [\s*(?P<details>.+)] on what follows the colon. *)
Lemma tail_match caps tail :
  tail <> [] -> all_true not_newline tail ->
  exists details,
    exec (Star isspace ;; Grp g_details (Plus not_newline)) tail caps
        (fun _ c => Some c) =
    Some ((g_details, details) :: caps).
Proof.
  intros Hne Hall. rewrite run_seq.
  set (K := fun s' : str =>
              exec (Grp g_details (Plus not_newline)) s' caps (fun _ c => Some c)).
  change (exists details, star_k isspace tail K = Some ((g_details, details) :: caps)).
  assert (HK : forall a s, all_true not_newline (a :: s) ->
                 exists details, K (a :: s) = Some ((g_details, details) :: caps)).
  { intros a s H. exists (a :: s). unfold K. rewrite run_grp.
    pose proof (@run_plus_greedy captures not_newline a s [] caps
                  (fun s' c' => Some ((g_details, consumed (a :: s) s') :: c'))
                  ((g_details, a :: s) :: caps) H I) as E.
    rewrite app_nil_r in E. apply E.
    rewrite (@consumed_suffix _ (a :: s) []) by (symmetry; apply app_nil_r).
    reflexivity. }
  induction tail as [|a s IH]; [congruence|].
  cbn [star_k]. destruct (isspace a).
  - destruct s as [|a' s].
    + cbn [star_k]. replace (K []) with (@None captures) by reflexivity.
      apply HK. assumption.
    + destruct IH as [details ->]; [discriminate|now inversion Hall|]. eauto.
  - apply HK. assumption.
Qed.

(** The mouse pattern on a body of the grammar whose letter is in the
    class. *)
Lemma mouse_match pressed w ws letter tail :
  all_true isspace (w :: ws) -> cls_LR letter = true ->
  tail <> [] -> all_true not_newline tail ->
  exists details,
    re_match MOUSE_RE (mouse_body pressed (w :: ws) letter tail) =
    Some [(g_details, details); (g_button, [letter]); (g_state, state_text pressed)].
Proof.
  intros Hws Hl Hne Hall.
  assert (Hsp : isspace letter = false).
  { destruct (isspace letter) eqn:E; auto. apply LR_not_space in E. congruence. }
  destruct (tail_match [(g_button, [letter]); (g_state, state_text pressed)] Hne Hall)
    as [details Ht].
  exists details. unfold re_match, MOUSE_RE, mouse_body, state_text at 1.
  rewrite run_seq, run_word, run_seq, run_grp.
  assert (Hrest : forall st x,
    exec (Star isspace;; Grp g_details (Plus not_newline)) tail
      [(g_button, [letter]); (g_state, st)] (fun _ c => Some c) = Some x ->
    exec (Plus isspace;; Grp g_button (Cls cls_LR);; chr_i ":";; Star isspace;;
         Grp g_details (Plus not_newline))
      ((w :: ws) ++ letter :: ":"%char :: tail) [(g_state, st)]
      (fun _ c => Some c) = Some x).
  { intros st x Hx. rewrite run_seq.
    apply run_plus_greedy; [assumption|exact Hsp|].
    rewrite run_seq, run_grp, run_cls_hit by assumption.
    rewrite (@consumed_suffix _ [letter] (":"%char :: tail)) by reflexivity.
    rewrite run_seq. unfold chr_i. rewrite run_cls_hit by reflexivity. exact Hx. }
  destruct pressed;
    [change (state_text true) with (lit "Pressed") in *
    |change (state_text false) with (lit "Released") in *]; cbv iota.
  - rewrite run_alt, run_word, consumed_app.
    pose proof (Hrest _ _ Ht) as E. unfold str in *. now rewrite E.
  - rewrite run_alt.
    replace (exec (word_i (lit "Pressed")) (lit "Released" ++ _) _ _)
      with (@None captures) by reflexivity.
    rewrite run_word, consumed_app.
    pose proof (Hrest _ _ Ht) as E. unfold str in *. now rewrite E.
Qed.

Lemma mouse_no_match pressed w ws letter tail :
  all_true isspace (w :: ws) -> cls_LR letter = false ->
  re_match MOUSE_RE (mouse_body pressed (w :: ws) letter tail) = None.
Proof.
  intros Hws Hl. unfold re_match, MOUSE_RE, mouse_body, state_text.
  rewrite run_seq, run_word, run_seq, run_grp.
  assert (Hrest : forall c,
    exec (Plus isspace;; Grp g_button (Cls cls_LR);; chr_i ":";; Star isspace;;
         Grp g_details (Plus not_newline))
      ((w :: ws) ++ letter :: ":"%char :: tail) c
      (fun _ c => Some c) = None).
  { intros c. inversion Hws; subst. unfold Plus. rewrite !run_seq. simpl app.
    rewrite run_cls_hit by assumption. cbn [exec].
    destruct (isspace letter) eqn:Hsp.
    - change (ws ++ letter :: ":"%char :: tail)
        with (ws ++ [letter] ++ ":"%char :: tail).
      rewrite app_assoc.
      apply star_k_none with (q := cls_LR);
        first [ solve [auto using LR_not_space]
              | reflexivity
              | apply Forall_app; split; auto; constructor; auto
              | intros a s Ha; now rewrite Ha ].
    - apply star_k_none with (q := cls_LR);
        first [ solve [auto using LR_not_space]
              | reflexivity
              | intros a s Ha; now rewrite Ha ]. }
  destruct pressed; cbv iota; rewrite run_alt.
  - rewrite run_word, Hrest. reflexivity.
  - replace (exec (word_i (lit "Pressed")) (lit "Released" ++ _) _ _)
      with (@None captures) by reflexivity.
    rewrite run_word. apply Hrest.
Qed.

Lemma key_no_match pressed ws letter tail :
  re_match KEY_RE (mouse_body pressed ws letter tail) = None.
Proof. destruct pressed; reflexivity. Qed.

End MouseLines.

Module MouseTheorems.
Import Py Re ReSpec ScriptParser ReFacts TextFacts TranscriptSpec ParserFacts ReEval MouseLines.

Lemma mouse_body_head pressed ws letter tail :
  exists body', mouse_body pressed ws letter tail = "o"%char :: body'.
Proof. unfold mouse_body. simpl. eauto. Qed.

Lemma mouse_body_tail pressed ws letter tail :
  all_true not_newline (mouse_body pressed ws letter tail) ->
  all_true not_newline tail.
Proof.
  unfold mouse_body, all_true. rewrite !Forall_app. intros (_ & _ & _ & H).
  now inversion H; subst; inversion H3.
Qed.

(** What [_parse_line] does with a mouse line of the grammar, according to
    its letter. *)
Lemma parse_mouse_line ws0 seconds ws1 ws2 pressed w ws letter tail idx :
  all_true isspace ws0 -> unsigned_decimal seconds ->
  all_true isspace ws1 -> all_true isspace ws2 ->
  all_true isspace (w :: ws) -> tail <> [] ->
  all_true not_newline (mouse_body pressed (w :: ws) letter tail) ->
  let body := mouse_body pressed (w :: ws) letter tail in
  let line := stamped ws0 seconds ws1 ws2 body in
  exists q, float_of_str seconds = Some q /\
  if cls_LR letter then
    exists wp wd,
      _parse_line line idx =
      Ok (mkEvent idx q 0 (mouse_action pressed)
            (Some (if str_eqb (str_upper [letter]) (lit "L")
                   then lit "left" else lit "right"))
            wp wd line)
  else if exit_form body then
    _parse_line line idx = Ok (mkEvent idx q 0 (lit "exit") None None None line)
  else
    _parse_line line idx = Raise (ValueError (lit "Unsupported event line: " ++ line)).
Proof.
  intros H0 Hs H1 H2 Hws Hne Hnl body line.
  destruct (float_of_unsigned Hs) as [q Hq]. exists q. split; [exact Hq|].
  assert (Hm : re_match DELTA_RE line = Some [(g_body, body); (g_delta, seconds)]).
  { unfold line. destruct (mouse_body_head pressed (w :: ws) letter tail) as [body' E].
    unfold body in *. rewrite E in *. now apply delta_match. }
  destruct (cls_LR letter) eqn:Hl.
  - destruct (@mouse_match pressed w ws letter tail Hws Hl Hne (mouse_body_tail Hnl))
      as [details Hmm].
    destruct (parse_line_mouse line idx Hm eq_refl Hq Hmm)
      as (st & b & details' & wp & wd & E & _ & Hp).
    injection E as _ <- <-. exists wp, wd. rewrite Hp.
    destruct pressed; reflexivity.
  - pose proof (@mouse_no_match pressed w ws letter tail Hws Hl) as Hmouse.
    pose proof (key_no_match pressed (w :: ws) letter tail) as Hkey.
    fold body in Hmouse, Hkey.
    destruct (exit_form body) eqn:Hexit.
    + exact (parse_line_exit line idx Hm eq_refl Hq Hmouse Hkey Hexit).
    + apply parse_line_rejects with (body := body).
      * unfold body_of. now rewrite Hm.
      * unfold mouse_form, key_form, matched. now rewrite Hmouse, Hkey, Hexit.
Qed.

Lemma other_letter letter :
  letter <> "L"%char -> letter <> "R"%char ->
  letter <> "l"%char -> letter <> "r"%char -> cls_LR letter = false.
Proof.
  intros HL HR Hl Hr.
  destruct letter as [[] [] [] [] [] [] [] []]; try reflexivity;
    exfalso; first [now apply HL | now apply HR | now apply Hl | now apply Hr].
Qed.




End MouseTheorems.

Module RunnerFacts.
Import Py RunnerSpec AutomationRunner.
Local Open Scope m_scope.

Lemma fltb_irrefl x : fltb x x = false.
Proof.
  unfold fltb. replace (Qle_bool x x) with true; [reflexivity|].
  symmetry. apply Qle_bool_iff. apply Qle_refl.
Qed.

Lemma fmax_not_below a b : fltb (fmax a b) b = false.
Proof.
  unfold fmax. destruct (fltb a b) eqn:E; [apply fltb_irrefl|exact E].
Qed.

(** ** [_cleanup_process] *)

Lemma cleanup_when_gone (s : Self) (w : World) :
  alive w = false -> _cleanup_process s w = Some (Ok tt, s, w).
Proof.
  intros H. unfold _cleanup_process, bind, lift, Sys.poll. simpl. now rewrite H.
Qed.

Lemma cleanup_when_alive (s : Self) (w : World) :
  alive w = true ->
  exists w',
    _cleanup_process s w = Some (Ok tt, s, w') /\
    trace w' = trace w ++ cleanup_effects w /\
    alive w' = false.
Proof.
  intros H.
  cbv [_cleanup_process bind lift Sys.poll logging Sys.log try_except ret].
  rewrite H.
  unfold cleanup_effects, gone_within.
  destruct w as [t fs p ex td tr].
  cbv [Sys.terminate Sys.signalled Sys.wait Sys.kill emit set_now set_exit_at alive
       now files pid exit_at term_delay trace fst snd] in *.
  destruct ex as [t0|], td as [d|]; rewrite ?H;
    repeat match goal with
    | |- context [if ?b then _ else _] => destruct b eqn:?
    end;
    eexists; (split; [reflexivity|]);
    (split; [cbv [trace]; rewrite <- ?app_assoc; reflexivity|]);
    cbv [alive now exit_at];
    first [apply fltb_irrefl | apply fmax_not_below | idtac].
  all: unfold fltb, fleb in *;
    match goal with
    | H1 : Qle_bool ?a ?b = false, H2 : negb (Qle_bool ?a ?b) = false |- _ =>
        rewrite H1 in H2; discriminate H2
    end.
Qed.

(** [_cleanup_process] always returns, leaves no child behind, and adds to
    the trace what it did. *)
Lemma cleanup_spec (s : Self) (w : World) :
  exists w',
    _cleanup_process s w = Some (Ok tt, s, w') /\
    alive w' = false /\
    trace w' = trace w ++ (if alive w then cleanup_effects w else []).
Proof.
  destruct (alive w) eqn:H.
  - destruct (cleanup_when_alive s w H) as (w' & E & Ht & Ha). eauto.
  - exists w. rewrite (cleanup_when_gone s w H), app_nil_r. auto.
Qed.

Lemma try_finally_cleanup (A : Type) (body : M A) s w r s1 w1 :
  body s w = Some (r, s1, w1) ->
  exists w2,
    try_finally body _cleanup_process s w = Some (r, s1, w2) /\
    alive w2 = false /\
    trace w2 = trace w1 ++ (if alive w1 then cleanup_effects w1 else []).
Proof.
  intros H. destruct (cleanup_spec s1 w1) as (w2 & E & Ha & Ht).
  exists w2. unfold try_finally. rewrite H, E. auto.
Qed.

Section Run.
Variable IS_LINUX : bool.
Variable B : Backend.
Variable config : AutomationConfig.

Lemma run_missing fuel events s w :
  Sys.read (exe_path config) (files w) = None ->
  run IS_LINUX B config fuel events s w =
  Some (Raise (FileNotFoundError (lit "Executable not found: " ++ exe_path config)),
        s, w).
Proof.
  intros H. unfold run, bind, lift, Sys.path_exists. now rewrite H.
Qed.

Lemma run_found fuel events s w text :
  Sys.read (exe_path config) (files w) = Some text ->
  run IS_LINUX B config fuel events s w =
  try_finally (run_try IS_LINUX B config fuel events (pid w)) _cleanup_process
              s (launched config "Launching %s" w).
Proof.
  intros H. unfold run, bind, lift, Sys.path_exists. now rewrite H.
Qed.

Lemma run_stealth_missing fuel delta_ms length_ms s w :
  Sys.read (exe_path config) (files w) = None ->
  run_stealth IS_LINUX B config fuel delta_ms length_ms s w =
  Some (Raise (FileNotFoundError (lit "Executable not found: " ++ exe_path config)),
        s, w).
Proof.
  intros H. unfold run_stealth, bind, lift, Sys.path_exists. now rewrite H.
Qed.

Lemma run_stealth_found fuel delta_ms length_ms s w text :
  Sys.read (exe_path config) (files w) = Some text ->
  run_stealth IS_LINUX B config fuel delta_ms length_ms s w =
  try_finally (run_stealth_try IS_LINUX B config fuel delta_ms length_ms (pid w))
              _cleanup_process s (launched config "Launching %s (stealth)" w).
Proof.
  intros H. unfold run_stealth, bind, lift, Sys.path_exists. now rewrite H.
Qed.

(** However the [try] block of [run] ends, the cleanup comes next and
    the outcome of the block is the outcome of [run]. *)
Lemma run_finalizes fuel events s w text r s1 w1 :
  Sys.read (exe_path config) (files w) = Some text ->
  run_try IS_LINUX B config fuel events (pid w) s
          (launched config "Launching %s" w) = Some (r, s1, w1) ->
  exists w2,
    run IS_LINUX B config fuel events s w = Some (r, s1, w2) /\
    alive w2 = false /\
    trace w2 = trace w1 ++ (if alive w1 then cleanup_effects w1 else []).
Proof.
  intros Hexe H. rewrite (run_found fuel events s w Hexe).
  now apply try_finally_cleanup.
Qed.

(** An error of the window wait is the error of the whole [try] block. *)
Lemma run_try_window_error fuel events p s w e s1 w1 :
  (if IS_LINUX then _wait_for_window_linux B config fuel p
   else _wait_for_window_windows B config fuel p) s w = Some (Raise e, s1, w1) ->
  run_try IS_LINUX B config fuel events p s w = Some (Raise e, s1, w1).
Proof.
  intros H. unfold run_try, until_after_launch, bind at 1 2 3. now rewrite H.
Qed.
End Run.

End RunnerFacts.

Module RunnerTheorems.
Import Py RunnerSpec AutomationRunner RunnerFacts.
Local Open Scope m_scope.

(** C3. Once [run] has spawned the process, however its [try] block ends
    -- normally or with any error, a window-discovery timeout included --
    [_cleanup_process] runs before [run] hands that outcome to its caller:
    a child that still runs is asked to terminate and waited on for 5
    seconds, and killed if it is still there; no child is left running. *)
Theorem cleanup_runs_before_error_reaches_caller :
  forall IS_LINUX B config fuel events s w text,
    Sys.read (exe_path config) (files w) = Some text ->
    let w0 := launched config "Launching %s" w in
    In (E_spawn (exe_path config)) (trace w0) /\
    (forall r s1 w1,
       run_try IS_LINUX B config fuel events (pid w) s w0 = Some (r, s1, w1) ->
       exists w2,
         run IS_LINUX B config fuel events s w = Some (r, s1, w2) /\
         alive w2 = false /\
         trace w2 = trace w1 ++ (if alive w1 then cleanup_effects w1 else [])) /\
    (forall msg s1 w1,
       (if IS_LINUX then _wait_for_window_linux B config fuel (pid w)
        else _wait_for_window_windows B config fuel (pid w)) s w0 =
       Some (Raise (TimeoutError msg), s1, w1) ->
       exists w2,
         run IS_LINUX B config fuel events s w =
         Some (Raise (TimeoutError msg), s1, w2) /\
         alive w2 = false /\
         trace w2 = trace w1 ++ (if alive w1 then cleanup_effects w1 else [])).
Proof.
  intros IS_LINUX B config fuel events s w text Hexe w0.
  assert (Hrun : forall r s1 w1,
            run_try IS_LINUX B config fuel events (pid w) s w0 = Some (r, s1, w1) ->
            exists w2,
              run IS_LINUX B config fuel events s w = Some (r, s1, w2) /\
              alive w2 = false /\
              trace w2 = trace w1 ++ (if alive w1 then cleanup_effects w1 else [])).
  { intros r s1 w1 H. exact (run_finalizes IS_LINUX B config fuel events s w Hexe H). }
  split; [|split].
  - unfold w0, launched, emit. simpl. apply in_or_app. right. now left.
  - exact Hrun.
  - intros msg s1 w1 H. apply Hrun. now apply run_try_window_error.
Qed.

(** A simulated discovery timeout on a desktop without windows, with a
    child that ignores the request to terminate. *)
Lemma cleanup_runs_before_error_reaches_caller_witness :
  exists w2,
    run true empty_desktop timeout_config 10 [] (mkSelf 0) stubborn_child =
    Some (Raise (TimeoutError
                   (lit "Failed to locate window within {window_timeout} seconds")),
          mkSelf 0, w2) /\
    alive w2 = false /\
    exists before,
      trace w2 =
      before ++
      [E_log INFO (lit "Terminating process %s") None; E_terminate; E_wait 5;
       E_log INFO (lit "Force killing hung process %s") None; E_kill].
Proof.
  destruct (_wait_for_window_linux empty_desktop timeout_config 10 (pid stubborn_child)
              (mkSelf 0) (launched timeout_config "Launching %s" stubborn_child))
    as [[[r s1] w1]|] eqn:E; [|discriminate E].
  assert (Hr : r = Raise (TimeoutError
                 (lit "Failed to locate window within {window_timeout} seconds")) /\
               s1 = mkSelf 0 /\ alive w1 = true /\ gone_within 5 w1 = false).
  { vm_compute in E. inversion E. subst. repeat split; reflexivity. }
  destruct Hr as (-> & -> & Ha & Hg).
  destruct (proj2 (proj2 (@cleanup_runs_before_error_reaches_caller
              true empty_desktop timeout_config 10 [] (mkSelf 0) stubborn_child
              ([]) eq_refl)) _ _ _ E) as (w2 & Hrun & Hdead & Ht).
  exists w2. split; [exact Hrun|]. split; [exact Hdead|].
  exists (trace w1). rewrite Ht, Ha. unfold cleanup_effects. now rewrite Hg.
Defined.

(** C8. [run] with a missing executable raises [FileNotFoundError] at
    once: nothing is logged, spawned or changed. An empty event list is
    refused by [main] with a [SystemExit] of its own before a runner is
    built, so nothing is replayed. *)
Theorem preconditions_fail_before_spawn :
  forall IS_LINUX B fuel,
    (forall config events s w,
       Sys.read (exe_path config) (files w) = None ->
       run IS_LINUX B config fuel events s w =
       Some (Raise (FileNotFoundError
                      (lit "Executable not found: " ++ exe_path config)), s, w)) /\
    (forall args script_path exe text s w,
       Main.script args = Some script_path -> Main.exe args = Some exe ->
       Sys.read script_path (files w) = Some text ->
       ScriptParser.parse (Sys.splitlines text) = Ok [] ->
       Main.main IS_LINUX B fuel args s w =
       Some (Raise (SystemExit
                      (exit_message (lit "No events to replay; script is empty"))),
             s, w)) /\
    (forall path msg, FileNotFoundError path <> SystemExit (exit_message msg)).
Proof.
  intros IS_LINUX B fuel. split; [|split].
  - intros config events s w H. now apply run_missing.
  - intros args script_path exe text s w Hs He Hr Hp.
    unfold Main.main. rewrite Hs, He.
    unfold bind at 1, lift at 1, Sys.path_exists. rewrite Hr. cbn [negb].
    unfold try_except, bind, lift, Sys.read_text, Main.of_result.
    rewrite Hr, Hp. reflexivity.
  - discriminate.
Qed.

Lemma preconditions_fail_before_spawn_witness :
  let w := mkWorld 0 [(lit "events.txt", lit "   ")] 1 None None [] in
  run false empty_desktop (Main.config_of (script_args (lit "events.txt") (lit "app"))
                                          (lit "app")) 5 [] (mkSelf 0) w =
  Some (Raise (FileNotFoundError (lit "Executable not found: app")), mkSelf 0, w) /\
  Main.main false empty_desktop 5 (script_args (lit "events.txt") (lit "app"))
            (mkSelf 0) w =
  Some (Raise (SystemExit (exit_message (lit "No events to replay; script is empty"))),
        mkSelf 0, w).
Proof.
  intros w.
  destruct (preconditions_fail_before_spawn false empty_desktop 5) as (H1 & H2 & _).
  split.
  - exact (H1 (Main.config_of (script_args (lit "events.txt") (lit "app")) (lit "app"))
              [] (mkSelf 0) w eq_refl).
  - exact (H2 (script_args (lit "events.txt") (lit "app")) (lit "events.txt")
              (lit "app") (lit "   ") (mkSelf 0) w eq_refl eq_refl eq_refl eq_refl).
Defined.

Lemma bind_skip (m : M unit) (k : M unit) :
  (forall s w, k s w = Some (Ok tt, s, w)) ->
  forall s w, bind m (fun _ => k) s w = m s w.
Proof.
  intros Hk s w. unfold bind.
  destruct (m s w) as [[[[[]|e] s'] w']|]; auto.
Qed.

(** C10. With an exit timeout of zero or less [_await_exit] returns at
    once and leaves everything as it was: it neither polls nor waits nor
    logs. The [try] block of [run] is then the replay alone, and the
    cleanup follows it directly. *)
Theorem nonpositive_exit_timeout_skips_wait :
  forall IS_LINUX B config,
    (exit_timeout config <= 0)%Q ->
    (forall fuel p s w,
       _await_exit IS_LINUX B config fuel p s w = Some (Ok tt, s, w)) /\
    (forall fuel events p s w,
       run_try IS_LINUX B config fuel events p s w =
       replay IS_LINUX B config fuel events p s w) /\
    (forall fuel events s w text r s1 w1,
       Sys.read (exe_path config) (files w) = Some text ->
       replay IS_LINUX B config fuel events (pid w) s
              (launched config "Launching %s" w) = Some (r, s1, w1) ->
       exists w2,
         run IS_LINUX B config fuel events s w = Some (r, s1, w2) /\
         alive w2 = false /\
         trace w2 = trace w1 ++ (if alive w1 then cleanup_effects w1 else [])).
Proof.
  intros IS_LINUX B config Hle.
  assert (Hawait : forall fuel p s w,
            _await_exit IS_LINUX B config fuel p s w = Some (Ok tt, s, w)).
  { intros fuel p s w. unfold _await_exit, fleb.
    apply Qle_bool_iff in Hle. now rewrite Hle. }
  assert (Htry : forall fuel events p s w,
            run_try IS_LINUX B config fuel events p s w =
            replay IS_LINUX B config fuel events p s w).
  { intros fuel events p s w. unfold run_try, replay, bind at 1 3.
    destruct (until_after_launch IS_LINUX B config fuel p s w)
      as [[[[window|e] s'] w']|]; auto.
    apply bind_skip. apply Hawait. }
  split; [exact Hawait|]. split; [exact Htry|].
  intros fuel events s w text r s1 w1 Hexe Hreplay.
  rewrite <- Htry in Hreplay.
  exact (run_finalizes IS_LINUX B config fuel events s w Hexe Hreplay).
Qed.

Lemma nonpositive_exit_timeout_skips_wait_witness :
  _await_exit true empty_desktop no_wait_config 3 (pid stubborn_child)
              (mkSelf 2) stubborn_child =
  Some (Ok tt, mkSelf 2, stubborn_child).
Proof.
  assert (H : (exit_timeout no_wait_config <= 0)%Q) by (vm_compute; discriminate).
  exact (proj1 (@nonpositive_exit_timeout_skips_wait true empty_desktop no_wait_config H)
               3%nat (pid stubborn_child) (mkSelf 2) stubborn_child).
Defined.

End RunnerTheorems.

Module CaptureFacts.
Import Py RunnerSpec AutomationRunner RunnerFacts.
Local Open Scope m_scope.

Lemma keeps_ret (A : Type) (a : A) : keeps_self (ret a).
Proof. intros s w r s' w' H. now inversion H. Qed.

Lemma keeps_raise (A : Type) (e : exn) : keeps_self (@raise A e).
Proof. intros s w r s' w' H. now inversion H. Qed.

Lemma keeps_lift (A : Type) (io : IO A) : keeps_self (lift io).
Proof.
  intros s w r s' w' H. unfold lift in H. destruct (io w). now inversion H.
Qed.

Lemma keeps_bind (A C : Type) (m : M A) (k : A -> M C) :
  keeps_self m -> (forall a, keeps_self (k a)) -> keeps_self (bind m k).
Proof.
  intros Hm Hk s w r s' w' H. unfold bind in H.
  destruct (m s w) as [[[[a|e] s1] w1]|] eqn:E; [| |discriminate].
  - apply Hk in H. apply Hm in E. congruence.
  - inversion H; subst. now apply Hm in E.
Qed.

Lemma keeps_try_except (A : Type) (body : M A) catches handler :
  keeps_self body -> (forall e, keeps_self (handler e)) ->
  keeps_self (try_except body catches handler).
Proof.
  intros Hb Hh s w r s' w' H. unfold try_except in H.
  destruct (body s w) as [[[[a|e] s1] w1]|] eqn:E; [| |discriminate].
  - inversion H; subst. now apply Hb in E.
  - destruct (catches e).
    + apply Hh in H. apply Hb in E. congruence.
    + inversion H; subst. now apply Hb in E.
Qed.

Ltac keeps :=
  repeat first
    [ apply keeps_ret | apply keeps_raise | apply keeps_lift
    | apply keeps_bind; [|intros ?] | apply keeps_try_except; [|intros ?]
    | match goal with
      | |- keeps_self (match ?x with _ => _ end) => destruct x
      | |- keeps_self (if ?x then _ else _) => destruct x
      | |- keeps_self (let '(_, _) := ?x in _) => destruct x
      end ].

Section Capture.
Variable IS_LINUX : bool.
Variable B : Backend.

Lemma keeps_capture_windows window path :
  keeps_self (_capture_window_windows B window path).
Proof.
  unfold _capture_window_windows, _client_region_windows, _capture_screen_windows,
    logging, logging_exc.
  keeps.
Qed.

Lemma keeps_capture_linux window path :
  keeps_self (_capture_window_linux B window path).
Proof.
  unfold _capture_window_linux, X11Screenshot.capture_window,
    X11Screenshot.capture_screen, logging.
  keeps.
Qed.

Lemma keeps_capture window path : keeps_self (capture IS_LINUX B window path).
Proof.
  unfold capture. destruct IS_LINUX;
    [apply keeps_capture_linux | apply keeps_capture_windows].
Qed.
End Capture.

(** ** Decimal text *)

Lemma uint_chars_digits d :
  Forall (fun c => is_digit c = true)
         (list_ascii_of_string (NilEmpty.string_of_uint d)).
Proof. induction d; simpl; constructor; auto. Qed.

Lemma decimal_digits n : Forall (fun c => is_digit c = true) (decimal n).
Proof.
  unfold decimal. generalize (Nat.to_uint n) as d.
  destruct d; simpl; constructor; auto using uint_chars_digits.
Qed.

Lemma digits_nat_uint d : forall acc,
  digits_nat acc (list_ascii_of_string (NilEmpty.string_of_uint d)) =
  Nat.of_uint_acc d acc.
Proof.
  induction d; intros acc; simpl; auto;
    rewrite IHd, Nat.tail_mul_spec; f_equal; simpl; lia.
Qed.

Lemma digits_nat_decimal n : digits_nat 0 (decimal n) = n.
Proof.
  unfold decimal. rewrite <- (Unsigned.of_to n) at 2. unfold Nat.of_uint.
  generalize (Nat.to_uint n) as d.
  destruct d; try reflexivity; unfold NilZero.string_of_uint; apply digits_nat_uint.
Qed.

Lemma digits_nat_zeros k s : digits_nat 0 (repeat "0"%char k ++ s) = digits_nat 0 s.
Proof. induction k; simpl; auto. Qed.

Lemma take_while_digits ds c rest :
  Forall (fun c => is_digit c = true) ds -> is_digit c = false ->
  take_while is_digit (ds ++ c :: rest) = ds.
Proof.
  intros H Hc. induction H as [|d ds Hd _ IH]; simpl.
  - now rewrite Hc.
  - now rewrite Hd, IH.
Qed.

Lemma format_counter n : format_0d 3 (Z.of_nat n) = zfill 3 (decimal n).
Proof.
  unfold format_0d. destruct (Z.of_nat n <? 0)%Z eqn:E.
  - apply Z.ltb_lt in E. lia.
  - now rewrite Nat2Z.id.
Qed.

Lemma zfill_digits k s :
  Forall (fun c => is_digit c = true) s ->
  Forall (fun c => is_digit c = true) (zfill k s).
Proof.
  intros H. unfold zfill. apply Forall_app. split; auto.
  apply Forall_forall. intros c Hc. apply repeat_spec in Hc. now subst.
Qed.

Lemma counter_of_filename n label : counter_of (capture_filename n label) = n.
Proof.
  unfold counter_of, capture_filename. rewrite format_counter.
  change (lit "_" ++ label ++ lit ".png") with ("_"%char :: label ++ lit ".png").
  rewrite take_while_digits; [|apply zfill_digits, decimal_digits|reflexivity].
  unfold zfill. rewrite digits_nat_zeros. apply digits_nat_decimal.
Qed.

Lemma three_digits_below_1000 n :
  (n < 1000)%nat -> List.length (format_0d 3 (Z.of_nat n)) = 3%nat.
Proof.
  intros H.
  assert (Hall : forallb (fun n => (List.length (format_0d 3 (Z.of_nat n)) =? 3)%nat)
                         (seq 0 1000) = true) by (vm_compute; reflexivity).
  rewrite forallb_forall in Hall.
  apply Nat.eqb_eq. apply Hall. apply in_seq. lia.
Qed.

(** ** Sanitization *)

Lemma sub_runs_keep p repl c s :
  p c = false -> Re.sub_runs p repl (c :: s) = c :: Re.sub_runs p repl s.
Proof. intros H. simpl. now rewrite H. Qed.

Lemma sub_runs_run p repl : forall more c s,
  Forall (fun x => p x = true) (c :: more) -> TranscriptSpec.stops p s ->
  Re.sub_runs p repl ((c :: more) ++ s) = repl ++ Re.sub_runs p repl s.
Proof.
  induction more as [|d more IH]; intros c s H Hs; inversion H; subst.
  - simpl. rewrite H2. destruct s as [|x s]; simpl.
    + now rewrite app_nil_r.
    + simpl in Hs. now rewrite Hs.
  - change ((c :: d :: more) ++ s) with (c :: ((d :: more) ++ s)).
    assert (Hd : p d = true) by now inversion H3.
    cbn [Re.sub_runs]. rewrite H2. simpl app at 1. cbv iota. rewrite Hd.
    now apply IH.
Qed.

Lemma sub_runs_clean p repl s :
  Forall (fun x => p x = false) s -> Re.sub_runs p repl s = s.
Proof.
  induction 1 as [|c s Hc _ IH]; [reflexivity|].
  now rewrite sub_runs_keep, IH.
Qed.

Lemma lstrip_by_head p c s : p c = false -> lstrip_by p (c :: s) = c :: s.
Proof. intros H. simpl. now rewrite H. Qed.

Lemma safe_label_clean label : clean_label label -> safe_label label = label.
Proof.
  intros (Hne & Hall & Hhd & Hlast). unfold safe_label.
  rewrite sub_runs_clean by assumption. unfold strip_by.
  destruct label as [|c s]; [congruence|].
  assert (Hc : Ascii.eqb "_" c = false).
  { destruct (Ascii.eqb "_" c) eqn:E; auto. apply Ascii.eqb_eq in E.
    simpl in Hhd. congruence. }
  rewrite lstrip_by_head by exact Hc.
  destruct (@exists_last _ (c :: s) Hne) as (front & x & E).
  rewrite E in Hlast |- *. rewrite last_last in Hlast.
  assert (Hx : Ascii.eqb "_" x = false).
  { destruct (Ascii.eqb "_" x) eqn:E'; auto. apply Ascii.eqb_eq in E'. congruence. }
  rewrite rev_app_distr.
  change (rev [x] ++ rev front) with (x :: rev front).
  rewrite lstrip_by_head by exact Hx.
  change (x :: rev front) with ([x] ++ rev front).
  rewrite rev_app_distr, rev_involutive.
  change (rev [x]) with [x].
  destruct front; reflexivity.
Qed.

End CaptureFacts.

Module CaptureTheorems.
Import Py RunnerSpec AutomationRunner RunnerFacts CaptureFacts.
Local Open Scope m_scope.

(** C2, at the input where it fails. On Windows, when the client-area
    capture and the window capture have both failed and been logged, the
    full-screen capture is called outside any [try]: its error leaves
    [_capture_window_windows]. The Linux path does what the claim says: no
    [Exception] leaves [_capture_window_linux]. *)
Theorem windows_capture_raises_when_every_tier_fails :
  (forall window path s w,
     exists w',
       _capture_window_windows broken_screen window path s w =
       Some (Raise (BackendError (lit "screen grab failed")), s, w') /\
       trace w' =
       trace w ++
       [E_log WARNING
          (lit "Client-area capture failed (%s); retrying with full window")
          (Some (BackendError (lit "screen grab failed")));
        E_log WARNING
          (lit "Window capture failed (%s), falling back to full screen")
          (Some (BackendError (lit "capture_as_image failed")));
        E_log DEBUG (lit "Capturing screen to %s") None]) /\
  (forall B window path s w,
     exists r w',
       _capture_window_linux B window path s w = Some (r, s, w') /\
       match r with
       | Ok _ => True
       | Raise e => is_Exception e = false
       end).
Proof.
  split.
  - intros window path s w. eexists. split; [reflexivity|].
    cbv [trace emit]. rewrite <- !app_assoc. reflexivity.
  - intros B window path s w.
    unfold _capture_window_linux, X11Screenshot.capture_window,
      X11Screenshot.capture_screen, logging, bind, try_except, lift, ret, Sys.log.
    repeat match goal with
    | |- _ => progress cbn [negb]; cbv beta iota
    | |- context [capture_window_tools ?b ?x ?p ?v] =>
        destruct (capture_window_tools b x p v) as [[[|]|?] ?]
    | |- context [capture_screen_tools ?b ?p ?v] =>
        destruct (capture_screen_tools b p v) as [[?|?] ?]
    | |- context [is_Exception ?e] => destruct (is_Exception e) eqn:?
    end;
    eexists _, _; (split; [reflexivity|]);
    first [exact I | assumption].
Qed.




End CaptureTheorems.

Unset Implicit Arguments.

Module StealthFacts.
Import Py RunnerSpec AutomationRunner RunnerFacts CaptureFacts.
Local Open Scope m_scope.
Local Open Scope Q_scope.

(** ** Comparisons and arithmetic of the floats *)

Lemma fadd_eq a b : fadd a b == a + b.
Proof. apply Qred_correct. Qed.

Lemma fsub_eq a b : fsub a b == a - b.
Proof. apply Qred_correct. Qed.

Lemma fmul_eq a b : fmul a b == a * b.
Proof. apply Qred_correct. Qed.

Lemma fltb_true a b : fltb a b = true <-> a < b.
Proof.
  unfold fltb. rewrite negb_true_iff. split; intros H.
  - apply Qnot_le_lt. intros Hle. apply Qle_bool_iff in Hle. congruence.
  - destruct (Qle_bool b a) eqn:E; auto. apply Qle_bool_iff in E. lra.
Qed.

Lemma fltb_false a b : fltb a b = false <-> b <= a.
Proof.
  unfold fltb. rewrite negb_false_iff. apply Qle_bool_iff.
Qed.

Lemma fleb_true a b : fleb a b = true <-> a <= b.
Proof. apply Qle_bool_iff. Qed.

Lemma fleb_false a b : fleb a b = false <-> b < a.
Proof.
  unfold fleb. split; intros H.
  - apply Qnot_le_lt. intros Hle. apply Qle_bool_iff in Hle. congruence.
  - destruct (Qle_bool a b) eqn:E; auto. apply Qle_bool_iff in E. lra.
Qed.

Lemma fmax_nonneg y : fltb (fmax 0 y) 0 = false.
Proof.
  apply fltb_false. unfold fmax. destruct (fltb 0 y) eqn:E.
  - apply fltb_true in E. lra.
  - lra.
Qed.

Lemma fmax_positive y : 0 < y -> fmax 0 y = y.
Proof. intros H. unfold fmax. apply fltb_true in H. now rewrite H. Qed.

Lemma int_of_float_Z x z : x == inject_Z z -> int_of_float x = z.
Proof.
  intros H. unfold int_of_float.
  destruct (Qle_bool 0 x).
  - rewrite (Qfloor_comp _ _ H). apply Qfloor_Z.
  - rewrite (Qceiling_comp _ _ H). apply Qceiling_Z.
Qed.

Lemma bind_ok (A C : Type) (m : M A) (k : A -> M C) s w a s' w' :
  m s w = Some (Ok a, s', w') -> bind m k s w = k a s' w'.
Proof. intros H. unfold bind. now rewrite H. Qed.

(** ** Frames *)

Lemma frames_of_app l1 l2 : frames_of (l1 ++ l2) = frames_of l1 ++ frames_of l2.
Proof.
  induction l1 as [|e l1 IH]; [reflexivity|].
  simpl. destruct e; simpl; rewrite IH; reflexivity.
Qed.

Lemma frames_emit w e :
  frames (emit w e) = frames w ++ frames_of [e].
Proof. unfold frames, emit. simpl. apply frames_of_app. Qed.

Lemma frames_shoot latency path w :
  frames (snd (shoot latency path w)) = frames w ++ [path].
Proof. unfold frames, shoot. cbn [snd emit set_now trace]. apply frames_of_app. Qed.

(** ** One turn of the stealth loop on the steady desktop *)

Section Steady.
Variable latency : float.
Variable config : AutomationConfig.
Hypothesis no_delay : fltb 0 (capture_delay config) = false.

Lemma capture_steady window path s w :
  capture false (steady_desktop latency) window path s w =
  Some (Ok tt, s, snd (shoot latency path w)).
Proof. reflexivity. Qed.

Lemma sleep_before_capture_none s w :
  _sleep_before_capture config s w = Some (Ok tt, s, w).
Proof. unfold _sleep_before_capture. now rewrite no_delay. Qed.

Lemma stealth_turn fuel window start end_time interval next_ts s w :
  fleb end_time (now w) = false ->
  let w1 := at_tick next_ts w in
  let path :=
    in_screenshot_dir config
      (capture_filename (_capture_index s)
         (stealth_label (int_of_float (fmul (fsub (now w1) start) 1000)))) in
  stealth_loop false (steady_desktop latency) config (S fuel) window
               start end_time interval next_ts s w =
  stealth_loop false (steady_desktop latency) config fuel window
               start end_time interval (fadd next_ts interval)
               (mkSelf (_capture_index s + 1)) (snd (shoot latency path w1)).
Proof.
  intros Hend w1 path. cbn [stealth_loop].
  rewrite (bind_ok _ _ (lift Sys.time) _ s w (now w) s w eq_refl).
  rewrite Hend.
  assert (Hsleep :
    (if fltb (now w) next_ts
     then time_sleep (fmax 0 (fsub next_ts (now w))) else ret tt) s w =
    Some (Ok tt, s, w1)).
  { unfold w1, at_tick. destruct (fltb (now w) next_ts); [|reflexivity].
    unfold time_sleep, lift, Sys.sleep. now rewrite fmax_nonneg. }
  rewrite (bind_ok _ _ _ _ _ _ _ _ _ Hsleep).
  rewrite (bind_ok _ _ _ _ _ _ _ _ _ (sleep_before_capture_none s w1)).
  rewrite (bind_ok _ _ (lift Sys.time) _ s w1 (now w1) s w1 eq_refl).
  rewrite (bind_ok _ _ (_next_capture_path config _) _ s w1 path
             (mkSelf (_capture_index s + 1)) w1 eq_refl).
  rewrite (bind_ok _ _ _ _ _ _ _ _ _ (capture_steady window path _ w1)).
  reflexivity.
Qed.

Lemma stealth_stop fuel window start end_time interval next_ts s w :
  fleb end_time (now w) = true ->
  stealth_loop false (steady_desktop latency) config (S fuel) window
               start end_time interval next_ts s w = Some (Ok tt, s, w).
Proof.
  intros Hend. cbn [stealth_loop].
  rewrite (bind_ok _ _ (lift Sys.time) _ s w (now w) s w eq_refl).
  now rewrite Hend.
Qed.

Lemma now_at_tick next_ts w : now w <= next_ts -> now (at_tick next_ts w) == next_ts.
Proof.
  intros H. unfold at_tick. destruct (fltb (now w) next_ts) eqn:E.
  - apply fltb_true in E. unfold Sys.sleep. rewrite fmax_nonneg. cbn [snd emit set_now now].
    rewrite fadd_eq, fmax_positive; rewrite fsub_eq; lra.
  - apply fltb_false in E. lra.
Qed.

Lemma frames_at_tick next_ts w : frames (at_tick next_ts w) = frames w.
Proof.
  unfold at_tick. destruct (fltb (now w) next_ts); [|reflexivity].
  unfold Sys.sleep. rewrite fmax_nonneg. cbn [snd].
  rewrite frames_emit. simpl. apply app_nil_r.
Qed.
End Steady.

(** ** The ticks of a stealth run *)

Section Ticks.
Variable latency : float.
Variable config : AutomationConfig.
Variable step : Z.
Variables start end_time interval : float.
Hypothesis no_delay : fltb 0 (capture_delay config) = false.
Hypothesis latency_nonneg : 0 <= latency.
Hypothesis latency_short : latency < interval.
Hypothesis interval_step : interval * 1000 == inject_Z step.

Lemma tick_label k w next_ts :
  next_ts == start + inject_Z k * interval -> now w <= next_ts ->
  int_of_float (fmul (fsub (now (at_tick next_ts w)) start) 1000) = (k * step)%Z.
Proof.
  intros Hn Hw. apply int_of_float_Z.
  rewrite fmul_eq, fsub_eq, (now_at_tick _ _ Hw), Hn, inject_Z_mult.
  rewrite <- interval_step. ring.
Qed.

Lemma stealth_ticks window : forall n k fuel next_ts s w,
  (n < fuel)%nat ->
  next_ts == start + inject_Z k * interval ->
  now w <= next_ts ->
  (n = 0%nat -> end_time <= now w) ->
  ((0 < n)%nat -> now w < end_time) ->
  end_time == start + (inject_Z k + inject_Z (Z.of_nat n) - 1) * interval ->
  exists w',
    stealth_loop false (steady_desktop latency) config fuel window
                 start end_time interval next_ts s w =
    Some (Ok tt, mkSelf (_capture_index s + n), w') /\
    frames w' = frames w ++ tick_paths config step (_capture_index s) k n.
Proof.
  induction n as [|n IH]; intros k fuel next_ts s w Hfuel Hnext Hnow H0 Hpos Hend;
    (destruct fuel as [|fuel]; [lia|]).
  - exists w. rewrite stealth_stop by (apply fleb_true; auto).
    destruct s as [idx]. cbn [_capture_index]. rewrite Nat.add_0_r, app_nil_r. auto.
  - rewrite (stealth_turn latency config no_delay) by (apply fleb_false; apply Hpos; lia).
    rewrite (tick_label k w next_ts Hnext Hnow).
    set (path := in_screenshot_dir config
                   (capture_filename (_capture_index s) (stealth_label (k * step)))).
    set (w1 := snd (shoot latency path (at_tick next_ts w))).
    assert (Hw1 : now w1 == next_ts + latency).
    { unfold w1, shoot. cbn [snd emit set_now now].
      now rewrite fadd_eq, (now_at_tick _ _ Hnow). }
    assert (Hn : inject_Z (Z.of_nat (S n)) == inject_Z (Z.of_nat n) + 1).
    { rewrite Nat2Z.inj_succ, <- Z.add_1_r, inject_Z_plus. reflexivity. }
    rewrite Hn in Hend.
    destruct (IH (k + 1)%Z fuel (fadd next_ts interval)
                 (mkSelf (_capture_index s + 1)) w1) as (w' & Hrun & Hframes).
    + lia.
    + rewrite fadd_eq, Hnext, inject_Z_plus. ring.
    + rewrite fadd_eq, Hw1. lra.
    + intros ->. rewrite Hw1, Hend, Hnext. change (inject_Z (Z.of_nat 0)) with 0. lra.
    + intros Hn'. rewrite Hw1, Hend, Hnext.
      assert (1 <= inject_Z (Z.of_nat n)).
      { change 1 with (inject_Z 1). rewrite <- Zle_Qle. lia. }
      assert (0 < interval) by lra.
      nra.
    + rewrite Hend, inject_Z_plus. ring.
    + exists w'. cbn [_capture_index] in Hrun, Hframes. split.
      * rewrite Hrun. do 3 f_equal. f_equal. lia.
      * rewrite Hframes. unfold w1 at 1.
        rewrite frames_shoot, frames_at_tick. cbn [tick_paths].
        fold path. rewrite <- app_assoc, Nat.add_1_r. reflexivity.
Qed.
End Ticks.

(** ** A whole stealth run on the steady desktop *)

Lemma fdiv_eq a b : fdiv a b == a / b.
Proof. apply Qred_correct. Qed.

Lemma frames_of_cleanup w : frames_of (cleanup_effects w) = [].
Proof. unfold cleanup_effects. destruct (gone_within 5 w); reflexivity. Qed.

Lemma await_exit_windows B config fuel p s w :
  exists w',
    _await_exit false B config fuel p s w = Some (Ok tt, s, w') /\ frames w' = frames w.
Proof.
  unfold _await_exit.
  destruct (fleb (exit_timeout config) 0); [exists w; split; reflexivity|].
  unfold try_except, bind, lift, Sys.wait, logging, Sys.log, ret.
  destruct (exit_at w) as [t|];
    [destruct (fleb t (fadd (now w) (exit_timeout config)))|];
    eexists; (split; [reflexivity|]);
    unfold frames; cbn [trace emit set_now]; rewrite ?frames_of_app; cbn [frames_of];
    rewrite ?app_nil_r; reflexivity.
Qed.

Lemma try_finally_frames (body : M unit) s w r s1 w1 :
  body s w = Some (r, s1, w1) ->
  exists w2,
    try_finally body _cleanup_process s w = Some (r, s1, w2) /\ frames w2 = frames w1.
Proof.
  intros H. destruct (@try_finally_cleanup _ body s w r s1 w1 H) as (w2 & E & _ & Ht).
  exists w2. split; [exact E|]. unfold frames. rewrite Ht, frames_of_app.
  destruct (alive w1); [rewrite frames_of_cleanup|]; apply app_nil_r.
Qed.

Lemma stealth_run_frames latency step n fuel :
  (1 <= step)%Z -> (1 <= n)%nat -> (n + 2 < fuel)%nat ->
  0 <= latency -> latency * 1000 < inject_Z step ->
  exists w',
    run_stealth false (steady_desktop latency) stealth_config fuel step
                (Z.of_nat n * step) (mkSelf 0) fresh_world =
    Some (Ok tt, mkSelf (n + 3), w') /\
    frames w' =
    in_screenshot_dir stealth_config (capture_filename 0 (lit "after_launch")) ::
    tick_paths stealth_config step 1 0 (n + 1) ++
    [in_screenshot_dir stealth_config
       (capture_filename (n + 2) (lit "after_stealth"))].
Proof.
  intros Hstep Hn Hfuel Hlat0 Hlat.
  rewrite (@run_stealth_found false (steady_desktop latency) stealth_config fuel step
             (Z.of_nat n * step) (mkSelf 0) fresh_world ([]) eq_refl).
  destruct fuel as [|fuel]; [lia|].
  set (w0 := launched stealth_config "Launching %s (stealth)" fresh_world).
  assert (Hlaunch : exists w1,
    until_after_launch false (steady_desktop latency) stealth_config (S fuel)
                       (pid fresh_world) (mkSelf 0) w0 = Some (Ok 1%Z, mkSelf 1, w1) /\
    frames w1 =
    [in_screenshot_dir stealth_config (capture_filename 0 (lit "after_launch"))]).
  { eexists. split; reflexivity. }
  destruct Hlaunch as (w1 & Hlaunch & Hf1).
  set (start := now w1).
  set (end_time := fadd start (fmax 0 (fdiv (of_int (Z.of_nat n * step)) 1000))).
  set (interval := fdiv (of_int (Z.max 1 step)) 1000).
  assert (Hiv : interval * 1000 == inject_Z step).
  { unfold interval. rewrite fdiv_eq. unfold of_int. rewrite Z.max_r by lia. field. }
  assert (Hdur : fdiv (of_int (Z.of_nat n * step)) 1000 ==
                 inject_Z (Z.of_nat n) * interval).
  { rewrite fdiv_eq. unfold of_int. rewrite inject_Z_mult.
    setoid_replace (inject_Z step) with (interval * 1000) by (symmetry; exact Hiv).
    field. }
  assert (Hn1 : 1 <= inject_Z (Z.of_nat n)).
  { change 1 with (inject_Z 1). rewrite <- Zle_Qle. lia. }
  assert (Hstep1 : 1 <= inject_Z step).
  { change 1 with (inject_Z 1). rewrite <- Zle_Qle. lia. }
  assert (Hivpos : 0 < interval) by lra.
  assert (Hend : end_time == start + inject_Z (Z.of_nat n) * interval).
  { unfold end_time. rewrite fadd_eq, fmax_positive; [now rewrite Hdur|].
    rewrite Hdur. nra. }
  destruct (stealth_ticks latency stealth_config step start end_time interval
              eq_refl Hlat0 ltac:(lra) Hiv 1%Z (n + 1)%nat 0%Z (S fuel) start
              (mkSelf 1) w1) as (w2 & Hloop & Hf2).
  - lia.
  - change (inject_Z 0) with 0. lra.
  - unfold start. lra.
  - lia.
  - intros _. rewrite Hend. unfold start. nra.
  - rewrite Hend. rewrite Nat2Z.inj_add, inject_Z_plus.
    change (inject_Z 0) with 0. change (inject_Z (Z.of_nat 1)) with 1. lra.
  - cbn [_capture_index] in Hloop, Hf2.
    destruct (await_exit_windows (steady_desktop latency) stealth_config (S fuel)
                (pid fresh_world) (mkSelf (1 + (n + 1) + 1))
                (snd (shoot latency
                        (in_screenshot_dir stealth_config
                           (capture_filename (1 + (n + 1)) (lit "after_stealth")))
                        w2))) as (w3 & Hawait & Hf3).
    assert (Hbody :
      run_stealth_try false (steady_desktop latency) stealth_config (S fuel) step
                      (Z.of_nat n * step) (pid fresh_world) (mkSelf 0) w0 =
      Some (Ok tt, mkSelf (1 + (n + 1) + 1), w3)).
    { unfold run_stealth_try.
      rewrite (bind_ok _ _ _ _ _ _ _ _ _ Hlaunch).
      rewrite (bind_ok _ _ (lift Sys.time) _ (mkSelf 1) w1 (now w1) (mkSelf 1) w1 eq_refl).
      fold start. fold end_time. fold interval.
      rewrite (bind_ok _ _ _ _ _ _ _ _ _ Hloop).
      rewrite (bind_ok _ _ _ _ _ _ _ _ _
                 (sleep_before_capture_none stealth_config eq_refl _ w2)).
      rewrite (bind_ok _ _ (_next_capture_path stealth_config (lit "after_stealth")) _
                 (mkSelf (1 + (n + 1))) w2
                 (in_screenshot_dir stealth_config
                    (capture_filename (1 + (n + 1)) (lit "after_stealth")))
                 (mkSelf (1 + (n + 1) + 1)) w2 eq_refl).
      rewrite (bind_ok _ _ _ _ _ _ _ _ _ (capture_steady latency _ _ _ w2)).
      exact Hawait. }
    destruct (try_finally_frames _ _ _ _ _ _ Hbody) as (w4 & Hrun & Hf4).
    exists w4. split.
    + rewrite Hrun. do 3 f_equal. f_equal. lia.
    + rewrite Hf4, Hf3, frames_shoot, Hf2, Hf1.
      replace (1 + (n + 1))%nat with (n + 2)%nat by lia. reflexivity.
Qed.

End StealthFacts.

Module StealthTheorems.
Import Py RunnerSpec AutomationRunner RunnerFacts CaptureFacts StealthFacts.
Local Open Scope m_scope.
Local Open Scope Q_scope.




End StealthTheorems.

(** ** The matcher finds every match *)

Module ReComplete.
Import Py Re ReSpec ReFacts.

Lemma star_k_complete (R : Type) (p : ascii -> bool) (k : str -> option R) pre rest x :
  all_true p pre -> k rest = Some x -> exists y, star_k p (pre ++ rest) k = Some y.
Proof.
  intros Hpre Hk. induction Hpre as [|a pre Ha _ IH]; simpl.
  - destruct rest as [|a rest]; simpl; eauto.
    destruct (p a); eauto. destruct (star_k p rest k); eauto.
  - rewrite Ha. destruct IH as [y ->]. eauto.
Qed.

Lemma exec_complete (R : Type) r pre rest c c' :
  Matches r pre rest c c' ->
  forall (k : str -> captures -> option R) x,
    k rest c' = Some x -> exists y, exec r (pre ++ rest) c k = Some y.
Proof.
  induction 1 as [rest c|p ch rest c Hp|r1 r2 pre1 pre2 rest c c1 c2 _ IH1 _ IH2
                 |r1 r2 pre rest c c' _ IH|r1 r2 pre rest c c' _ IH
                 |p pre rest c Hall|r pre rest c c' _ IH|r rest c
                 |g r pre rest c c' _ IH|c|c]; intros k x Hk; simpl.
  - eauto.
  - rewrite Hp. eauto.
  - rewrite <- app_assoc.
    destruct (IH2 k x Hk) as [y Hy].
    exact (IH1 (fun s1 c1 => exec r2 s1 c1 k) y Hy).
  - destruct (IH k x Hk) as [y ->]. eauto.
  - destruct (exec r1 (pre ++ rest) c k); eauto.
  - exact (star_k_complete R p (fun s' => k s' c) pre rest x Hall Hk).
  - destruct (IH k x Hk) as [y ->]. eauto.
  - destruct (exec r rest c k); eauto.
  - apply (IH (fun s' c'0 => k s' ((g, consumed (pre ++ rest) s') :: c'0)) x).
    now rewrite consumed_app.
  - eauto.
  - change (Ascii.eqb newline newline) with true. eauto.
Qed.

Lemma re_match_complete r pre rest c' :
  Matches r pre rest [] c' -> exists m, re_match r (pre ++ rest) = Some m.
Proof.
  intros H. exact (exec_complete _ r pre rest [] c' H (fun _ caps => Some caps) c' eq_refl).
Qed.

Lemma re_search_complete r before t m :
  re_match r t = Some m -> exists m', re_search r (before ++ t) = Some m'.
Proof.
  intros H. induction before as [|a before IH]; simpl.
  - destruct t; simpl; rewrite H; eauto.
  - destruct (re_match r (a :: before ++ t)); eauto.
Qed.

(** A word of the pattern under IGNORECASE matches the texts that are
    equal to it up to case. *)
Lemma Matches_word w : forall kw rest c,
  str_lower kw = str_lower w -> Matches (word_i w) kw rest c c.
Proof.
  induction w as [|a w IH]; intros kw rest c H; destruct kw as [|b kw];
    try discriminate H.
  - constructor.
  - simpl in H. injection H as Hb Hw. simpl word_i.
    change (b :: kw) with ([b] ++ kw). econstructor.
    + constructor. rewrite Hb. apply Ascii.eqb_refl.
    + now apply IH.
Qed.

Lemma Matches_word_inv w : forall kw rest c c',
  Matches (word_i w) kw rest c c' -> c' = c /\ str_lower kw = str_lower w.
Proof.
  induction w as [|a w IH]; intros kw rest c c' H; simpl in H.
  - inversion H; subst. auto.
  - inversion H; subst.
    match goal with H1 : Matches (chr_i _) _ _ _ _ |- _ => inversion H1; subst end.
    match goal with H2 : Matches (word_i _) _ _ _ _ |- _ =>
      apply IH in H2; destruct H2 as [-> Hw] end.
    split; [reflexivity|]. simpl. rewrite Hw. f_equal.
    match goal with H3 : Ascii.eqb _ _ = true |- _ => now apply Ascii.eqb_eq in H3 end.
Qed.

End ReComplete.

(** ** Coordinates in the details of a mouse line *)

Module PointFacts.
Import Py Re ScriptParser ReSpec TranscriptSpec GrammarSpec.
Import ReFacts TextFacts ParserFacts ReComplete.
Local Open Scope re_scope.

Lemma M_Seq_at r1 r2 pre pre1 pre2 rest c c1 c2 :
  pre = pre1 ++ pre2 ->
  Matches r1 pre1 (pre2 ++ rest) c c1 -> Matches r2 pre2 rest c1 c2 ->
  Matches (r1 ;; r2) pre rest c c2.
Proof. intros ->. apply M_Seq. Qed.

Lemma Matches_plus p a s rest c :
  all_true p (a :: s) -> Matches (Plus p) (a :: s) rest c c.
Proof.
  intros H. inversion H; subst. unfold Plus.
  apply (M_Seq_at _ _ (a :: s) [a] s rest c c c eq_refl); constructor; assumption.
Qed.

Lemma Matches_unsigned_intro s rest c :
  unsigned_decimal s ->
  Matches (Plus is_digit ;; Opt (chr "." ;; Plus is_digit)) s rest c c.
Proof.
  intros [d ip H | d ip d' fr H1 H2].
  - apply (M_Seq_at _ _ _ (d :: ip) [] rest c c c).
    + now rewrite app_nil_r.
    + now apply Matches_plus.
    + apply M_OptN.
  - apply (M_Seq_at _ _ _ (d :: ip) ("."%char :: d' :: fr) rest c c c eq_refl).
    + now apply Matches_plus.
    + apply M_OptY.
      apply (M_Seq_at _ _ _ ["."%char] (d' :: fr) rest c c c eq_refl).
      * constructor. reflexivity.
      * now apply Matches_plus.
Qed.

Lemma Matches_number_intro s rest c :
  signed_decimal s -> Matches number s rest c c.
Proof.
  intros [u Hu | u Hu]; unfold number.
  - apply (M_Seq_at _ _ _ [] u rest c c c eq_refl); [apply M_OptN|].
    now apply Matches_unsigned_intro.
  - apply (M_Seq_at _ _ _ ["-"%char] u rest c c c eq_refl).
    + apply M_OptY. constructor. reflexivity.
    + now apply Matches_unsigned_intro.
Qed.

Lemma Matches_number_signed pre rest c c' :
  Matches number pre rest c c' -> c' = c /\ signed_decimal pre.
Proof.
  unfold number. intros H. inv_seq. use_unsigned.
  match goal with H : Matches (Opt _) _ _ _ _ |- _ => inv H end.
  - unfold chr in *. inv_matches.
    match goal with H : Ascii.eqb "-" _ = true |- _ => apply Ascii.eqb_eq in H; subst end.
    split; auto. simpl. now apply sd_minus.
  - split; auto. simpl. now apply sd_plain.
Qed.

Lemma comma_only ch : Ascii.eqb (lower ch) (lower ",") = true -> ch = ","%char.
Proof.
  destruct ch as [[] [] [] [] [] [] [] []]; intros H; try discriminate H; reflexivity.
Qed.

Lemma paren_only ch : Ascii.eqb (lower ch) (lower ")") = true -> ch = ")"%char.
Proof.
  destruct ch as [[] [] [] [] [] [] [] []]; intros H; try discriminate H; reflexivity.
Qed.

Lemma point_re_intro w kw x y rest :
  str_lower kw = str_lower w -> signed_decimal x -> signed_decimal y ->
  Matches (point_re w) (kw ++ x ++ ","%char :: y ++ [")"%char]) rest
          [] [(g_y, y); (g_x, x)].
Proof.
  intros Hkw Hx Hy. unfold point_re.
  apply (M_Seq_at _ _ _ kw (x ++ ","%char :: y ++ [")"%char]) rest [] []
                  [(g_y, y); (g_x, x)] eq_refl).
  - now apply Matches_word.
  - apply (M_Seq_at _ _ _ x (","%char :: y ++ [")"%char]) rest [] [(g_x, x)]
                    [(g_y, y); (g_x, x)] eq_refl).
    + constructor. now apply Matches_number_intro.
    + apply (M_Seq_at _ _ _ [","%char] (y ++ [")"%char]) rest _ [(g_x, x)]
                      [(g_y, y); (g_x, x)] eq_refl).
      * constructor. reflexivity.
      * apply (M_Seq_at _ _ _ y [")"%char] rest _ [(g_y, y); (g_x, x)]
                        [(g_y, y); (g_x, x)] eq_refl).
        -- constructor. now apply Matches_number_intro.
        -- constructor. reflexivity.
Qed.

Lemma point_re_inv w pre rest m :
  Matches (point_re w) pre rest [] m ->
  exists kw x y,
    pre = kw ++ x ++ ","%char :: y ++ [")"%char] /\
    str_lower kw = str_lower w /\ signed_decimal x /\ signed_decimal y /\
    m = [(g_y, y); (g_x, x)].
Proof.
  unfold point_re. intros H.
  inv_seq.
  match goal with H : Matches (word_i _) _ _ _ _ |- _ =>
    apply Matches_word_inv in H; destruct H as [-> Hkw] end.
  inv_seq. inv_grp.
  match goal with H : Matches number _ _ _ _ |- _ =>
    apply Matches_number_signed in H; destruct H as [-> Hx] end.
  inv_seq.
  match goal with H : Matches (chr_i ",") _ _ _ _ |- _ => inv H end.
  inv_seq. inv_grp.
  match goal with H : Matches number _ _ _ _ |- _ =>
    apply Matches_number_signed in H; destruct H as [-> Hy] end.
  match goal with H : Matches (chr_i ")") _ _ _ _ |- _ => inv H end.
  repeat match goal with
  | H : Ascii.eqb (lower _) (lower ",") = true |- _ => apply comma_only in H; subst
  | H : Ascii.eqb (lower _) (lower ")") = true |- _ => apply paren_only in H; subst
  end.
  eexists _, _, _. repeat split; eauto.
Qed.

Lemma search_point_sound w details m :
  re_search (point_re w) details = Some m ->
  exists x y, point_at (str_lower w) details x y /\ m = [(g_y, y); (g_x, x)].
Proof.
  intros H. apply re_search_sound in H. destruct H as (sk & t & -> & H).
  apply re_match_sound in H. destruct H as (pre & rest & -> & H).
  apply point_re_inv in H. destruct H as (kw & x & y & -> & Hkw & Hx & Hy & ->).
  exists x, y. split; [|reflexivity].
  exists sk, kw, rest. repeat split; auto.
  rewrite <- !app_assoc. simpl. rewrite <- !app_assoc. reflexivity.
Qed.

Lemma search_point_complete w details x y :
  point_at (str_lower w) details x y ->
  exists m, re_search (point_re w) details = Some m.
Proof.
  intros (before & kw & after & -> & Hkw & Hx & Hy).
  destruct (re_match_complete (point_re w) _ after _
              (point_re_intro w kw x y after Hkw Hx Hy)) as [m Hm].
  apply (re_search_complete _ before _ m).
  rewrite <- Hm. f_equal. rewrite <- !app_assoc. simpl. rewrite <- !app_assoc.
  reflexivity.
Qed.

Lemma window_is_point_re : WINDOW_RE = point_re (lit "window(").
Proof. reflexivity. Qed.

Lemma world_is_point_re : WORLD_RE = point_re (lit "world(").
Proof. reflexivity. Qed.

Lemma parse_window_sound details x y :
  _parse_window details = Ok (Some (x, y)) ->
  exists tx ty qx qy,
    point_at (lit "window(") details tx ty /\
    float_of_str tx = Some qx /\ float_of_str ty = Some qy /\
    x = round qx /\ y = round qy.
Proof.
  unfold _parse_window. rewrite window_is_point_re.
  destruct (re_search (point_re (lit "window(")) details) as [m|] eqn:E; [|discriminate].
  apply search_point_sound in E. destruct E as (tx & ty & Hp & ->).
  unfold group_text, to_float. simpl lookup. cbv beta iota. simpl bind_result at 1.
  destruct (float_of_str tx) as [qx|] eqn:Hx; [|discriminate].
  simpl bind_result at 1. simpl bind_result at 1.
  destruct (float_of_str ty) as [qy|] eqn:Hy; [|discriminate].
  simpl. intros [= <- <-]. exists tx, ty, qx, qy. auto.
Qed.

Lemma parse_world_sound details x y :
  _parse_world details = Ok (Some (x, y)) ->
  exists tx ty,
    point_at (lit "world(") details tx ty /\
    float_of_str tx = Some x /\ float_of_str ty = Some y.
Proof.
  unfold _parse_world. rewrite world_is_point_re.
  destruct (re_search (point_re (lit "world(")) details) as [m|] eqn:E; [|discriminate].
  apply search_point_sound in E. destruct E as (tx & ty & Hp & ->).
  unfold group_text, to_float. simpl lookup. cbv beta iota. simpl bind_result at 1.
  destruct (float_of_str tx) as [qx|] eqn:Hx; [|discriminate].
  simpl bind_result at 1. simpl bind_result at 1.
  destruct (float_of_str ty) as [qy|] eqn:Hy; [|discriminate].
  simpl. intros [= <- <-]. exists tx, ty. auto.
Qed.

Lemma parse_window_complete details tx ty :
  point_at (lit "window(") details tx ty ->
  exists p, _parse_window details = Ok (Some p).
Proof.
  intros H. destruct (search_point_complete (lit "window(") details tx ty H) as [m Hm].
  destruct (parse_window_total details) as [[p|] Hp]; eauto.
  unfold _parse_window in Hp. rewrite window_is_point_re, Hm in Hp.
  rewrite <- window_is_point_re in Hm.
  destruct (window_groups details Hm) as (x & y & qx & qy & -> & Hx & Hy).
  unfold group_text, to_float in Hp. simpl in Hp. rewrite Hx in Hp. simpl in Hp.
  rewrite Hy in Hp. discriminate Hp.
Qed.

Lemma parse_world_complete details tx ty :
  point_at (lit "world(") details tx ty ->
  exists p, _parse_world details = Ok (Some p).
Proof.
  intros H. destruct (search_point_complete (lit "world(") details tx ty H) as [m Hm].
  destruct (parse_world_total details) as [[p|] Hp]; eauto.
  unfold _parse_world in Hp. rewrite world_is_point_re, Hm in Hp.
  rewrite <- world_is_point_re in Hm.
  destruct (world_groups details Hm) as (x & y & qx & qy & -> & Hx & Hy).
  unfold group_text, to_float in Hp. simpl in Hp. rewrite Hx in Hp. simpl in Hp.
  rewrite Hy in Hp. discriminate Hp.
Qed.

End PointFacts.

(** ** Key lines *)

Module KeyLines.
Import Py Re ScriptParser ReSpec TranscriptSpec GrammarSpec.
Import ReFacts TextFacts ParserFacts ReEval MouseLines.
Local Open Scope re_scope.

Lemma AZ09_not_space a : isspace a = true -> cls_AZ09 a = false.
Proof.
  destruct a as [[] [] [] [] [] [] [] []]; intros H; try discriminate H; reflexivity.
Qed.

Lemma AZ09_alnum a : cls_AZ09 a = alnum a.
Proof. destruct a as [[] [] [] [] [] [] [] []]; reflexivity. Qed.

Lemma mouse_no_match_key pressed ws key tail :
  re_match MOUSE_RE (key_body pressed ws key tail) = None.
Proof. destruct pressed; reflexivity. Qed.

Lemma key_body_head pressed ws key tail :
  exists body', key_body pressed ws key tail = "o"%char :: body'.
Proof. unfold key_body. simpl. eauto. Qed.

Lemma key_body_tail pressed ws key tail :
  all_true not_newline (key_body pressed ws key tail) -> all_true not_newline tail.
Proof.
  unfold key_body, all_true. rewrite !Forall_app. intros (_ & _ & _ & H).
  now inversion H; subst; inversion H3.
Qed.

(** The key pattern on a body of the grammar whose key is in the class. *)
Lemma key_match pressed w ws key tail :
  all_true isspace (w :: ws) -> cls_AZ09 key = true ->
  tail <> [] -> all_true not_newline tail ->
  exists details,
    re_match KEY_RE (key_body pressed (w :: ws) key tail) =
    Some [(g_details, details); (g_key, [key]); (g_state, state_text pressed)].
Proof.
  intros Hws Hl Hne Hall.
  assert (Hsp : isspace key = false).
  { destruct (isspace key) eqn:E; auto. apply AZ09_not_space in E. congruence. }
  destruct (@tail_match [(g_key, [key]); (g_state, state_text pressed)] tail Hne Hall)
    as [details Ht].
  exists details. unfold re_match, KEY_RE, key_body, state_text at 1.
  rewrite run_seq, run_word, run_seq, run_grp.
  assert (Hrest : forall st x,
    exec (Star isspace;; Grp g_details (Plus not_newline)) tail
      [(g_key, [key]); (g_state, st)] (fun _ c => Some c) = Some x ->
    exec (Plus isspace;; Grp g_key (Cls cls_AZ09);; chr_i ":";; Star isspace;;
         Grp g_details (Plus not_newline))
      ((w :: ws) ++ key :: ":"%char :: tail) [(g_state, st)]
      (fun _ c => Some c) = Some x).
  { intros st x Hx. rewrite run_seq.
    apply run_plus_greedy; [assumption|exact Hsp|].
    rewrite run_seq, run_grp, run_cls_hit by assumption.
    rewrite (@consumed_suffix _ [key] (":"%char :: tail)) by reflexivity.
    rewrite run_seq. unfold chr_i. rewrite run_cls_hit by reflexivity. exact Hx. }
  destruct pressed;
    [change (state_text true) with (lit "Pressed") in *
    |change (state_text false) with (lit "Released") in *]; cbv iota.
  - rewrite run_alt, run_word, consumed_app.
    pose proof (Hrest _ _ Ht) as E. unfold str in *. now rewrite E.
  - rewrite run_alt.
    replace (exec (word_i (lit "Pressed")) (lit "Released" ++ _) _ _)
      with (@None captures) by reflexivity.
    rewrite run_word, consumed_app.
    pose proof (Hrest _ _ Ht) as E. unfold str in *. now rewrite E.
Qed.

Lemma key_no_match_class pressed w ws key tail :
  all_true isspace (w :: ws) -> cls_AZ09 key = false ->
  re_match KEY_RE (key_body pressed (w :: ws) key tail) = None.
Proof.
  intros Hws Hl. unfold re_match, KEY_RE, key_body, state_text.
  rewrite run_seq, run_word, run_seq, run_grp.
  assert (Hrest : forall c,
    exec (Plus isspace;; Grp g_key (Cls cls_AZ09);; chr_i ":";; Star isspace;;
         Grp g_details (Plus not_newline))
      ((w :: ws) ++ key :: ":"%char :: tail) c
      (fun _ c => Some c) = None).
  { intros c. inversion Hws; subst. unfold Plus. rewrite !run_seq. simpl app.
    rewrite run_cls_hit by assumption. cbn [exec].
    destruct (isspace key) eqn:Hsp.
    - change (ws ++ key :: ":"%char :: tail)
        with (ws ++ [key] ++ ":"%char :: tail).
      rewrite app_assoc.
      apply star_k_none with (q := cls_AZ09);
        first [ solve [auto using AZ09_not_space]
              | reflexivity
              | apply Forall_app; split; auto; constructor; auto
              | intros a s Ha; now rewrite Ha ].
    - apply star_k_none with (q := cls_AZ09);
        first [ solve [auto using AZ09_not_space]
              | reflexivity
              | intros a s Ha; now rewrite Ha ]. }
  destruct pressed; cbv iota; rewrite run_alt.
  - rewrite run_word, Hrest. reflexivity.
  - replace (exec (word_i (lit "Pressed")) (lit "Released" ++ _) _ _)
      with (@None captures) by reflexivity.
    rewrite run_word. apply Hrest.
Qed.

Lemma parse_line_key line idx ts q body m st k details :
  re_match DELTA_RE line = Some m ->
  m = [(g_body, body); (g_delta, ts)] -> float_of_str ts = Some q ->
  re_match MOUSE_RE body = None ->
  re_match KEY_RE body = Some [(g_details, details); (g_key, [k]); (g_state, st)] ->
  _parse_line line idx =
  Ok (mkEvent idx q 0
        (if str_eqb (str_lower st) (lit "pressed")
         then lit "key_press" else lit "key_release")
        (Some [k]) None None line).
Proof.
  intros Hm -> Hq Hmouse Hkey.
  unfold _parse_line. rewrite Hm. unfold group_text, to_float. simpl lookup.
  cbv beta iota. simpl bind_result at 1. rewrite Hq. simpl bind_result at 1.
  simpl bind_result at 1. rewrite Hmouse, Hkey. reflexivity.
Qed.

(** What [_parse_line] does with a key line of the grammar, according to
    its key. *)
Lemma parse_key_line ws0 seconds ws1 ws2 pressed w ws key tail idx :
  all_true isspace ws0 -> unsigned_decimal seconds ->
  all_true isspace ws1 -> all_true isspace ws2 ->
  all_true isspace (w :: ws) -> tail <> [] ->
  all_true not_newline (key_body pressed (w :: ws) key tail) ->
  let body := key_body pressed (w :: ws) key tail in
  let line := stamped ws0 seconds ws1 ws2 body in
  exists q, float_of_str seconds = Some q /\
  if cls_AZ09 key then
    _parse_line line idx =
    Ok (mkEvent idx q 0 (key_action pressed) (Some [key]) None None line)
  else if exit_form body then
    _parse_line line idx = Ok (mkEvent idx q 0 (lit "exit") None None None line)
  else
    _parse_line line idx = Raise (ValueError (lit "Unsupported event line: " ++ line)).
Proof.
  intros H0 Hs H1 H2 Hws Hne Hnl body line.
  destruct (float_of_unsigned Hs) as [q Hq]. exists q. split; [exact Hq|].
  assert (Hm : re_match DELTA_RE line = Some [(g_body, body); (g_delta, seconds)]).
  { unfold line. destruct (key_body_head pressed (w :: ws) key tail) as [body' E].
    unfold body in *. rewrite E in *. now apply delta_match. }
  pose proof (mouse_no_match_key pressed (w :: ws) key tail) as Hmouse.
  fold body in Hmouse.
  destruct (cls_AZ09 key) eqn:Hl.
  - destruct (key_match pressed w ws key tail Hws Hl Hne (key_body_tail _ _ _ _ Hnl))
      as [details Hkey].
    fold body in Hkey.
    rewrite (parse_line_key line idx seconds q body _ _ _ _ Hm eq_refl Hq Hmouse Hkey).
    destruct pressed; reflexivity.
  - pose proof (key_no_match_class pressed w ws key tail Hws Hl) as Hkey.
    fold body in Hkey.
    destruct (exit_form body) eqn:Hexit.
    + exact (parse_line_exit line idx Hm eq_refl Hq Hmouse Hkey Hexit).
    + apply parse_line_rejects with (body := body).
      * unfold body_of. now rewrite Hm.
      * unfold mouse_form, key_form, matched. now rewrite Hmouse, Hkey, Hexit.
Qed.

End KeyLines.

(** ** What a parsed event looks like *)

Module GrammarFacts.
Import Py Re ScriptParser ReSpec TranscriptSpec GrammarSpec RunnerSpec AutomationRunner.
Import ReFacts TextFacts ParserFacts ParserTheorems KeyLines CaptureFacts StealthFacts.
Local Open Scope Q_scope.

Lemma digits_val_nonneg s : forall acc, (0 <= acc)%Z -> (0 <= digits_val acc s)%Z.
Proof.
  induction s as [|c s IH]; intros acc H; cbn [digits_val]; auto.
  apply IH. unfold digit_val.
  pose proof (Nat2Z.is_nonneg (code c - 48)). lia.
Qed.

Lemma Some_Qred x q : Some (Qred x) = Some q -> q == x.
Proof.
  intros E. assert (E' : Qred x = q) by congruence.
  rewrite <- E'. apply Qred_correct.
Qed.

Lemma float_of_unsigned_nonneg s q :
  unsigned_decimal s -> float_of_str s = Some q -> 0 <= q.
Proof.
  intros [c ip H | c ip d fr H1 H2]; unfold float_of_str.
  - assert (Hc : is_digit c = true) by now inversion H.
    simpl app. cbv iota beta. rewrite (digit_not_minus _ Hc).
    rewrite (split_at_dot_digits H), (all_digits_intro H).
    intros Eq. apply Some_Qred in Eq. rewrite Eq. change 0 with (inject_Z 0). rewrite <- Zle_Qle.
    now apply digits_val_nonneg.
  - assert (Hc : is_digit c = true) by now inversion H1.
    change ((c :: ip) ++ "."%char :: d :: fr) with (c :: (ip ++ "."%char :: d :: fr)).
    cbv iota beta. rewrite (digit_not_minus _ Hc).
    change (c :: (ip ++ "."%char :: d :: fr)) with ((c :: ip) ++ "."%char :: d :: fr).
    rewrite (split_at_dot_point _ H1), (all_digits_intro H1), (all_digits_intro H2).
    intros Eq. apply Some_Qred in Eq. rewrite Eq. unfold Qle. cbn [Qnum Qden]. rewrite Z.mul_1_r, Z.mul_0_l.
    now apply digits_val_nonneg.
Qed.

Lemma delta_groups_unsigned line m :
  re_match DELTA_RE line = Some m ->
  exists ts body q,
    m = [(g_body, body); (g_delta, ts)] /\ unsigned_decimal ts /\
    float_of_str ts = Some q.
Proof.
  intros H. apply re_match_sound in H. destruct H as (pre & rest & -> & H).
  unfold DELTA_RE in H.
  do 3 inv_seq. inv_seq. inv_grp. use_unsigned.
  destruct (float_of_unsigned Hu) as [q Hq].
  unfold chr, Plus in *. inv_matches; eauto 10.
Qed.

(** Every event [_parse_line] returns has one of the three shapes, and a
    timestamp that is not negative. *)
Lemma parse_line_shape line idx e :
  _parse_line line idx = Ok e -> 0 <= timestamp e /\ parsed_event e.
Proof.
  intros H.
  destruct (re_match DELTA_RE line) as [m|] eqn:Hm;
    [|unfold _parse_line in H; rewrite Hm in H; discriminate H].
  destruct (delta_groups_unsigned _ _ Hm) as (ts & body & q & E & Hu & Hq).
  pose proof (float_of_unsigned_nonneg _ _ Hu Hq) as Hpos.
  destruct (re_match MOUSE_RE body) as [mm|] eqn:Hmouse.
  - destruct (parse_line_mouse line idx Hm E Hq Hmouse)
      as (st & b & details & wp & wd & _ & _ & Hp).
    rewrite Hp in H. injection H as <-. split; [exact Hpos|].
    exact (pe_mouse idx q 0 (str_eqb (str_lower st) (lit "pressed"))
                    (str_eqb (str_upper [b]) (lit "L")) wp wd line).
  - destruct (re_match KEY_RE body) as [km|] eqn:Hkey.
    + destruct (key_groups body Hkey) as (st & k & details & -> & Hk).
      rewrite (parse_line_key line idx ts q body m st k details Hm E Hq Hmouse Hkey) in H.
      injection H as <-. split; [exact Hpos|].
      apply (pe_key idx q 0 (str_eqb (str_lower st) (lit "pressed")) k line).
      now rewrite <- AZ09_alnum.
    + destruct (exit_form body) eqn:Hexit.
      * rewrite (parse_line_exit line idx Hm E Hq Hmouse Hkey Hexit) in H.
        injection H as <-. split; [exact Hpos|]. constructor.
      * rewrite (parse_line_rejects line idx (body := body)) in H; [discriminate H| |].
        -- unfold body_of. now rewrite Hm, E.
        -- unfold mouse_form, key_form, matched. now rewrite Hmouse, Hkey, Hexit.
Qed.

Lemma set_delta_shape e d : well_shaped e -> well_shaped (set_delta e d).
Proof.
  intros [Ht Hp]. split; [exact Ht|].
  destruct Hp; unfold set_delta; simpl; constructor; assumption.
Qed.

Lemma parse_lines_shape : forall lines acc events,
  parse_lines lines acc = Ok events ->
  Forall well_shaped acc -> Forall well_shaped events.
Proof.
  induction lines as [|raw_line lines IH]; intros acc events H Hacc; simpl in H.
  - now injection H as <-.
  - destruct (strip raw_line) as [|c line].
    + now apply (IH acc).
    + destruct (_parse_line (c :: line) (Z.of_nat (List.length acc))) as [e0|] eqn:Hl;
        simpl in H; [|discriminate H].
      apply (IH _ _ H). apply Forall_app. split; [exact Hacc|].
      constructor; [|constructor]. now apply parse_line_shape in Hl.
Qed.

Lemma assign_from_shape : forall events prev,
  Forall well_shaped events -> Forall well_shaped (assign_from prev events).
Proof.
  induction events as [|e events IH]; intros prev H; simpl; [constructor|].
  inversion H; subst. constructor; [now apply set_delta_shape|now apply IH].
Qed.

Lemma parse_shape lines events :
  parse lines = Ok events -> Forall well_shaped events.
Proof.
  intros H. destruct (parse_ok _ H) as (parsed & Hl & ->).
  apply parse_lines_shape in Hl; [|constructor].
  destruct parsed as [|e parsed]; [constructor|].
  unfold _assign_deltas. now apply assign_from_shape.
Qed.

(** ** Labels *)

Lemma alnum_safe k : alnum k = true -> unsafe_char k = false /\ k <> "_"%char.
Proof.
  destruct k as [[] [] [] [] [] [] [] []]; intros H; try discriminate H;
    split; first [reflexivity | discriminate].
Qed.

Lemma parsed_label_clean e : parsed_event e -> clean_label (label e).
Proof.
  intros [idx ts d pressed left wp wd line | idx ts d pressed key line Hk | idx ts d line].
  - destruct pressed, left; unfold clean_label; simpl;
      (split; [discriminate|]); (split; [|split; discriminate]);
      repeat constructor.
  - destruct (alnum_safe key Hk) as [Hs Hu].
    destruct pressed; unfold clean_label; simpl;
      (split; [discriminate|]); (split; [|split; [discriminate|exact Hu]]);
      repeat (constructor; [first [reflexivity | exact Hs]|]); constructor.
  - unfold clean_label; simpl.
    (split; [discriminate|]); (split; [|split; discriminate]); repeat constructor.
Qed.

(** ** Timestamps and deltas *)

Lemma total_app xs ys : total (xs ++ ys) == total xs + total ys.
Proof. induction xs as [|x xs IH]; simpl; [ring|]. rewrite IH. ring. Qed.

Lemma firstn_S_nth (A : Type) : forall (l : list A) k e,
  nth_error l k = Some e -> firstn (S k) l = firstn k l ++ [e].
Proof.
  induction l as [|a l IH]; intros [|k] e H; try discriminate H.
  - simpl in H. injection H as ->. destruct l; reflexivity.
  - simpl in H. change (firstn (S (S k)) (a :: l)) with (a :: firstn (S k) l).
    rewrite (IH k e H). reflexivity.
Qed.

Lemma clamp_of_nonneg d : 0 <= d -> clamp d = d.
Proof.
  intros H. unfold clamp. destruct (fltb d 0) eqn:E; [|reflexivity].
  apply fltb_true in E. lra.
Qed.

Lemma clamp_le d x : d <= x -> 0 <= x -> clamp d <= x.
Proof. intros H Hx. unfold clamp. destruct (fltb d 0); assumption. Qed.

End GrammarFacts.

Module GrammarTheorems.
Import Py Re ScriptParser ReSpec TranscriptSpec GrammarSpec RunnerSpec AutomationRunner.
Import ReFacts TextFacts ParserFacts ParserTheorems KeyLines PointFacts CaptureFacts.
Import StealthFacts GrammarFacts.
Local Open Scope Q_scope.









End GrammarTheorems.

(** ** The schedule of a replay *)

Module ScheduleFacts.
Import Py Re ScriptParser ReSpec TranscriptSpec GrammarSpec.
Import ParserFacts ParserTheorems StealthFacts GrammarFacts.
Local Open Scope Q_scope.

Lemma prev_nonneg parsed k : Forall well_shaped parsed -> 0 <= prev_timestamp parsed k.
Proof.
  intros H. destruct k as [|j]; simpl; [lra|].
  destruct (nth_error parsed j) as [e|] eqn:E; [|lra].
  rewrite Forall_forall in H. exact (proj1 (H e (nth_error_In _ _ E))).
Qed.

(** The delta of event [k], and where its timestamp lies. *)
Lemma parsed_delta lines events k e :
  parse lines = Ok events -> nth_error events k = Some e ->
  delta e = clamp (fsub (timestamp e) (prev_timestamp events k)) /\
  0 <= timestamp e /\ 0 <= prev_timestamp events k.
Proof.
  intros Hp Hk. pose proof (parse_shape lines events Hp) as Hall.
  destruct (parse_ok _ Hp) as (parsed & _ & ->).
  split; [|split].
  - rewrite prev_timestamp_assign. rewrite assign_deltas_nth in Hk.
    destruct (nth_error parsed k) as [e'|]; [|discriminate Hk].
    injection Hk as <-. reflexivity.
  - rewrite Forall_forall in Hall. exact (proj1 (Hall e (nth_error_In _ _ Hk))).
  - now apply prev_nonneg.
Qed.

Lemma nth_error_before (A : Type) (l : list A) j e :
  nth_error l (S j) = Some e -> exists e', nth_error l j = Some e'.
Proof.
  intros H. destruct (nth_error l j) as [e'|] eqn:E; eauto.
  apply nth_error_None in E.
  assert (S j < List.length l)%nat by (apply nth_error_Some; congruence). lia.
Qed.

Lemma deltas_telescope lines events :
  parse lines = Ok events -> ascending events ->
  forall k e, nth_error events k = Some e ->
    total (map delta (firstn (S k) events)) == timestamp e.
Proof.
  intros Hp Hasc. induction k as [|j IH]; intros e Hk.
  - destruct (parsed_delta lines events 0 e Hp Hk) as (Hd & Ht & _).
    rewrite (firstn_S_nth _ _ _ _ Hk). simpl. rewrite Hd. simpl prev_timestamp.
    rewrite clamp_of_nonneg; rewrite fsub_eq; lra.
  - destruct (nth_error_before _ _ _ _ Hk) as [ej Hj].
    destruct (parsed_delta lines events (S j) e Hp Hk) as (Hd & Ht & _).
    rewrite (firstn_S_nth _ _ _ _ Hk), map_app, total_app, (IH ej Hj).
    simpl. rewrite Hd. simpl prev_timestamp. rewrite Hj.
    pose proof (Hasc j ej e Hj Hk) as Hle.
    rewrite clamp_of_nonneg; rewrite fsub_eq; lra.
Qed.

Lemma no_nonblank_iff lines :
  filter nonblank lines = [] <-> forallb blank lines = true.
Proof.
  induction lines as [|l lines IH]; simpl; [tauto|].
  unfold nonblank at 1. destruct (blank l); simpl; [exact IH|split; discriminate].
Qed.

End ScheduleFacts.

Module ScheduleTheorems.
Import Py Re ScriptParser ReSpec TranscriptSpec GrammarSpec.
Import ParserFacts ParserTheorems StealthFacts GrammarFacts ScheduleFacts.
Local Open Scope Q_scope.



(** X6. [parse] returns no events exactly when every line is blank --
    empty or white space only -- the transcript without lines included. *)
Theorem no_events_iff_all_lines_blank :
  forall lines, parse lines = Ok [] <-> forallb blank lines = true.
Proof.
  intros lines. split.
  - intros Hp. destruct (parse_ok _ Hp) as (parsed & Hl & E).
    assert (Hnil : parsed = []).
    { destruct parsed; [reflexivity|]. symmetry in E.
      apply (f_equal (@List.length Event)) in E.
      rewrite assign_deltas_length in E. discriminate E. }
    subst parsed. apply parse_lines_spec in Hl.
    destruct Hl as (new & E' & Hlen & _). simpl in E'. subst new. simpl in Hlen.
    symmetry in Hlen. apply length_zero_iff_nil in Hlen.
    now apply no_nonblank_iff.
  - intros H. apply no_nonblank_iff in H. rename H into Hf.
    unfold parse. rewrite <- parse_lines_skips_blank, Hf. reflexivity.
Qed.

End ScheduleTheorems.

(** ** Waiting for the window and for the exit *)

Module WaitFacts.
Import Py RunnerSpec ReplaySpec AutomationRunner.
Import RunnerFacts CaptureFacts StealthFacts.
Local Open Scope m_scope.
Local Open Scope Q_scope.

Lemma now_pause w : now (pause w) == now w + (1 # 5).
Proof. unfold pause, Sys.sleep. cbn [fltb Qle_bool]. simpl. rewrite fadd_eq. lra. Qed.

Lemma trace_pause w : trace (pause w) = trace w ++ [E_sleep (2 # 10)].
Proof. reflexivity. Qed.

Section Windows.
Variable B : Backend.
Variable config : AutomationConfig.
Hypothesis absent : nothing_there B.

Lemma wait_windows_pass fuel deadline p s w :
  fltb (now w) deadline = true ->
  wait_for_window_windows_loop B config (S fuel) deadline p s w =
  wait_for_window_windows_loop B config fuel deadline p s (pause w).
Proof.
  intros Hlt. cbn [wait_for_window_windows_loop].
  rewrite (bind_ok _ _ (lift Sys.time) _ s w (now w) s w eq_refl). rewrite Hlt.
  unfold bind at 1, try_except, bind at 1, lift at 1.
  destruct (absent p (window_title config) w) as [E|E]; rewrite E; reflexivity.
Qed.

Lemma wait_windows_stop fuel deadline p s w :
  fltb (now w) deadline = false ->
  wait_for_window_windows_loop B config (S fuel) deadline p s w =
  Some (Raise lookup_timeout, s, w).
Proof.
  intros Hlt. cbn [wait_for_window_windows_loop].
  rewrite (bind_ok _ _ (lift Sys.time) _ s w (now w) s w eq_refl). now rewrite Hlt.
Qed.

Lemma wait_windows_polls deadline p s : forall m fuel w,
  (m < fuel)%nat ->
  deadline <= now w + inject_Z (Z.of_nat m) * (1 # 5) ->
  ((0 < m)%nat -> now w + inject_Z (Z.of_nat m) * (1 # 5) - (1 # 5) < deadline) ->
  exists w',
    wait_for_window_windows_loop B config fuel deadline p s w =
    Some (Raise lookup_timeout, s, w') /\
    trace w' = trace w ++ repeat (E_sleep (2 # 10)) m /\
    now w' == now w + inject_Z (Z.of_nat m) * (1 # 5).
Proof.
  induction m as [|m IH]; intros fuel w Hfuel HA HB;
    (destruct fuel as [|fuel]; [lia|]).
  - exists w. change (inject_Z (Z.of_nat 0)) with 0 in *.
    rewrite wait_windows_stop by (apply fltb_false; lra).
    split; [reflexivity|]. split; [now rewrite app_nil_r|lra].
  - assert (Hn : inject_Z (Z.of_nat (S m)) == inject_Z (Z.of_nat m) + 1).
    { rewrite Nat2Z.inj_succ, <- Z.add_1_r, inject_Z_plus. reflexivity. }
    rewrite Hn in HA, HB.
    assert (Hm : 0 <= inject_Z (Z.of_nat m)).
    { change 0 with (inject_Z 0). rewrite <- Zle_Qle. lia. }
    specialize (HB ltac:(lia)).
    rewrite wait_windows_pass by (apply fltb_true; lra).
    destruct (IH fuel (pause w)) as (w' & Hrun & Ht & Hnow).
    + lia.
    + rewrite now_pause. lra.
    + intros _. rewrite now_pause. lra.
    + exists w'. split; [exact Hrun|]. split.
      * rewrite Ht, trace_pause, <- app_assoc. reflexivity.
      * rewrite Hnow, now_pause, Hn. lra.
Qed.
End Windows.

Lemma lookups_cover (timeout : Q) :
  0 < timeout ->
  let n := inject_Z (Z.of_nat (lookups timeout)) in
  timeout <= n * (1 # 5) /\ n * (1 # 5) - (1 # 5) < timeout /\ (0 < lookups timeout)%nat.
Proof.
  intros Hpos n. unfold n, lookups.
  pose proof (Qle_ceiling (timeout * 5)) as Hle.
  pose proof (Qceiling_lt (timeout * 5)) as Hlt.
  unfold Z.sub in Hlt. rewrite inject_Z_plus, inject_Z_opp in Hlt.
  change (inject_Z 1) with 1 in Hlt.
  set (c := Qceiling (timeout * 5)) in *.
  assert (Hx : 0 < inject_Z c).
  { generalize dependent (inject_Z c). intros x Hle Hlt. lra. }
  assert (Hc : (0 < c)%Z).
  { rewrite Zlt_Qlt. exact Hx. }
  rewrite Z2Nat.id by lia.
  split; [|split; [|lia]];
    generalize dependent (inject_Z c); intros x Hle Hlt Hx; lra.
Qed.

End WaitFacts.

Module WaitTheorems.
Import Py RunnerSpec ReplaySpec AutomationRunner.
Import RunnerFacts CaptureFacts StealthFacts WaitFacts.
Local Open Scope m_scope.
Local Open Scope Q_scope.



(** X8. Off Linux, [_await_exit] with a positive exit timeout always
    returns normally, whatever the fuel: it waits once. A child that is
    gone within the timeout costs no more than the time it took to go; a
    child that outlives the timeout costs the whole timeout and one
    warning in the log, not an error, and is still running afterwards. *)
Theorem await_exit_never_raises_off_linux :
  forall B config fuel p s w,
    0 < exit_timeout config ->
    exists w',
      _await_exit false B config fuel p s w = Some (Ok tt, s, w') /\
      if exits_within (exit_timeout config) w then
        trace w' = trace w ++ [E_wait (exit_timeout config)] /\
        alive w' = false /\ now w' <= now w + exit_timeout config
      else
        trace w' =
        trace w ++
        [E_wait (exit_timeout config);
         E_log WARNING (lit "Process did not exit within %.1f seconds") None] /\
        alive w' = true /\ now w' == now w + exit_timeout config.
Proof.
  intros B config fuel p s w Hpos. unfold _await_exit.
  assert (Hf : fleb (exit_timeout config) 0 = false) by (apply fleb_false; exact Hpos).
  rewrite Hf. unfold exits_within, try_except, bind, lift, Sys.wait, logging, Sys.log, ret.
  destruct (exit_at w) as [t|] eqn:Hexit.
  - destruct (fleb t (fadd (now w) (exit_timeout config))) eqn:Hin.
    + eexists. split; [reflexivity|]. split; [reflexivity|]. split.
      * unfold alive. cbn [exit_at emit set_now now]. rewrite Hexit.
        apply fmax_not_below.
      * cbn [emit set_now now]. apply fleb_true in Hin. rewrite fadd_eq in Hin.
        unfold fmax. destruct (fltb (now w) t); lra.
    + eexists. split; [reflexivity|]. split.
      * cbn [emit set_now trace]. now rewrite <- app_assoc.
      * split.
        -- unfold alive. cbn [exit_at emit set_now now]. rewrite Hexit.
           apply fltb_true. now apply fleb_false in Hin.
        -- cbn [emit set_now now]. apply fadd_eq.
  - eexists. split; [reflexivity|]. split.
    + cbn [emit set_now trace]. now rewrite <- app_assoc.
    + split.
      * unfold alive. cbn [exit_at emit set_now now]. now rewrite Hexit.
      * cbn [emit set_now now]. apply fadd_eq.
Qed.

Lemma await_exit_never_raises_off_linux_witness :
  exists w',
    _await_exit false empty_desktop stealth_config 0 (pid fresh_world)
                (mkSelf 3) fresh_world = Some (Ok tt, mkSelf 3, w') /\
    trace w' =
    [E_wait 10; E_log WARNING (lit "Process did not exit within %.1f seconds") None] /\
    now w' == 10.
Proof.
  assert (Hpos : 0 < exit_timeout stealth_config) by reflexivity.
  destruct (await_exit_never_raises_off_linux empty_desktop stealth_config 0
              (pid fresh_world) (mkSelf 3) fresh_world Hpos) as (w' & Hrun & H).
  exists w'. split; [exact Hrun|].
  change (exits_within (exit_timeout stealth_config) fresh_world) with false in H.
  destruct H as (Ht & _ & Hnow). split; [exact Ht|exact Hnow].
Defined.

End WaitTheorems.

(** ** A replay on the steady desktop *)

Module ReplayFacts.
Import Py RunnerSpec ReplaySpec AutomationRunner.
Import RunnerFacts CaptureFacts StealthFacts WaitFacts.
Local Open Scope m_scope.
Local Open Scope Q_scope.

Lemma quiet_ret (A : Type) (a : A) : quiet_to a (ret a).
Proof. intros s w. exists w. auto. Qed.

Lemma quiet_bind (A C : Type) (a : A) (c : C) (m : M A) (k : A -> M C) :
  quiet_to a m -> quiet_to c (k a) -> quiet_to c (bind m k).
Proof.
  intros Hm Hk s w. destruct (Hm s w) as (w1 & E1 & F1).
  destruct (Hk s w1) as (w2 & E2 & F2).
  exists w2. unfold bind. rewrite E1, E2. split; [reflexivity|congruence].
Qed.

Lemma quiet_then (A : Type) (a : A) (m : M unit) (k : M A) :
  quiet_to tt m -> quiet_to a k -> quiet_to a (bind m (fun _ => k)).
Proof. intros Hm Hk. now apply (quiet_bind _ _ tt a m (fun _ => k)). Qed.

Lemma quiet_pure (A : Type) (a : A) (io : IO A) :
  (forall w, io w = (Ok a, w)) -> quiet_to a (lift io).
Proof. intros H s w. exists w. unfold lift. rewrite H. auto. Qed.

Lemma quiet_log lvl fmt exc : quiet_to tt (lift (Sys.log lvl fmt exc)).
Proof.
  intros s w. eexists. split; [reflexivity|].
  rewrite frames_emit. apply app_nil_r.
Qed.

Lemma quiet_sleep d : 0 <= d -> quiet_to tt (time_sleep d).
Proof.
  intros H s w. unfold time_sleep, lift, Sys.sleep.
  assert (E : fltb d 0 = false) by now apply fltb_false.
  rewrite E. eexists. split; [reflexivity|].
  rewrite frames_emit. apply app_nil_r.
Qed.

Lemma quiet_sleep_if d : quiet_to tt (if fltb 0 d then time_sleep d else ret tt).
Proof.
  destruct (fltb 0 d) eqn:E; [|apply quiet_ret].
  apply quiet_sleep. apply fltb_true in E. lra.
Qed.

Lemma quiet_try (A : Type) (a : A) (body : M A) catches handler :
  quiet_to a body -> quiet_to a (try_except body catches handler).
Proof.
  intros H s w. destruct (H s w) as (w' & E & F).
  exists w'. unfold try_except. rewrite E. auto.
Qed.

Lemma bind_quiet (A C : Type) (a : A) (m : M A) (k : A -> M C) s w :
  quiet_to a m -> exists w1, frames w1 = frames w /\ bind m k s w = k a s w1.
Proof.
  intros H. destruct (H s w) as (w1 & E & F).
  exists w1. split; [exact F|]. unfold bind. now rewrite E.
Qed.

(** Runs the first step of the computation in the goal, which is quiet. *)
Ltac quiet_step a H :=
  match goal with
  | |- context [@bind ?A ?C ?m ?k ?s ?w] =>
      let w1 := fresh "w" in
      let F := fresh "F" in
      let E := fresh "E" in
      destruct (bind_quiet A C a m k s w H) as (w1 & F & E);
      rewrite E; clear E; cbv beta
  end.

Section Steady.
Variable latency : float.
Variable config : AutomationConfig.

Let B := steady_desktop latency.

Lemma quiet_sleep_before_capture : quiet_to tt (_sleep_before_capture config).
Proof. apply quiet_sleep_if. Qed.

Lemma quiet_send_mouse window event press :
  quiet_to tt (_send_mouse_windows B config window event press).
Proof.
  unfold _send_mouse_windows.
  apply (quiet_bind _ _ (window_point event) tt).
  - destruct (window_point event) as [pt|]; [|apply quiet_ret].
    apply quiet_try. apply (quiet_bind _ _ pt (Some pt)); [|apply quiet_ret].
    apply quiet_pure. reflexivity.
  - apply quiet_then.
    + destruct (window_point event) as [[x y]|]; [|apply quiet_ret].
      destruct (fltb 0 (pointer_duration config)); apply quiet_pure; reflexivity.
    + destruct press; apply quiet_pure; reflexivity.
Qed.

Lemma quiet_send_key event : quiet_to tt (_send_key_windows B event).
Proof.
  unfold _send_key_windows. destruct (button event) as [[|c key]|];
    first [apply quiet_ret | apply quiet_pure; reflexivity].
Qed.

(** A picture with the next number. *)
Lemma shot window label s w :
  exists w',
    (let! path := _next_capture_path config label in
     _sleep_before_capture config >> _capture_window_windows B window path) s w =
    Some (Ok tt, mkSelf (_capture_index s + 1), w') /\
    frames w' =
    frames w ++ [in_screenshot_dir config (capture_filename (_capture_index s) label)].
Proof.
  set (path := in_screenshot_dir config (capture_filename (_capture_index s) label)).
  rewrite (bind_ok _ _ (_next_capture_path config label) _ s w path
             (mkSelf (_capture_index s + 1)) w eq_refl).
  quiet_step tt quiet_sleep_before_capture.
  exists (snd (shoot latency path w0)). split; [reflexivity|].
  now rewrite frames_shoot, F.
Qed.

Lemma handle_event_steady window event s w :
  exists w',
    _handle_event_windows B config window event s w =
    Some (Ok tt, mkSelf (_capture_index s + 1), w') /\
    frames w' =
    frames w ++
    [in_screenshot_dir config (capture_filename (_capture_index s) (event_label event))].
Proof.
  unfold _handle_event_windows.
  quiet_step tt (quiet_log INFO "Event %03d: %s" None). rename w0 into w1, F into F1.
  quiet_step tt (quiet_sleep_if (delta event)). rename w0 into w2, F into F2.
  assert (Hshot : forall w3, frames w3 = frames w2 ->
    exists w',
      (let! screenshot_path := _event_screenshot_path config event in
       _sleep_before_capture config >>
       _capture_window_windows B window screenshot_path) s w3 =
      Some (Ok tt, mkSelf (_capture_index s + 1), w') /\
      frames w' =
      frames w ++
      [in_screenshot_dir config
         (capture_filename (_capture_index s) (event_label event))]).
  { intros w3 F3. destruct (shot window (event_label event) s w3) as (w' & E & F).
    exists w'. split; [exact E|]. now rewrite F, F3, F2, F1. }
  assert (Hother : forall m : M unit, quiet_to tt m ->
    exists w',
      (let! returned := m >> ret false in
       if returned then ret tt
       else
         let! screenshot_path := _event_screenshot_path config event in
         _sleep_before_capture config >>
         _capture_window_windows B window screenshot_path) s w2 =
      Some (Ok tt, mkSelf (_capture_index s + 1), w') /\
      frames w' =
      frames w ++
      [in_screenshot_dir config
         (capture_filename (_capture_index s) (event_label event))]).
  { intros m Hm.
    quiet_step false (quiet_then _ false m (ret false) Hm (quiet_ret _ false)).
    now apply Hshot. }
  destruct (str_eqb (action event) (lit "mouse_press"));
    [apply Hother, quiet_send_mouse|].
  destruct (str_eqb (action event) (lit "mouse_release"));
    [apply Hother, quiet_send_mouse|].
  destruct (str_eqb (action event) (lit "key_press"));
    [apply Hother, quiet_send_key|].
  destruct (str_eqb (action event) (lit "key_release"));
    [apply Hother, quiet_log|].
  destruct (str_eqb (action event) (lit "exit"));
    [|apply Hother, quiet_log].
  destruct (Hshot w2 eq_refl) as (w3 & E3 & F3).
  unfold bind at 1. unfold bind at 1.
  unfold _event_screenshot_path in E3 |- *.
  unfold bind at 1 in E3.
  destruct (_next_capture_path config _ s w2) as [[[[path|e] s1] w2']|] eqn:Ep;
    try discriminate E3.
  unfold bind at 1. unfold bind at 1 in E3.
  destruct (_sleep_before_capture config s1 w2') as [[[[[]|e] s2] w2'']|] eqn:Es;
    try discriminate E3.
  unfold bind at 1. rewrite E3.
  quiet_step tt (quiet_try _ tt (lift (win_close B window)) is_Exception
                   (fun exc => logging_exc DEBUG "Window close via UI failed: %s" exc)
                   (quiet_pure _ tt (win_close B window) (fun w => eq_refl))).
  exists w0. split; [reflexivity|]. now rewrite F.
Qed.

Lemma replay_events_steady window : forall events s w,
  exists w',
    for_each events (fun event => _handle_event_windows B config window event) s w =
    Some (Ok tt, mkSelf (_capture_index s + List.length events), w') /\
    frames w' = frames w ++ event_paths config (_capture_index s) events.
Proof.
  induction events as [|event events IH]; intros s w.
  - exists w. destruct s as [idx]. cbn [for_each ret _capture_index List.length].
    rewrite Nat.add_0_r, app_nil_r. auto.
  - destruct (handle_event_steady window event s w) as (w1 & E1 & F1).
    destruct (IH (mkSelf (_capture_index s + 1)) w1) as (w2 & E2 & F2).
    exists w2. cbn [for_each]. rewrite (bind_ok _ _ _ _ _ _ _ _ _ E1), E2.
    cbn [_capture_index List.length event_paths]. split.
    + do 3 f_equal. f_equal. lia.
    + rewrite F2, F1, <- app_assoc, Nat.add_1_r. reflexivity.
Qed.

Hypothesis patient : 0 < window_timeout config.

Lemma window_found fuel p s w :
  _wait_for_window_windows B config (S fuel) p s w = Some (Ok 1%Z, s, w).
Proof.
  unfold _wait_for_window_windows.
  rewrite (bind_ok _ _ (lift Sys.time) _ s w (now w) s w eq_refl).
  cbn [wait_for_window_windows_loop].
  rewrite (bind_ok _ _ (lift Sys.time) _ s w (now w) s w eq_refl).
  assert (E : fltb (now w) (fadd (now w) (window_timeout config)) = true).
  { apply fltb_true. rewrite fadd_eq. lra. }
  rewrite E. reflexivity.
Qed.

Lemma launch_steady fuel p s w :
  0 <= launch_wait config ->
  exists w',
    until_after_launch false B config (S fuel) p s w =
    Some (Ok 1%Z, mkSelf (_capture_index s + 1), w') /\
    frames w' =
    frames w ++
    [in_screenshot_dir config (capture_filename (_capture_index s) (lit "after_launch"))].
Proof.
  intros Hwait. unfold until_after_launch.
  rewrite (bind_ok _ _ _ _ _ _ _ _ _ (window_found fuel p s w)).
  quiet_step tt (quiet_log INFO "Window ready: %s" None). rename w0 into w1, F into F1.
  quiet_step tt (quiet_sleep _ Hwait). rename w0 into w2, F into F2.
  quiet_step tt quiet_sleep_before_capture. rename w0 into w3, F into F3.
  set (path := in_screenshot_dir config
                 (capture_filename (_capture_index s) (lit "after_launch"))).
  rewrite (bind_ok _ _ (_next_capture_path config (lit "after_launch")) _ s w3 path
             (mkSelf (_capture_index s + 1)) w3 eq_refl).
  exists (snd (shoot latency path w3)). split; [reflexivity|].
  now rewrite frames_shoot, F3, F2, F1.
Qed.

Lemma launch_refused fuel p s w :
  launch_wait config < 0 ->
  until_after_launch false B config (S fuel) p s w =
  Some (Raise negative_sleep, s, emit w (E_log INFO (lit "Window ready: %s") None)).
Proof.
  intros Hwait. unfold until_after_launch.
  rewrite (bind_ok _ _ _ _ _ _ _ _ _ (window_found fuel p s w)).
  rewrite (bind_ok _ _ (logging INFO "Window ready: %s") _ s w tt s
             (emit w (E_log INFO (lit "Window ready: %s") None)) eq_refl).
  unfold bind at 1, time_sleep, lift, Sys.sleep.
  assert (E : fltb (launch_wait config) 0 = true) by now apply fltb_true.
  cbn [now emit]. rewrite E. reflexivity.
Qed.
End Steady.

End ReplayFacts.

Module ReplayTheorems.
Import Py RunnerSpec ReplaySpec AutomationRunner.
Import RunnerFacts CaptureFacts StealthFacts WaitFacts ReplayFacts.
Local Open Scope m_scope.
Local Open Scope Q_scope.

Lemma frames_launched config fmt w : frames (launched config fmt w) = frames w.
Proof. unfold launched. rewrite !frames_emit. simpl. now rewrite !app_nil_r. Qed.

Lemma finally_frames (body : M unit) s w r s1 w1 :
  body s w = Some (r, s1, w1) ->
  exists w2,
    try_finally body _cleanup_process s w = Some (r, s1, w2) /\
    frames w2 = frames w1 /\ alive w2 = false /\
    trace w2 = trace w1 ++ (if alive w1 then cleanup_effects w1 else []).
Proof.
  intros H. destruct (@try_finally_cleanup _ body s w r s1 w1 H) as (w2 & E & Ha & Ht).
  exists w2. split; [exact E|]. split; [|split; [exact Ha|exact Ht]].
  unfold frames. rewrite Ht, frames_of_app.
  destruct (alive w1); [rewrite frames_of_cleanup|]; apply app_nil_r.
Qed.







(** X12. Once [run_stealth] has spawned the process, however its [try]
    block ends -- normally or with any error -- [_cleanup_process] runs
    before [run_stealth] hands that outcome to its caller, on either
    platform and with any backend: a child that still runs is asked to
    terminate, waited on for 5 seconds and killed if it is still there, and
    no child is left running. *)
Theorem stealth_run_cleans_up :
  forall IS_LINUX B config fuel delta_ms length_ms s w text,
    Sys.read (exe_path config) (files w) = Some text ->
    let w0 := launched config "Launching %s (stealth)" w in
    In (E_spawn (exe_path config)) (trace w0) /\
    forall r s1 w1,
      run_stealth_try IS_LINUX B config fuel delta_ms length_ms (pid w) s w0 =
      Some (r, s1, w1) ->
      exists w2,
        run_stealth IS_LINUX B config fuel delta_ms length_ms s w = Some (r, s1, w2) /\
        alive w2 = false /\
        trace w2 = trace w1 ++ (if alive w1 then cleanup_effects w1 else []).
Proof.
  intros IS_LINUX B config fuel delta_ms length_ms s w text Hexe w0. split.
  - unfold w0, launched, emit. simpl. apply in_or_app. right. now left.
  - intros r s1 w1 H.
    rewrite (@run_stealth_found IS_LINUX B config fuel delta_ms length_ms s w text Hexe).
    now apply try_finally_cleanup.
Qed.

Lemma stealth_run_cleans_up_witness :
  exists w2,
    run_stealth false empty_desktop timeout_config 10 50 200 (mkSelf 0) stubborn_child =
    Some (Raise lookup_timeout, mkSelf 0, w2) /\
    alive w2 = false /\
    exists before,
      trace w2 =
      before ++
      [E_log INFO (lit "Terminating process %s") None; E_terminate; E_wait 5;
       E_log INFO (lit "Force killing hung process %s") None; E_kill].
Proof.
  destruct (run_stealth_try false empty_desktop timeout_config 10 50 200
              (pid stubborn_child) (mkSelf 0)
              (launched timeout_config "Launching %s (stealth)" stubborn_child))
    as [[[r s1] w1]|] eqn:E; [|discriminate E].
  assert (Hr : r = Raise lookup_timeout /\ s1 = mkSelf 0 /\ alive w1 = true /\
               gone_within 5 w1 = false).
  { vm_compute in E. inversion E. subst. repeat split; reflexivity. }
  destruct Hr as (-> & -> & Ha & Hg).
  destruct (proj2 (stealth_run_cleans_up false empty_desktop timeout_config 10 50 200
                     (mkSelf 0) stubborn_child [] eq_refl) _ _ _ E)
    as (w2 & Hrun & Hdead & Ht).
  exists w2. split; [exact Hrun|]. split; [exact Hdead|].
  exists (trace w1). rewrite Ht, Ha. unfold cleanup_effects. now rewrite Hg.
Defined.

End ReplayTheorems.

(** ** The modes of [main] *)

Module ModesFacts.
Import Py RunnerSpec ReplaySpec ModesSpec AutomationRunner MainModes.
Import RunnerFacts StealthFacts WaitFacts.
Local Open Scope m_scope.
Local Open Scope Q_scope.

Lemma interruptible_interrupt message (body : M unit) s w s1 w1 :
  body s w = Some (Raise KeyboardInterrupt, s1, w1) ->
  interruptible message body s w =
  Some (Raise (SystemExit (exit_status 0)), s1, emit w1 (interrupted message)).
Proof. intros H. unfold interruptible, try_except. now rewrite H. Qed.

Lemma interruptible_other message (body : M unit) s w r s1 w1 :
  body s w = Some (r, s1, w1) -> r <> Raise KeyboardInterrupt ->
  interruptible message body s w = Some (r, s1, w1).
Proof.
  intros H Hr. unfold interruptible, try_except. rewrite H.
  destruct r as [a|e]; [reflexivity|].
  destruct e; try reflexivity. now destruct Hr.
Qed.

Lemma wait_interrupted config fuel p s w :
  0 < window_timeout config ->
  _wait_for_window_windows interrupted_desktop config (S fuel) p s w =
  Some (Raise KeyboardInterrupt, s, w).
Proof.
  intros Hpat. unfold _wait_for_window_windows.
  rewrite (bind_ok _ _ (lift Sys.time) _ s w (now w) s w eq_refl).
  cbn [wait_for_window_windows_loop].
  rewrite (bind_ok _ _ (lift Sys.time) _ s w (now w) s w eq_refl).
  assert (E : fltb (now w) (fadd (now w) (window_timeout config)) = true).
  { apply fltb_true. rewrite fadd_eq. lra. }
  rewrite E. reflexivity.
Qed.

(** A replay that is interrupted while it looks for the window. *)
Lemma run_interrupted config fuel events s w text :
  Sys.read (exe_path config) (files w) = Some text ->
  0 < window_timeout config ->
  exists w',
    run false interrupted_desktop config (S fuel) events s w =
    Some (Raise KeyboardInterrupt, s, w') /\
    alive w' = false /\
    trace w' =
    trace (launched config "Launching %s" w) ++
    (if alive w then cleanup_effects (launched config "Launching %s" w) else []).
Proof.
  intros Hexe Hpat.
  pose proof (wait_interrupted config fuel (pid w) s
                (launched config "Launching %s" w) Hpat) as Hw.
  pose proof (@run_try_window_error false interrupted_desktop config (S fuel) events
                (pid w) s (launched config "Launching %s" w) KeyboardInterrupt s
                (launched config "Launching %s" w) Hw) as Ht.
  destruct (@run_finalizes false interrupted_desktop config (S fuel) events s w text
              (Raise KeyboardInterrupt) s (launched config "Launching %s" w) Hexe Ht)
    as (w2 & E & Ha & Htr).
  exists w2. split; [exact E|]. split; [exact Ha|exact Htr].
Qed.

Lemma stealth_interrupted config fuel delta_ms length_ms s w text :
  Sys.read (exe_path config) (files w) = Some text ->
  0 < window_timeout config ->
  exists w',
    run_stealth false interrupted_desktop config (S fuel) delta_ms length_ms s w =
    Some (Raise KeyboardInterrupt, s, w') /\
    alive w' = false /\
    trace w' =
    trace (launched config "Launching %s (stealth)" w) ++
    (if alive w then cleanup_effects (launched config "Launching %s (stealth)" w)
     else []).
Proof.
  intros Hexe Hpat.
  rewrite (@run_stealth_found false interrupted_desktop config (S fuel) delta_ms
             length_ms s w text Hexe).
  pose proof (wait_interrupted config fuel (pid w) s
                (launched config "Launching %s (stealth)" w) Hpat) as Hw.
  assert (Ht :
    run_stealth_try false interrupted_desktop config (S fuel) delta_ms length_ms
                    (pid w) s (launched config "Launching %s (stealth)" w) =
    Some (Raise KeyboardInterrupt, s, launched config "Launching %s (stealth)" w)).
  { unfold run_stealth_try, until_after_launch, bind at 1 2. now rewrite Hw. }
  destruct (@try_finally_cleanup _ _ _ _ _ _ _ Ht) as (w2 & E & Ha & Htr).
  exists w2. split; [exact E|]. split; [exact Ha|exact Htr].
Qed.

End ModesFacts.

Module ModesTheorems.
Import Py RunnerSpec ReplaySpec ModesSpec TranscriptSpec AutomationRunner MainModes.
Import RunnerFacts StealthFacts WaitFacts ParserTheorems ModesFacts.
Local Open Scope m_scope.
Local Open Scope Q_scope.



(** X14. Comparison mode asks for exactly two input directories but
    [main] only refuses none: given one directory, or three or more, and
    an output directory, it calls [generate_comparison], whose own check
    ends the run with [ValueError] -- not [SystemExit] -- before anything
    is read or created. *)
Theorem comparison_with_other_than_two_inputs_is_a_value_error :
  forall IS_LINUX B G T fuel args dirs output s w,
    mode args = comparison ->
    inputs args = Some dirs -> dirs <> [] -> List.length dirs <> 2%nat ->
    Main.output (common args) = Some output ->
    main IS_LINUX B G T fuel args s w =
    Some (Raise (ValueError
            (lit "Comparison mode expects exactly two input directories")), s, w).
Proof.
  intros IS_LINUX B G T fuel args dirs output s w Hmode Hin Hne Hlen Hout.
  unfold main. rewrite Hmode, Hin.
  destruct dirs as [|first more]; [now destruct Hne|]. rewrite Hout.
  apply interruptible_other; [|discriminate].
  unfold lift, Comparison.generate_comparison.
  destruct more as [|second [|third more]]; try reflexivity.
  now destruct Hlen.
Qed.

Lemma comparison_with_other_than_two_inputs_is_a_value_error_witness :
  let w := mkWorld 0 [] 1 None None [] in
  let common := Main.mkArgs None None None (lit "screenshots") (Some (lit "out"))
                            (3 # 2) 15 10 0 0 in
  main false empty_desktop no_gallery idle_tk 3
       (mkNamespace comparison common None (Some [lit "run01"]) 50 5000) (mkSelf 0) w =
  Some (Raise (ValueError
          (lit "Comparison mode expects exactly two input directories")), mkSelf 0, w).
Proof.
  intros w common.
  apply (comparison_with_other_than_two_inputs_is_a_value_error false empty_desktop
           no_gallery idle_tk 3
           (mkNamespace comparison common None (Some [lit "run01"]) 50 5000)
           [lit "run01"] (lit "out") (mkSelf 0) w eq_refl eq_refl);
    [discriminate|discriminate|reflexivity].
Defined.





End ModesTheorems.

(** ** Names of frames *)

Module NameFacts.
Import Py Pathlib GallerySpec.

Lemma str_eqb_eq a : forall b, str_eqb a b = true <-> a = b.
Proof.
  induction a as [|x a IH]; intros [|y b]; simpl; split; intros H;
    try discriminate; auto.
  - apply andb_true_iff in H. destruct H as [Hx Ha].
    apply Ascii.eqb_eq in Hx. apply IH in Ha. now subst.
  - injection H as -> ->. rewrite Ascii.eqb_refl. now apply IH.
Qed.

Lemma str_eqb_refl a : str_eqb a a = true.
Proof. now apply str_eqb_eq. Qed.

Lemma str_eqb_neq a b : str_eqb a b = false <-> a <> b.
Proof.
  split.
  - intros H E. apply str_eqb_eq in E. congruence.
  - intros H. destruct (str_eqb a b) eqn:E; auto. apply str_eqb_eq in E. contradiction.
Qed.

Lemma mem_In name names : mem name names = true <-> In name names.
Proof.
  unfold mem. rewrite existsb_exists. split.
  - intros (x & Hx & E). apply str_eqb_eq in E. now subst.
  - intros H. exists name. split; [exact H|apply str_eqb_refl].
Qed.

Lemma keys_In names : forall name, In name (keys names) <-> In name names.
Proof.
  induction names as [|n names IH]; intros name; simpl; [tauto|].
  rewrite filter_In, IH. split.
  - intros [H | [H _]]; auto.
  - intros [H | H]; auto.
    destruct (str_eqb n name) eqn:E.
    + apply str_eqb_eq in E. auto.
    + right. auto.
Qed.

Lemma keys_NoDup names : NoDup (keys names).
Proof.
  induction names as [|n names IH]; simpl; constructor.
  - rewrite filter_In. intros [_ H]. now rewrite str_eqb_refl in H.
  - now apply NoDup_filter.
Qed.

Lemma both_In a b name : In name (both a b) <-> In name a /\ In name b.
Proof. unfold both. now rewrite filter_In, keys_In, mem_In. Qed.

Lemma only_In a b name : In name (only a b) <-> In name a /\ ~ In name b.
Proof.
  unfold only. rewrite filter_In, keys_In, negb_true_iff.
  split; intros [Ha Hb]; split; auto.
  - intros H. apply mem_In in H. congruence.
  - destruct (mem name b) eqn:E; auto. apply mem_In in E. contradiction.
Qed.

Lemma both_NoDup a b : NoDup (both a b).
Proof. unfold both. apply NoDup_filter, keys_NoDup. Qed.

Lemma only_NoDup a b : NoDup (only a b).
Proof. unfold only. apply NoDup_filter, keys_NoDup. Qed.

(** ** The order of names *)

Lemma str_leb_total a : forall b, str_leb a b = false -> str_leb b a = true.
Proof.
  induction a as [|x a IH]; intros [|y b]; cbn [str_leb];
    try (intros H; discriminate H); auto.
  destruct (code x <? code y)%nat eqn:E1; [discriminate|].
  destruct (code x =? code y)%nat eqn:E2; intros H.
  - apply Nat.eqb_eq in E2. rewrite E2 in E1 |- *. rewrite E1, Nat.eqb_refl.
    now apply IH.
  - apply Nat.ltb_ge in E1. apply Nat.eqb_neq in E2.
    assert (E3 : (code y <? code x)%nat = true) by (apply Nat.ltb_lt; lia).
    now rewrite E3.
Qed.

Lemma insert_In x names name :
  In name (insert_sorted x names) <-> name = x \/ In name names.
Proof.
  induction names as [|n names IH]; simpl; [intuition|].
  destruct (str_leb x n); simpl; [intuition|]. rewrite IH. intuition.
Qed.

Lemma sorted_In names name : In name (sorted names) <-> In name names.
Proof.
  induction names as [|n names IH]; simpl; [tauto|].
  rewrite insert_In, IH. intuition.
Qed.

Lemma ascending_cons a names :
  ascending names -> (forall b, hd_error names = Some b -> str_leb a b = true /\ a <> b) ->
  ascending (a :: names).
Proof.
  intros H Hhd. simpl. split; [|exact H].
  destruct names as [|b rest]; [exact I|]. now apply Hhd.
Qed.

Lemma insert_ascending x : forall names,
  ascending names -> ~ In x names -> ascending (insert_sorted x names).
Proof.
  induction names as [|n names IH]; intros Hasc Hx; [simpl; auto|].
  cbn [insert_sorted]. destruct (str_leb x n) eqn:E.
  - apply ascending_cons; [exact Hasc|].
    intros b [= <-]. split; [exact E|]. intros ->. apply Hx. now left.
  - assert (Hrest : ascending names) by (destruct Hasc; assumption).
    apply ascending_cons.
    + apply IH; [exact Hrest|]. intros H. apply Hx. now right.
    + intros b Hb. destruct names as [|m rest].
      * simpl in Hb. injection Hb as <-. split; [now apply str_leb_total|].
        intros ->. apply Hx. now left.
      * cbn [insert_sorted] in Hb. destruct (str_leb x m).
        -- simpl in Hb. injection Hb as <-. split; [now apply str_leb_total|].
           intros ->. apply Hx. now left.
        -- simpl in Hb. injection Hb as <-. destruct Hasc as [Hnm _]. exact Hnm.
Qed.

Lemma sorted_ascending names : NoDup names -> ascending (sorted names).
Proof.
  induction 1 as [|n names Hn _ IH]; simpl; [exact I|].
  apply insert_ascending; [exact IH|]. now rewrite sorted_In.
Qed.

(** ** The name of a diff *)

Lemma rfind_dot_png : rfind_dot (lit "png") = None.
Proof. reflexivity. Qed.

Lemma rfind_dot_tail base :
  rfind_dot (base ++ lit ".png") = Some (List.length base).
Proof.
  induction base as [|c base IH]; [reflexivity|].
  cbn [app rfind_dot List.length]. now rewrite IH.
Qed.

Lemma out_name_png base :
  base <> [] -> Comparison.out_name (base ++ lit ".png") = base ++ lit "_diff.png".
Proof.
  intros Hne. unfold Comparison.out_name, stem, suffix, cut.
  rewrite rfind_dot_tail, length_app.
  assert (E : (0 <? List.length base)%nat &&
              (List.length base <? List.length base + List.length (lit ".png") - 1)%nat
              = true).
  { destruct base as [|c base]; [contradiction|].
    apply andb_true_iff. split; [reflexivity|]. apply Nat.ltb_lt. simpl. lia. }
  rewrite E. rewrite firstn_app, firstn_all, Nat.sub_diag. cbn [firstn].
  rewrite app_nil_r.
  rewrite skipn_app, skipn_all, Nat.sub_diag. cbn [skipn app].
  reflexivity.
Qed.

End NameFacts.

(** ** A comparison of two directories that do not change *)

Module ComparisonFacts.
Import Py Pathlib GallerySpec ComparisonSpec Comparison RunnerSpec.
Import NameFacts StealthFacts.
Local Open Scope io_scope.

Lemma io_for_warnings (f : str -> str) : forall names w,
  exists w',
    io_for names (fun name => log_text WARNING (f name)) w = (Ok tt, w') /\
    trace w' = trace w ++ map (fun name => warning (f name)) names.
Proof.
  induction names as [|name names IH]; intros w.
  - exists w. split; [reflexivity|]. simpl. now rewrite app_nil_r.
  - destruct (IH (emit w (warning (f name)))) as (w' & E & Ht).
    exists w'. split.
    + cbn [io_for]. unfold io_bind at 1, log_text at 1. exact E.
    + rewrite Ht. cbn [emit trace map]. now rewrite <- app_assoc.
Qed.

Lemma frames_of_warnings (f : str -> str) names :
  frames_of (map (fun name => warning (f name)) names) = [].
Proof. induction names; simpl; auto. Qed.

Section Still.
Variable dirs : str -> option (list str).
Variable pics : str -> option Picture.

Let G := still_gallery dirs pics.

Lemma not_a_directory_still d w :
  not_a_directory G d w =
  (Ok (match dirs d with Some _ => false | None => true end), w).
Proof.
  unfold not_a_directory, io_bind. cbn [path_exists path_is_dir G still_gallery].
  unfold io_ret. destruct (dirs d); reflexivity.
Qed.

Lemma frames_of_frame_effects a b out names :
  frames_of (flat_map (frame_effects pics a b out) names) =
  map (diff_path out) (filter (same_size pics a b) names).
Proof.
  induction names as [|name names IH]; [reflexivity|].
  cbn [flat_map filter]. rewrite frames_of_app, IH. unfold frame_effects.
  destruct (same_size pics a b name); reflexivity.
Qed.

Lemma diff_frames_still a b out : forall names processed w,
  readable pics a b names ->
  exists w',
    diff_frames G a b out names processed w =
    (Ok (processed + List.length (filter (same_size pics a b) names))%nat, w') /\
    trace w' = trace w ++ flat_map (frame_effects pics a b out) names.
Proof.
  induction names as [|name names IH]; intros processed w Hread.
  - exists w. cbn [diff_frames filter List.length flat_map]. unfold io_ret.
    now rewrite Nat.add_0_r, app_nil_r.
  - assert (Hrest : readable pics a b names).
    { intros n Hn. apply Hread. now right. }
    destruct (Hread name (or_introl eq_refl)) as [Ha Hb].
    destruct (pics (joinpath a name)) as [pa|] eqn:Epa; [|now destruct Ha].
    destruct (pics (joinpath b name)) as [pb|] eqn:Epb; [|now destruct Hb].
    assert (Hsame : same_size pics a b name = size_eqb (size pa) (size pb)).
    { unfold same_size. now rewrite Epa, Epb. }
    cbn [diff_frames flat_map filter].
    unfold frame_effects at 1. rewrite Hsame.
    unfold mismatch, size_text, diff_path. rewrite Epa, Epb.
    unfold io_bind at 1. cbn [image_open G still_gallery]. rewrite Epa.
    unfold io_ret at 1.
    unfold io_bind at 1. cbn [image_open G still_gallery]. rewrite Epb.
    unfold io_ret at 1.
    destruct (size_eqb (size pa) (size pb)) eqn:Es; cbn [negb].
    + destruct (IH (S processed)
                   (emit (emit w (E_backend (lit "diff")
                                    (joinpath out (out_name name))))
                         (E_log INFO (lit "Wrote diff frame: " ++
                                      joinpath out (out_name name)) None)) Hrest)
        as (w' & E & Ht).
      exists w'. split.
      * unfold io_bind at 1.
        destruct (negb (str_eqb (mode pa) (mode pb)));
          cbn [image_convert image_difference image_save G still_gallery];
          unfold io_ret at 1; unfold io_bind at 1; unfold io_ret at 1;
          unfold io_bind at 1; unfold io_bind at 1, log_text at 1;
          rewrite E; cbn [List.length]; f_equal; f_equal; lia.
      * rewrite Ht. cbn [emit trace]. rewrite <- !app_assoc. reflexivity.
    + destruct (IH processed
                   (emit w (E_log WARNING
                              (lit "Skipping " ++ name ++
                               lit " due to size mismatch (" ++
                               repr_size (size pa) ++ lit " vs " ++
                               repr_size (size pb) ++ lit ")") None)) Hrest)
        as (w' & E & Ht).
      exists w'. split.
      * unfold io_bind at 1, log_text at 1. exact E.
      * rewrite Ht. cbn [emit trace]. rewrite <- !app_assoc. reflexivity.
Qed.
End Still.

Lemma nothing_in (A : Type) (l : list A) : (forall x, ~ In x l) -> l = [].
Proof. destruct l as [|a l]; [reflexivity|]. intros H. destruct (H a). now left. Qed.

End ComparisonFacts.

Module ComparisonTheorems.
Import Py Pathlib GallerySpec ComparisonSpec Comparison RunnerSpec.
Import NameFacts StealthFacts ComparisonFacts.
Local Open Scope io_scope.

(** X17. [generate_comparison] looks at its two input directories in
    order and stops at the first that is missing or is no directory:
    [FileNotFoundError] names that one, the other has not been looked at if
    it comes later, and no directory has been created. On directories that
    do not change while they are read this leaves the world as it was. *)
Theorem missing_input_directory_is_named_first :
  (forall G a b out w w1,
     not_a_directory G a w = (Ok true, w1) ->
     generate_comparison G [a; b] out w =
     (Raise (FileNotFoundError (lit "Input directory not found: " ++ a)), w1)) /\
  (forall G a b out w w1 w2,
     not_a_directory G a w = (Ok false, w1) ->
     not_a_directory G b w1 = (Ok true, w2) ->
     generate_comparison G [a; b] out w =
     (Raise (FileNotFoundError (lit "Input directory not found: " ++ b)), w2)) /\
  (forall dirs pics a b out w,
     dirs a = None ->
     generate_comparison (still_gallery dirs pics) [a; b] out w =
     (Raise (FileNotFoundError (lit "Input directory not found: " ++ a)), w)) /\
  (forall dirs pics a b out w,
     dirs a <> None -> dirs b = None ->
     generate_comparison (still_gallery dirs pics) [a; b] out w =
     (Raise (FileNotFoundError (lit "Input directory not found: " ++ b)), w)).
Proof.
  assert (H1 : forall G a b out w w1,
     not_a_directory G a w = (Ok true, w1) ->
     generate_comparison G [a; b] out w =
     (Raise (FileNotFoundError (lit "Input directory not found: " ++ a)), w1)).
  { intros G a b out w w1 Ha. unfold generate_comparison.
    unfold io_bind at 1. cbn [check_directories]. unfold io_bind at 1.
    rewrite Ha. reflexivity. }
  assert (H2 : forall G a b out w w1 w2,
     not_a_directory G a w = (Ok false, w1) ->
     not_a_directory G b w1 = (Ok true, w2) ->
     generate_comparison G [a; b] out w =
     (Raise (FileNotFoundError (lit "Input directory not found: " ++ b)), w2)).
  { intros G a b out w w1 w2 Ha Hb. unfold generate_comparison.
    unfold io_bind at 1. cbn [check_directories]. unfold io_bind at 1.
    rewrite Ha. unfold io_bind at 1. rewrite Hb. reflexivity. }
  split; [exact H1|]. split; [exact H2|]. split.
  - intros dirs pics a b out w Ha. apply H1.
    rewrite not_a_directory_still. now rewrite Ha.
  - intros dirs pics a b out w Ha Hb. apply (H2 _ a b out w w w).
    + rewrite not_a_directory_still. destruct (dirs a); [reflexivity|now destruct Ha].
    + rewrite not_a_directory_still. now rewrite Hb.
Qed.

Lemma missing_input_directory_is_named_first_witness :
  let dirs := fun d : str => if str_eqb d (lit "run01") then Some [lit "a.png"] else None in
  let w := mkWorld 0 [] 1 None None [] in
  generate_comparison (still_gallery dirs (fun _ => None))
                      [lit "run01"; lit "run02"] (lit "out") w =
  (Raise (FileNotFoundError (lit "Input directory not found: run02")), w).
Proof.
  intros dirs w.
  apply (proj2 (proj2 (proj2 missing_input_directory_is_named_first))
           dirs (fun _ => None) (lit "run01") (lit "run02") (lit "out") w);
    [discriminate|reflexivity].
Defined.

(** X18. When the two directories have no name in common,
    [generate_comparison] ends with [SystemExit]; by then it has created
    the output directory, and that is all it has done: no frame is opened
    and no warning about the unmatched frames is logged. *)
Theorem no_shared_frames_exits_after_mkdir :
  forall dirs pics a b out w first_files second_files,
    dirs a = Some first_files -> dirs b = Some second_files ->
    (forall name, In name first_files -> ~ In name second_files) ->
    generate_comparison (still_gallery dirs pics) [a; b] out w =
    (Raise (SystemExit (exit_message
              (lit "No matching frames to compare; ensure filenames align"))),
     emit w (E_mkdir out)).
Proof.
  intros dirs pics a b out w fa fb Ha Hb Hnone.
  assert (Hshared : sorted (both fa fb) = []).
  { rewrite (nothing_in _ (both fa fb)); [reflexivity|].
    intros name H. apply both_In in H. destruct H as [H1 H2].
    exact (Hnone name H1 H2). }
  unfold generate_comparison.
  unfold io_bind at 1. cbn [check_directories]. unfold io_bind at 1.
  rewrite not_a_directory_still, Ha. unfold io_bind at 1.
  rewrite not_a_directory_still, Hb. unfold io_ret at 1.
  unfold io_bind at 1, Sys.mkdir.
  unfold io_bind at 1. cbn [glob_png still_gallery]. rewrite Ha. unfold io_ret at 1.
  unfold io_bind at 1. cbn [glob_png still_gallery]. rewrite Hb. unfold io_ret at 1.
  rewrite Hshared. reflexivity.
Qed.

Lemma no_shared_frames_exits_after_mkdir_witness :
  let dirs := fun d : str =>
    if str_eqb d (lit "run01") then Some [lit "000_a.png"]
    else if str_eqb d (lit "run02") then Some [lit "000_b.png"] else None in
  let w := mkWorld 0 [] 1 None None [] in
  generate_comparison (still_gallery dirs (fun _ => None))
                      [lit "run01"; lit "run02"] (lit "out") w =
  (Raise (SystemExit (exit_message
            (lit "No matching frames to compare; ensure filenames align"))),
   emit w (E_mkdir (lit "out"))).
Proof.
  intros dirs w.
  apply (no_shared_frames_exits_after_mkdir dirs (fun _ => None) (lit "run01")
           (lit "run02") (lit "out") w [lit "000_a.png"] [lit "000_b.png"]
           eq_refl eq_refl).
  intros name [<-|[]] [H|[]]. discriminate H.
Defined.



(** X20. The names that two directories share are gone through once
    each, in ascending order of code points, and they are exactly the
    names -- not the paths -- found in both; the names warned about are
    exactly those found in one directory only. The diff of a frame
    [{base}.png] is [{base}_diff.png], so two different frames never give
    the same diff. *)
Theorem shared_names_are_sorted_and_diffs_distinct :
  (forall first_files second_files,
     ascending (sorted (both first_files second_files)) /\
     (forall name,
        In name (sorted (both first_files second_files)) <->
        In name first_files /\ In name second_files) /\
     ascending (sorted (only first_files second_files)) /\
     (forall name,
        In name (sorted (only first_files second_files)) <->
        In name first_files /\ ~ In name second_files)) /\
  (forall base, base <> [] -> out_name (base ++ lit ".png") = base ++ lit "_diff.png") /\
  (forall base1 base2,
     base1 <> [] -> base2 <> [] ->
     out_name (base1 ++ lit ".png") = out_name (base2 ++ lit ".png") ->
     base1 = base2).
Proof.
  split; [|split].
  - intros fa fb. split; [|split; [|split]].
    + apply sorted_ascending, both_NoDup.
    + intros name. now rewrite sorted_In, both_In.
    + apply sorted_ascending, only_NoDup.
    + intros name. now rewrite sorted_In, only_In.
  - exact out_name_png.
  - intros base1 base2 H1 H2 E.
    rewrite !out_name_png in E by assumption.
    now apply app_inv_tail in E.
Qed.

Lemma shared_names_are_sorted_and_diffs_distinct_witness :
  sorted (both [lit "b.png"; lit "a.png"; lit "B.png"; lit "a.png"]
               [lit "a.png"; lit "b.png"; lit "B.png"; lit "aa.png"]) =
  [lit "B.png"; lit "a.png"; lit "b.png"] /\
  out_name (lit "001_after_launch.png") = lit "001_after_launch_diff.png".
Proof.
  split; [reflexivity|].
  assert (Hne : lit "001_after_launch" <> []) by discriminate.
  exact (proj1 (proj2 shared_names_are_sorted_and_diffs_distinct)
               (lit "001_after_launch") Hne).
Defined.

End ComparisonTheorems.

(** ** The interactive viewer *)

Module ViewerFacts.
Import Py Pathlib GallerySpec InteractiveViewer ViewerSpec.
Import StealthFacts NameFacts ComparisonFacts.
Local Open Scope Q_scope.

Lemma same_settings_refl v : same_settings v v.
Proof. repeat split. Qed.

Lemma render_same_settings T v w : same_settings v (viewer_of (render T v w)).
Proof.
  unfold render, viewer_of.
  destruct (tk_compose T v w) as [[[x width]|e] w1].
  - destruct (tk_paint T (set_drawn v x width) w1) as [r w2]. repeat split.
  - repeat split.
Qed.

Lemma clamp_range x : 0 <= fmax 0 (fmin 1 x) <= 1.
Proof.
  unfold fmax, fmin. destruct (fltb x 1) eqn:E1.
  - apply fltb_true in E1. destruct (fltb 0 x) eqn:E2.
    + apply fltb_true in E2. lra.
    + lra.
  - destruct (fltb 0 1) eqn:E2; lra.
Qed.

Lemma clamp_low x : x <= 0 -> fmax 0 (fmin 1 x) = 0.
Proof.
  intros H. unfold fmax, fmin.
  assert (E1 : fltb x 1 = true) by (apply fltb_true; lra). rewrite E1.
  assert (E2 : fltb 0 x = false) by (apply fltb_false; lra). now rewrite E2.
Qed.

Lemma clamp_high x : 1 <= x -> fmax 0 (fmin 1 x) = 1.
Proof.
  intros H. unfold fmax, fmin.
  assert (E1 : fltb x 1 = false) by (apply fltb_false; lra). rewrite E1.
  reflexivity.
Qed.

Lemma clamp_inside x : 0 < x < 1 -> fmax 0 (fmin 1 x) = x.
Proof.
  intros H. unfold fmax, fmin.
  assert (E1 : fltb x 1 = true) by (apply fltb_true; lra). rewrite E1.
  assert (E2 : fltb 0 x = true) by (apply fltb_true; lra). now rewrite E2.
Qed.

Ltac settle :=
  match goal with
  | |- context [viewer_of (render ?T ?v ?w)] =>
      let H := fresh "H" in
      pose proof (render_same_settings T v w) as H;
      unfold same_settings in H;
      destruct H as (H1 & H2 & H3 & H4 & H5 & H6 & H7 & H8 & H9 & H10 & H11);
      rewrite ?H1, ?H2, ?H3, ?H4, ?H5, ?H6, ?H7, ?H8, ?H9, ?H10, ?H11
  | _ => idtac
  end; cbn; repeat split.

Lemma set_mode_settings T m v w :
  let v1 := viewer_of (set_mode T m v w) in
  same_frames v v1 /\ index v1 = index v /\ alpha v1 = alpha v /\
  split v1 = split v /\ mode v1 = m.
Proof.
  cbv zeta. unfold set_mode, same_frames.
  set (c := if Z.eqb (mode (set_mode_field v m)) 2 then _ else _).
  destruct c as [[[]|e] w1]; settle.
Qed.

Lemma set_alpha_settings T a v w :
  let v1 := viewer_of (_set_alpha T a v w) in
  same_frames v v1 /\ index v1 = index v /\ alpha v1 = fmax 0 (fmin 1 a) /\
  split v1 = split v /\ mode v1 = mode v.
Proof.
  cbv zeta. unfold _set_alpha, same_frames.
  destruct (Z.eqb (mode (set_alpha v (fmax 0 (fmin 1 a)))) 1); settle.
Qed.

Lemma set_split_settings T x v w :
  let v1 := viewer_of (_set_split T x v w) in
  same_frames v v1 /\ index v1 = index v /\ alpha v1 = alpha v /\
  split v1 = fmax 0 (fmin 1 x) /\ mode v1 = mode v.
Proof.
  cbv zeta. unfold _set_split, same_frames.
  destruct (Z.eqb (mode (set_split v (fmax 0 (fmin 1 x)))) 2); settle.
Qed.

Lemma turn_settings T step v w :
  names v <> [] ->
  let v1 := viewer_of (turn T step v w) in
  same_frames v v1 /\
  index v1 = ((index v + step) mod Z.of_nat (List.length (names v)))%Z /\
  alpha v1 = alpha v /\ split v1 = split v /\ mode v1 = mode v.
Proof.
  intros Hne. cbv zeta. unfold turn, same_frames.
  destruct (names v) as [|n rest] eqn:En; [now destruct Hne|]. rewrite <- En.
  settle.
Qed.

Lemma toggle_settings T v w :
  same_settings (set_fit v (negb (fit v))) (viewer_of (_toggle_fit T v w)) /\
  same_settings (set_help_on v (negb (help_on v))) (viewer_of (_toggle_help T v w)).
Proof. split; apply render_same_settings. Qed.

(** A click either leaves the settings alone or sets the split to a
    clamped value. *)
Lemma update_split_settings T x v w :
  let v1 := viewer_of (_update_split_from_x T x v w) in
  same_frames v v1 /\ index v1 = index v /\ alpha v1 = alpha v /\
  mode v1 = mode v /\ (split v1 = split v \/ exists r, split v1 = fmax 0 (fmin 1 r)).
Proof.
  cbv zeta. unfold _update_split_from_x.
  destruct (tk_winfo_width T w) as [[width|e] w1].
  - match goal with |- context [_set_split T ?r v w1] =>
      destruct (set_split_settings T r v w1) as (H1 & H2 & H3 & H4 & H5);
      repeat split; try assumption; try apply H1; right; now exists r end.
  - unfold same_frames. cbn. repeat split. now left.
Qed.

Lemma on_click_settings T x v w :
  let v1 := viewer_of (_on_click T x v w) in
  same_frames v v1 /\ index v1 = index v /\ alpha v1 = alpha v /\
  mode v1 = mode v /\ (split v1 = split v \/ exists r, split v1 = fmax 0 (fmin 1 r)).
Proof.
  cbv zeta. unfold _on_click.
  destruct (Z.eqb (mode v) 2).
  - destruct (tk_winfo_width T w) as [[width|e] w1].
    + destruct (Z.ltb 0 width).
      * apply update_split_settings.
      * unfold same_frames. cbn. repeat split. now left.
    + unfold same_frames. cbn. repeat split. now left.
  - unfold same_frames. cbn. repeat split. now left.
Qed.

Lemma in_range_names v : in_range v -> names v <> [].
Proof.
  intros [[H1 H2] _] E. rewrite E in H2. cbn in H2. lia.
Qed.

(** One gesture: the frames stay, and the settings stay in range. *)
Lemma in_range_of v v1 :
  in_range v -> names v1 = names v ->
  (index v1 = index v \/
   (0 <= index v1 < Z.of_nat (List.length (names v)))%Z) ->
  (alpha v1 = alpha v \/ exists r, alpha v1 = fmax 0 (fmin 1 r)) ->
  (split v1 = split v \/ exists r, split v1 = fmax 0 (fmin 1 r)) ->
  in_range v1.
Proof.
  intros (Hi & Ha & Hs) En Ei Ea Es. unfold in_range. rewrite En.
  split; [|split].
  - destruct Ei as [->|Ei]; assumption.
  - destruct Ea as [->|[r ->]]; [assumption|apply clamp_range].
  - destruct Es as [->|[r ->]]; [assumption|apply clamp_range].
Qed.

(** One gesture: the frames stay, and the settings stay in range. *)
Lemma callback_in_range T g v w :
  in_range v ->
  in_range (viewer_of (callback T g v w)) /\
  same_frames v (viewer_of (callback T g v w)).
Proof.
  intros Hv. pose proof (in_range_names v Hv) as Hne.
  assert (Hrender : forall v0 w0, same_frames v v0 -> index v0 = index v ->
            alpha v0 = alpha v -> split v0 = split v ->
            in_range (viewer_of (render T v0 w0)) /\
            same_frames v (viewer_of (render T v0 w0))).
  { intros v0 w0 (F1 & F2 & F3 & F4 & F5) Ei Ea Es.
    pose proof (render_same_settings T v0 w0)
      as (H1 & H2 & H3 & H4 & H5 & H6 & H7 & H8 & H9 & _).
    split.
    - apply (in_range_of v); [assumption|congruence|left; congruence
                             |left; congruence|left; congruence].
    - unfold same_frames. repeat split; congruence. }
  destruct g; unfold callback, _on_drag, prev, next, _toggle_fit, _toggle_help.
  - apply Hrender; repeat split.
  - destruct (on_click_settings T x v w) as (F & H1 & H2 & H3 & H4).
    split; [|exact F]. apply (in_range_of v); auto. apply F.
  - destruct (on_click_settings T x v w) as (F & H1 & H2 & H3 & H4).
    split; [|exact F]. apply (in_range_of v); auto. apply F.
  - destruct (turn_settings T (-1) v w Hne) as (F & H1 & H2 & H3 & H4).
    split; [|exact F]. apply (in_range_of v); auto; [apply F|].
    right. rewrite H1. apply Z.mod_pos_bound. destruct (names v); [contradiction|cbn; lia].
  - destruct (turn_settings T 1 v w Hne) as (F & H1 & H2 & H3 & H4).
    split; [|exact F]. apply (in_range_of v); auto; [apply F|].
    right. rewrite H1. apply Z.mod_pos_bound. destruct (names v); [contradiction|cbn; lia].
  - destruct (set_mode_settings T 0 v w) as (F & H1 & H2 & H3 & H4).
    split; [|exact F]. apply (in_range_of v); auto. apply F.
  - destruct (set_mode_settings T 1 v w) as (F & H1 & H2 & H3 & H4).
    split; [|exact F]. apply (in_range_of v); auto. apply F.
  - destruct (set_mode_settings T 2 v w) as (F & H1 & H2 & H3 & H4).
    split; [|exact F]. apply (in_range_of v); auto. apply F.
  - destruct (set_mode_settings T 3 v w) as (F & H1 & H2 & H3 & H4).
    split; [|exact F]. apply (in_range_of v); auto. apply F.
  - destruct (set_alpha_settings T (fsub (alpha v) (5 # 100)) v w) as (F & H1 & H2 & H3 & H4).
    split; [|exact F]. apply (in_range_of v); auto; [apply F|]. right. eexists. exact H2.
  - destruct (set_alpha_settings T (fadd (alpha v) (5 # 100)) v w) as (F & H1 & H2 & H3 & H4).
    split; [|exact F]. apply (in_range_of v); auto; [apply F|]. right. eexists. exact H2.
  - destruct (set_split_settings T (fsub (split v) (5 # 100)) v w) as (F & H1 & H2 & H3 & H4).
    split; [|exact F]. apply (in_range_of v); auto; [apply F|]. right. eexists. exact H3.
  - destruct (set_split_settings T (fadd (split v) (5 # 100)) v w) as (F & H1 & H2 & H3 & H4).
    split; [|exact F]. apply (in_range_of v); auto; [apply F|]. right. eexists. exact H3.
  - apply Hrender; repeat split.
  - apply Hrender; repeat split.
  - apply Hrender; repeat split.
  - apply Hrender; repeat split.
Qed.

End ViewerFacts.

Module ViewerSteps.
Import Py Pathlib GallerySpec InteractiveViewer ViewerSpec.
Import StealthFacts NameFacts ComparisonFacts ViewerFacts.
Local Open Scope Q_scope.

Lemma wrap_next i n : (0 <= i < n)%Z ->
  ((i + 1) mod n = if i + 1 =? n then 0 else i + 1)%Z.
Proof.
  intros H. destruct (Z.eqb_spec (i + 1) n) as [E|E].
  - rewrite E. apply Z_mod_same_full.
  - apply Z.mod_small. lia.
Qed.

Lemma wrap_prev i n : (0 <= i < n)%Z ->
  ((i + -1) mod n = if i =? 0 then n - 1 else i - 1)%Z.
Proof.
  intros H. destruct (Z.eqb_spec i 0) as [E|E].
  - subst i. symmetry. apply (Z.mod_unique_pos _ _ (-1)); lia.
  - replace (i + -1)%Z with (i - 1)%Z by lia. apply Z.mod_small. lia.
Qed.

Lemma render_responsive T v w :
  responsive T ->
  exists x width w', render T v w = (Ok tt, set_drawn v x width, w').
Proof.
  intros (_ & Hc & Hp). unfold render.
  destruct (Hc v w) as ([x width] & w1 & ->).
  destruct (Hp (set_drawn v x width) w1) as (w2 & ->).
  now exists x, width, w2.
Qed.

Lemma check_directories_still dirs pics a b w fa fb :
  dirs a = Some fa -> dirs b = Some fb ->
  check_directories (still_gallery dirs pics) [a; b] w = (Ok tt, w).
Proof.
  intros Ha Hb. cbn [check_directories]. unfold io_bind at 1.
  rewrite not_a_directory_still, Ha. unfold io_bind at 1.
  rewrite not_a_directory_still, Hb. reflexivity.
Qed.

End ViewerSteps.

Module ViewerTheorems.
Import Py Pathlib GallerySpec ModesSpec InteractiveViewer ViewerSpec.
Import StealthFacts NameFacts ComparisonFacts ViewerFacts ViewerSteps.
Local Open Scope Q_scope.

(** X21. Whatever the user does and whatever tkinter answers -- also
    when the callback ends in an error -- a gesture leaves the viewer with
    a current frame ([0 <= index < len(names)]) and with [alpha] and
    [split] between 0 and 1, and it changes neither the names of the
    frames nor the directories. *)
Theorem gestures_keep_the_viewer_in_range :
  forall T g v w,
    in_range v ->
    let v1 := viewer_of (callback T g v w) in
    in_range v1 /\ same_frames v v1.
Proof. intros T g v w Hv. cbv zeta. now apply callback_in_range. Qed.

Lemma gestures_keep_the_viewer_in_range_witness :
  let v := mkViewer (lit "a") (lit "b") None [lit "0.png"; lit "1.png"] []
                    1 1 (98 # 100) (1 # 2) true true None None in
  let v1 := viewer_of (callback idle_tk BracketRight v (mkWorld 0 [] 1 None None [])) in
  in_range v1 /\ same_frames v v1.
Proof.
  intros v.
  apply (gestures_keep_the_viewer_in_range idle_tk BracketRight v
           (mkWorld 0 [] 1 None None [])).
  unfold in_range, v. cbn. repeat split; try lia; try discriminate.
Defined.

(** X22. [next] moves to the following frame and from the last one to
    the first; [prev] moves to the frame before and from the first one to
    the last. Each undoes the other, whether or not the frame could be
    drawn. *)
Theorem next_and_prev_wrap_around :
  forall T v w,
    in_range v ->
    let n := Z.of_nat (List.length (names v)) in
    index (viewer_of (next T v w)) = (if index v + 1 =? n then 0 else index v + 1)%Z /\
    index (viewer_of (prev T v w)) = (if index v =? 0 then n - 1 else index v - 1)%Z /\
    (forall w', index (viewer_of (prev T (viewer_of (next T v w)) w')) = index v) /\
    (forall w', index (viewer_of (next T (viewer_of (prev T v w)) w')) = index v).
Proof.
  intros T v w Hv n.
  pose proof (in_range_names v Hv) as Hne.
  pose proof Hv as (Hi & _). fold n in Hi.
  destruct (turn_settings T 1 v w Hne) as ((Nn & _) & In & _).
  destruct (turn_settings T (-1) v w Hne) as ((Np & _) & Ip & _).
  fold n in In, Ip. rewrite (wrap_next _ _ Hi) in In. rewrite (wrap_prev _ _ Hi) in Ip.
  unfold next, prev. split; [exact In|]. split; [exact Ip|]. split; intros w'.
  - assert (Hne' : names (viewer_of (turn T 1 v w)) <> []) by now rewrite Nn.
    destruct (turn_settings T (-1) _ w' Hne') as (_ & I2 & _).
    rewrite I2, Nn, In. fold n.
    destruct (Z.eqb_spec (index v + 1) n) as [E|E].
    + symmetry. apply (Z.mod_unique_pos _ _ (-1)); lia.
    + replace (index v + 1 + -1)%Z with (index v) by lia. apply Z.mod_small. lia.
  - assert (Hne' : names (viewer_of (turn T (-1) v w)) <> []) by now rewrite Np.
    destruct (turn_settings T 1 _ w' Hne') as (_ & I2 & _).
    rewrite I2, Np, Ip. fold n.
    destruct (Z.eqb_spec (index v) 0) as [E|E].
    + replace (n - 1 + 1)%Z with n by lia. rewrite Z_mod_same_full. lia.
    + replace (index v - 1 + 1)%Z with (index v) by lia. apply Z.mod_small. lia.
Qed.

Lemma next_and_prev_wrap_around_witness :
  let v := mkViewer (lit "a") (lit "b") None [lit "0.png"; lit "1.png"; lit "2.png"] []
                    0 2 (1 # 2) (1 # 2) true true None None in
  let w := mkWorld 0 [] 1 None None [] in
  index (viewer_of (next idle_tk v w)) = 0%Z /\
  index (viewer_of (prev idle_tk (viewer_of (next idle_tk v w)) w)) = 2%Z.
Proof.
  intros v w.
  assert (Hv : in_range v).
  { unfold in_range, v. cbn. repeat split; try lia; discriminate. }
  destruct (next_and_prev_wrap_around idle_tk v w Hv) as (H1 & _ & H3 & _).
  split; [exact H1|exact (H3 w)].
Defined.

(** X23. [InteractiveViewer(inputs)] refuses its inputs before it
    opens a window: fewer than two directories are a [ValueError], a
    first or second input that is no directory a [FileNotFoundError]
    naming it, and two directories without a common name end with
    [SystemExit]. A third input that does not exist is no error: by then
    one warning has been logged, and nothing else has happened. *)
Theorem viewer_refuses_bad_inputs_before_opening_a_window :
  (forall G T inputs w,
     (List.length inputs < 2)%nat ->
     init G T inputs w =
     (Raise (ValueError
        (lit "Interactive viewer requires at least two input directories")), w)) /\
  (forall dirs pics T a b more w,
     dirs a = None ->
     init (still_gallery dirs pics) T (a :: b :: more) w =
     (Raise (FileNotFoundError (lit "Input directory not found: " ++ a)), w)) /\
  (forall dirs pics T a b more w,
     dirs a <> None -> dirs b = None ->
     init (still_gallery dirs pics) T (a :: b :: more) w =
     (Raise (FileNotFoundError (lit "Input directory not found: " ++ b)), w)) /\
  (forall dirs pics T a b more w first_files second_files,
     dirs a = Some first_files -> dirs b = Some second_files ->
     (forall name, In name first_files -> ~ In name second_files) ->
     exists w',
       init (still_gallery dirs pics) T (a :: b :: more) w =
       (Raise (SystemExit (exit_message
          (lit "No matching PNG filenames across the first two inputs"))), w') /\
       trace w' = trace w ++ diff_warning dirs more).
Proof.
  split; [|split; [|split]].
  - intros G T inputs w H. destruct inputs as [|a [|b more]]; try reflexivity.
    cbn in H. lia.
  - intros dirs pics T a b more w Ha. unfold init.
    unfold io_bind at 1. cbn [check_directories]. unfold io_bind at 1.
    rewrite not_a_directory_still, Ha. reflexivity.
  - intros dirs pics T a b more w Ha Hb. unfold init.
    unfold io_bind at 1. cbn [check_directories]. unfold io_bind at 1.
    rewrite not_a_directory_still. destruct (dirs a); [|now destruct Ha].
    unfold io_bind at 1. rewrite not_a_directory_still, Hb. reflexivity.
  - intros dirs pics T a b more w fa fb Ha Hb Hnone.
    assert (Hshared : sorted (both fa fb) = []).
    { rewrite (nothing_in _ (both fa fb)); [reflexivity|].
      intros name H. apply both_In in H. destruct H as [H1 H2].
      exact (Hnone name H1 H2). }
    unfold init. unfold io_bind at 1.
    rewrite (check_directories_still dirs pics a b w fa fb Ha Hb).
    destruct more as [|d more]; cbn [diff_warning].
    + exists w. split; [|now rewrite app_nil_r].
      unfold io_bind at 1. unfold io_ret at 1.
      unfold io_bind at 1. cbn [glob_png still_gallery]. rewrite Ha. unfold io_ret at 1.
      unfold io_bind at 1. cbn [glob_png still_gallery]. rewrite Hb. unfold io_ret at 1.
      rewrite Hshared. reflexivity.
    + destruct (dirs d) as [found|] eqn:Hd.
      * exists w. split; [|now rewrite app_nil_r].
        unfold io_bind at 1. unfold io_bind at 1.
        cbn [path_exists still_gallery]. rewrite Hd. unfold io_ret at 1.
        cbn [negb]. unfold io_ret at 1.
        unfold io_bind at 1. cbn [glob_png still_gallery]. rewrite Ha. unfold io_ret at 1.
        unfold io_bind at 1. cbn [glob_png still_gallery]. rewrite Hb. unfold io_ret at 1.
        rewrite Hshared. reflexivity.
      * exists (emit w (E_log WARNING (lit "Diff directory not found: " ++ d) None)).
        split; [|reflexivity].
        unfold io_bind at 1. unfold io_bind at 1.
        cbn [path_exists still_gallery]. rewrite Hd. unfold io_ret at 1.
        cbn [negb]. unfold io_bind at 1, log_text at 1. unfold io_ret at 1.
        unfold io_bind at 1. cbn [glob_png still_gallery]. rewrite Ha. unfold io_ret at 1.
        unfold io_bind at 1. cbn [glob_png still_gallery]. rewrite Hb. unfold io_ret at 1.
        rewrite Hshared. reflexivity.
Qed.

Lemma viewer_refuses_bad_inputs_before_opening_a_window_witness :
  let dirs := fun d : str =>
    if str_eqb d (lit "run01") then Some [lit "000_a.png"]
    else if str_eqb d (lit "run02") then Some [lit "000_b.png"] else None in
  let w := mkWorld 0 [] 1 None None [] in
  exists w',
    init (still_gallery dirs (fun _ => None)) idle_tk
         [lit "run01"; lit "run02"; lit "diffs"] w =
    (Raise (SystemExit (exit_message
       (lit "No matching PNG filenames across the first two inputs"))), w') /\
    trace w' = [E_log WARNING (lit "Diff directory not found: diffs") None].
Proof.
  intros dirs w.
  apply (proj2 (proj2 (proj2 viewer_refuses_bad_inputs_before_opening_a_window))
           dirs (fun _ => None) idle_tk (lit "run01") (lit "run02") [lit "diffs"] w
           [lit "000_a.png"] [lit "000_b.png"] eq_refl eq_refl).
  intros name [<-|[]] [H|[]]. discriminate H.
Defined.

(** X24. On two directories with a common name, and with a tkinter
    whose calls succeed, [InteractiveViewer(inputs)] gives a viewer on the
    first of the shared names in ascending order, side by side, with
    [alpha] and [split] at one half; it is in range. A third input is
    kept, with the names found in it, only if it exists. *)
Theorem viewer_starts_on_the_first_shared_frame :
  forall dirs pics T a b more w first_files second_files,
    responsive T ->
    dirs a = Some first_files -> dirs b = Some second_files ->
    sorted (both first_files second_files) <> [] ->
    exists v w',
      init (still_gallery dirs pics) T (a :: b :: more) w = (Ok v, w') /\
      names v = sorted (both first_files second_files) /\
      index v = 0%Z /\ mode v = 0%Z /\ alpha v = 1 # 2 /\ split v = 1 # 2 /\
      (dir_diff v, files_diff v) = diff_kept dirs more /\
      in_range v.
Proof.
  intros dirs pics T a b more w fa fb HT Ha Hb Hne.
  assert (Hstart : forall dd fd w0,
    exists v w',
      (let '(r, v1, w1) :=
         render T (mkViewer a b dd (sorted (both fa fb)) fd 0 0 (1 # 2) (1 # 2)
                            true true None None) w0 in
       match r with Ok _ => (Ok v1, w1) | Raise e => (Raise e, w1) end) = (Ok v, w') /\
      names v = sorted (both fa fb) /\
      index v = 0%Z /\ mode v = 0%Z /\ alpha v = 1 # 2 /\ split v = 1 # 2 /\
      (dir_diff v, files_diff v) = (dd, fd) /\ in_range v).
  { intros dd fd w0.
    destruct (render_responsive T
      (mkViewer a b dd (sorted (both fa fb)) fd 0 0 (1 # 2) (1 # 2) true true None None)
      w0 HT) as (x & width & w1 & ->).
    eexists. exists w1. split; [reflexivity|]. cbn. repeat split; try discriminate.
    destruct (sorted (both fa fb)); [now destruct Hne|cbn; lia]. }
  pose proof HT as (Hopen & _).
  unfold init. unfold io_bind at 1.
  rewrite (check_directories_still dirs pics a b w fa fb Ha Hb).
  destruct more as [|d more]; cbn [diff_kept].
  - unfold io_bind at 1. unfold io_ret at 1.
    unfold io_bind at 1. cbn [glob_png still_gallery]. rewrite Ha. unfold io_ret at 1.
    unfold io_bind at 1. cbn [glob_png still_gallery]. rewrite Hb. unfold io_ret at 1.
    destruct (sorted (both fa fb)) as [|n0 rest] eqn:Es; [now destruct Hne|].
    rewrite <- Es in *.
    unfold io_bind at 1. unfold io_ret at 1. unfold io_bind at 1.
    destruct (Hopen w) as (w1 & ->). apply Hstart.
  - destruct (dirs d) as [found|] eqn:Hd.
    + unfold io_bind at 1. unfold io_bind at 1.
      cbn [path_exists still_gallery]. rewrite Hd. unfold io_ret at 1.
      cbn [negb]. unfold io_ret at 1.
      unfold io_bind at 1. cbn [glob_png still_gallery]. rewrite Ha. unfold io_ret at 1.
      unfold io_bind at 1. cbn [glob_png still_gallery]. rewrite Hb. unfold io_ret at 1.
      destruct (sorted (both fa fb)) as [|n0 rest] eqn:Es; [now destruct Hne|].
      rewrite <- Es in *.
      unfold io_bind at 1. unfold io_bind at 1. cbn [glob_png still_gallery].
      rewrite Hd. unfold io_ret at 1. unfold io_ret at 1. unfold io_bind at 1.
      destruct (Hopen w) as (w1 & ->). apply Hstart.
    + unfold io_bind at 1. unfold io_bind at 1.
      cbn [path_exists still_gallery]. rewrite Hd. unfold io_ret at 1.
      cbn [negb]. unfold io_bind at 1, log_text at 1. unfold io_ret at 1.
      unfold io_bind at 1. cbn [glob_png still_gallery]. rewrite Ha. unfold io_ret at 1.
      unfold io_bind at 1. cbn [glob_png still_gallery]. rewrite Hb. unfold io_ret at 1.
      destruct (sorted (both fa fb)) as [|n0 rest] eqn:Es; [now destruct Hne|].
      rewrite <- Es in *.
      unfold io_bind at 1. unfold io_ret at 1. unfold io_bind at 1.
      match goal with |- context [tk_open T ?w0] => destruct (Hopen w0) as (w1 & ->) end.
      apply Hstart.
Qed.

Lemma viewer_starts_on_the_first_shared_frame_witness :
  let dirs := fun d : str =>
    if str_eqb d (lit "run01") then Some [lit "b.png"; lit "a.png"; lit "c.png"]
    else if str_eqb d (lit "run02") then Some [lit "a.png"; lit "d.png"; lit "b.png"]
    else None in
  let w := mkWorld 0 [] 1 None None [] in
  exists v w',
    init (still_gallery dirs (fun _ => None)) idle_tk
         [lit "run01"; lit "run02"; lit "diffs"] w = (Ok v, w') /\
    names v = [lit "a.png"; lit "b.png"] /\ index v = 0%Z /\ dir_diff v = None.
Proof.
  intros dirs w.
  assert (HT : responsive idle_tk).
  { split; [|split]; intros; eexists; try eexists; reflexivity. }
  destruct (viewer_starts_on_the_first_shared_frame dirs (fun _ => None) idle_tk
              (lit "run01") (lit "run02") [lit "diffs"] w
              [lit "b.png"; lit "a.png"; lit "c.png"]
              [lit "a.png"; lit "d.png"; lit "b.png"] HT eq_refl eq_refl)
    as (v & w' & Hrun & Hn & Hi & _ & _ & _ & Hd & _).
  - discriminate.
  - exists v, w'. split; [exact Hrun|]. split; [exact Hn|]. split; [exact Hi|].
    now injection Hd.
Defined.

(** X25. In split mode, on a canvas that is shown and after a frame
    has been drawn [draw_w] pixels wide from column [draw_x], a click or
    a drag at column [x] puts the splitter there: at the left edge for a
    column left of the image, at the right edge for a column right of it,
    and at [(x - draw_x) / draw_w] in between. In any other mode the click
    does nothing and asks tkinter nothing. *)
Theorem click_moves_the_splitter_within_the_image :
  (forall T x v w draw_x draw_w,
     canvas_shown T -> mode v = 2%Z ->
     _draw_x v = Some draw_x -> _draw_w v = Some draw_w -> (0 < draw_w)%Z ->
     let v1 := viewer_of (_on_click T x v w) in
     viewer_of (_on_drag T x v w) = v1 /\
     ((x <= draw_x)%Z -> split v1 = 0) /\
     ((draw_x + draw_w <= x)%Z -> split v1 = 1) /\
     ((draw_x < x < draw_x + draw_w)%Z ->
      split v1 == inject_Z (x - draw_x) / inject_Z draw_w /\ 0 < split v1 < 1)) /\
  (forall T x v w, mode v <> 2%Z -> _on_click T x v w = (Ok tt, v, w)).
Proof.
  split.
  - intros T x v w dx dw HT Hm Hx Hw Hpos. cbv zeta. split; [reflexivity|].
    unfold _on_click. rewrite Hm. cbn [Z.eqb Pos.eqb].
    destruct (HT w) as (width & w1 & -> & Hwidth).
    apply Z.ltb_lt in Hwidth. rewrite Hwidth.
    unfold _update_split_from_x. rewrite Hx, Hw.
    destruct (HT w1) as (width2 & w2 & -> & _).
    rewrite (Z.max_r 1 dw) by lia.
    destruct (set_split_settings T (fdiv (of_int (x - dx)) (of_int dw)) v w2)
      as (_ & _ & _ & -> & _).
    assert (Hdw : 0 < inject_Z dw).
    { change 0 with (inject_Z 0). rewrite <- Zlt_Qlt. exact Hpos. }
    assert (Hrel : fdiv (of_int (x - dx)) (of_int dw) == inject_Z (x - dx) / inject_Z dw).
    { unfold of_int. apply fdiv_eq. }
    assert (Hmul : inject_Z (x - dx) / inject_Z dw * inject_Z dw == inject_Z (x - dx)).
    { field. lra. }
    split; [|split].
    + intros Hle. apply clamp_low. rewrite Hrel.
      assert (Hn : inject_Z (x - dx) <= 0).
      { change 0 with (inject_Z 0). rewrite <- Zle_Qle. lia. }
      apply Qle_shift_div_r; [exact Hdw|]. lra.
    + intros Hge. apply clamp_high. rewrite Hrel.
      assert (Hn : inject_Z dw <= inject_Z (x - dx)).
      { rewrite <- Zle_Qle. lia. }
      apply Qle_shift_div_l; [exact Hdw|]. lra.
    + intros [Hlo Hhi].
      assert (H0 : 0 < inject_Z (x - dx)).
      { change 0 with (inject_Z 0). rewrite <- Zlt_Qlt. lia. }
      assert (H1 : inject_Z (x - dx) < inject_Z dw).
      { rewrite <- Zlt_Qlt. lia. }
      assert (Hin : 0 < fdiv (of_int (x - dx)) (of_int dw) < 1).
      { rewrite Hrel. split.
        - apply Qlt_shift_div_l; [exact Hdw|]. lra.
        - apply Qlt_shift_div_r; [exact Hdw|]. lra. }
      rewrite (clamp_inside _ Hin). split; [exact Hrel|exact Hin].
  - intros T x v w Hm. unfold _on_click.
    destruct (Z.eqb_spec (mode v) 2); [contradiction|reflexivity].
Qed.

Lemma click_moves_the_splitter_within_the_image_witness :
  let v := mkViewer (lit "a") (lit "b") None [lit "0.png"] []
                    2 0 (1 # 2) (1 # 2) true true (Some 100%Z) (Some 400%Z) in
  let w := mkWorld 0 [] 1 None None [] in
  split (viewer_of (_on_click idle_tk 40 v w)) = 0 /\
  split (viewer_of (_on_click idle_tk 900 v w)) = 1 /\
  split (viewer_of (_on_click idle_tk 200 v w)) == 1 # 4.
Proof.
  intros v w.
  assert (HT : canvas_shown idle_tk).
  { intros w0. exists 800%Z, w0. split; [reflexivity|lia]. }
  assert (Hpos : (0 < 400)%Z) by lia.
  split; [|split].
  - apply (proj1 click_moves_the_splitter_within_the_image idle_tk 40%Z v w 100%Z 400%Z
             HT eq_refl eq_refl eq_refl Hpos). lia.
  - apply (proj1 click_moves_the_splitter_within_the_image idle_tk 900%Z v w 100%Z 400%Z
             HT eq_refl eq_refl eq_refl Hpos). lia.
  - destruct (proj1 click_moves_the_splitter_within_the_image idle_tk 200%Z v w 100%Z
             400%Z HT eq_refl eq_refl eq_refl Hpos) as (_ & _ & _ & H).
    destruct H as [H _]; [lia|]. rewrite H. reflexivity.
Defined.

End ViewerTheorems.

(** ** Windows, buttons and tools of the X11 side *)

Module TreeFacts.
Import Py X11 X11Spec.

Lemma existsb_eqb_In k ks : existsb (Z.eqb k) ks = true <-> In k ks.
Proof.
  rewrite existsb_exists. split.
  - intros (x & Hin & E). apply Z.eqb_eq in E. now subst.
  - intros H. exists k. split; [exact H|apply Z.eqb_refl].
Qed.

Lemma keys_dict_set k v d : map fst (dict_set k v d) = key_added k (map fst d).
Proof.
  unfold key_added. induction d as [|[k' v'] d IH]; [reflexivity|].
  cbn [dict_set map fst existsb].
  rewrite (Z.eqb_sym k k'). destruct (Z.eqb_spec k' k) as [->|Hne].
  - reflexivity.
  - cbn [orb map fst]. rewrite IH. now destruct (existsb (Z.eqb k) (map fst d)).
Qed.

Lemma find_app (p : Z -> bool) a b :
  find p (a ++ b) = match find p a with Some x => Some x | None => find p b end.
Proof.
  induction a as [|x a IH]; [reflexivity|]. cbn. now destruct (p x).
Qed.

Lemma find_key_added p k ks :
  find p (key_added k ks) =
  match find p ks with Some x => Some x | None => find p [k] end.
Proof.
  unfold key_added. destruct (existsb (Z.eqb k) ks) eqn:E.
  - apply existsb_eqb_In in E. destruct (find p ks) eqn:F; [reflexivity|].
    cbn. destruct (p k) eqn:Hp; [|reflexivity].
    exfalso. eapply find_none in F; [|exact E]. congruence.
  - apply find_app.
Qed.

Lemma find_keys_added p s : forall ks,
  find p (fold_left (fun ks k => key_added k ks) s ks) =
  match find p ks with Some x => Some x | None => find p s end.
Proof.
  induction s as [|k s IH]; intros ks; cbn [fold_left].
  - now destruct (find p ks).
  - rewrite IH, find_key_added. destruct (find p ks); [reflexivity|].
    cbn. now destruct (p k).
Qed.

Section Still.
Variable top : Z.
Variable kids : Z -> list Z.
Variables titles classes : Z -> option str.
Let D := still_display top kids titles classes.

Lemma traverse_still : forall fuel window depth windows w,
  (depth + fuel = 11)%nat ->
  exists windows',
    traverse_tree D fuel window depth windows w = (Ok tt, windows', w) /\
    map fst windows' =
    fold_left (fun ks k => key_added k ks) (reach kids fuel window) (map fst windows).
Proof.
  induction fuel as [|fuel IH]; intros window depth windows w Hd.
  - exists windows. split; reflexivity.
  - assert (Hdepth : (10 <? depth)%nat = false) by (apply Nat.ltb_ge; lia).
    cbn [traverse_tree]. rewrite Hdepth.
    cbn [D still_display _get_window_title _get_window_class query_tree_children].
    unfold io_ret at 1 2 3.
    cbn [reach fold_left].
    rewrite <- (keys_dict_set window
                  (mkWindowInfo (titles window) (classes window) depth) windows).
    generalize (dict_set window (mkWindowInfo (titles window) (classes window) depth)
                         windows).
    induction (kids window) as [|child rest IHc]; intros windows1.
    + exists windows1. split; reflexivity.
    + destruct (IH child (S depth) windows1 w ltac:(lia)) as (windows2 & E2 & K2).
      destruct (IHc windows2) as (windows3 & E3 & K3).
      exists windows3. split.
      * rewrite E2. exact E3.
      * rewrite K3, K2. cbn [flat_map]. now rewrite fold_left_app.
Qed.

Lemma window_tree_still w :
  exists windows,
    _get_window_tree D w = (Ok windows, w) /\
    forall p, find p (map fst windows) = find p (reach kids 11 top).
Proof.
  destruct (traverse_still 11 top 0 [] w eq_refl) as (windows & E & K).
  exists windows. split.
  - unfold _get_window_tree. change (root D) with top. now rewrite E.
  - intros p. rewrite K. apply find_keys_added.
Qed.

Lemma first_with_title_still pattern w : forall windows,
  first_with_title D pattern windows w =
  (Ok (find (named titles classes pattern) (map fst windows)), w).
Proof.
  induction windows as [|[id info] windows IH]; [reflexivity|].
  cbn [first_with_title map fst find]. unfold io_bind at 1.
  cbn [D still_display _get_window_title _get_window_class]. unfold io_ret at 1.
  unfold io_bind at 1. unfold io_ret at 1. unfold named at 1.
  destruct (text_has pattern (titles id)); [reflexivity|].
  destruct (text_has pattern (classes id)); [reflexivity|exact IH].
Qed.

Lemma first_visible_still w : forall windows,
  first_visible D windows w =
  match find (candidate titles classes) (map fst windows) with
  | Some id =>
      (Ok (Some id),
       emit w (E_log DEBUG
         (lit "Found candidate window 0x{window_id:x}: title='{window_title}', class='{window_class}'")
         None))
  | None => (Ok None, w)
  end.
Proof.
  induction windows as [|[id info] windows IH]; [reflexivity|].
  cbn [first_visible map fst find]. unfold io_bind at 1.
  cbn [D still_display _get_window_title _get_window_class]. unfold io_ret at 1.
  unfold io_bind at 1. unfold io_ret at 1. unfold candidate at 1.
  destruct (titles id) as [[|c t]|]; cbn [truthy_text negb andb orb].
  - destruct (classes id) as [[|c' t']|]; cbn [truthy_text negb andb orb];
      try exact IH; reflexivity.
  - destruct (system_title (c :: t)); cbn [negb]; [exact IH|reflexivity].
  - destruct (classes id) as [[|c' t']|]; cbn [truthy_text negb andb orb];
      try exact IH; reflexivity.
Qed.
End Still.

End TreeFacts.

Module ToolFacts.
Import Py X11 X11Spec ScriptParser TranscriptSpec GrammarSpec.

Lemma lower_lower c : lower (lower c) = lower c.
Proof. destruct c as [[] [] [] [] [] [] [] []]; reflexivity. Qed.

Lemma str_lower_lower s : str_lower (str_lower s) = str_lower s.
Proof.
  unfold str_lower. rewrite map_map. apply map_ext. intros c. apply lower_lower.
Qed.

Lemma button_code_range button code :
  _get_button_code button = Some code -> (1 <= code <= 7)%Z.
Proof.
  unfold _get_button_code.
  repeat match goal with
         | |- context [if ?c then _ else _] => destruct c
         end; intros H; inversion H; lia.
Qed.

Lemma exits_with_0_outcome Sh cmd w :
  exists w',
    (exists b, exits_with_0 Sh cmd w = (Ok b, w')) \/
    (exists e, exits_with_0 Sh cmd w = (Raise e, w') /\
               e <> TimeoutExpired /\ forall m, e <> FileNotFoundError m).
Proof.
  unfold exits_with_0. destruct (subprocess_run Sh cmd w) as [[rc|e] w1]; exists w1.
  - left. eauto.
  - destruct e; try (left; eauto; fail); right; eexists; repeat split;
      try discriminate; intros; discriminate.
Qed.

(** A guarded computation raises nothing [except Exception] would have
    caught. *)
Lemma io_except_outcome (A : Type) (m : IO A) (h : exn -> IO A) w :
  (forall e w0, exists a w1, h e w0 = (Ok a, w1)) ->
  exists w',
    (exists a, io_except m h w = (Ok a, w')) \/
    (exists e, io_except m h w = (Raise e, w') /\ is_Exception e = false).
Proof.
  intros Hh. unfold io_except. destruct (m w) as [[a|e] w1].
  - exists w1. left. eauto.
  - destruct (is_Exception e) eqn:E.
    + destruct (Hh e w1) as (a & w2 & ->). exists w2. left. eauto.
    + exists w1. right. eauto.
Qed.

Section Tools.
Variable installed : str -> bool.
Variable status : list str -> Z.
Variable display : option str.
Hypothesis has_which : installed (lit "which") = true.
Let Sh := tools installed status display.

Lemma which_tool tool w :
  subprocess_run Sh [lit "which"; tool] w =
  (Ok (if installed tool then 0%Z else 1%Z), w).
Proof.
  cbn [Sh tools subprocess_run]. rewrite has_which. reflexivity.
Qed.

Lemma which_any_tools w : forall names,
  which_any Sh names w = (Ok (existsb installed names), w).
Proof.
  induction names as [|tool names IH]; [reflexivity|].
  cbn [which_any existsb]. unfold io_bind at 1. rewrite which_tool.
  destruct (installed tool); [reflexivity|exact IH].
Qed.
End Tools.

Lemma exits_with_0_tools installed status display prog args w :
  str_eqb prog (lit "which") = false ->
  exits_with_0 (tools installed status display) (prog :: args) w =
  (Ok (installed prog && (status (prog :: args) =? 0)%Z), w).
Proof.
  intros Hw. unfold exits_with_0. cbn [tools subprocess_run].
  destruct (installed prog); cbn [negb andb]; [|reflexivity].
  now rewrite Hw.
Qed.

End ToolFacts.

Module X11Theorems.
Import Py X11 X11Spec ScriptParser TranscriptSpec GrammarSpec GallerySpec.
Import GrammarFacts TreeFacts ToolFacts.
Local Open Scope io_scope.

(** X26. On a display that does not change while it is searched,
    [find_window_by_title] answers the first window -- the root first, a
    window before the windows below it -- whose title or, failing that,
    whose class holds the pattern in any case, and [None] if there is
    none; [find_any_visible_window] answers the first window that has a
    title which is not one of the desktop's, or no title and a class. Both
    look at the windows at most ten levels below the root and at no
    other. *)
Theorem window_search_answers_the_first_match_within_ten_levels :
  forall top kids titles classes pattern w,
    let D := still_display top kids titles classes in
    let windows := reach kids 11 top in
    find_window_by_title D pattern w =
      (Ok (find (named titles classes pattern) windows), w) /\
    fst (find_any_visible_window D w) = Ok (find (candidate titles classes) windows) /\
    (forall id,
       find_window_by_title D pattern w = (Ok (Some id), w) ->
       In id windows /\ named titles classes pattern id = true) /\
    (forall id,
       fst (find_any_visible_window D w) = Ok (Some id) ->
       In id windows /\ candidate titles classes id = true).
Proof.
  intros top kids titles classes pattern w D windows.
  destruct (window_tree_still top kids titles classes w) as (dict & Et & Hfind).
  fold D in Et.
  assert (H1 : find_window_by_title D pattern w =
               (Ok (find (named titles classes pattern) windows), w)).
  { unfold find_window_by_title, io_bind. rewrite Et.
    unfold D. rewrite first_with_title_still. now rewrite Hfind. }
  assert (H2 : fst (find_any_visible_window D w) =
               Ok (find (candidate titles classes) windows)).
  { unfold find_any_visible_window, io_bind. rewrite Et.
    unfold D. rewrite first_visible_still. rewrite Hfind. fold windows.
    now destruct (find (candidate titles classes) windows). }
  split; [exact H1|]. split; [exact H2|]. split.
  - intros id H. rewrite H1 in H.
    assert (E : find (named titles classes pattern) windows = Some id) by congruence.
    now apply find_some in E.
  - intros id H. rewrite H2 in H.
    assert (E : find (candidate titles classes) windows = Some id) by congruence.
    now apply find_some in E.
Qed.

(** X27. [_get_button_code] knows a button by its name in any case,
    and its codes are 1 to 7. The button the Linux replay sends for a
    mouse event of a parsed script -- [event.button or "left"] -- has code
    1 or 3. For a button without a code [mouse_press] and [mouse_release]
    answer [False] at once: no tool is run, nothing is sent and nothing is
    logged. Whatever the tools and the display do, [mouse_press] and
    [mouse_release] raise nothing that [except Exception] catches. *)
Theorem script_buttons_have_codes_and_unknown_buttons_send_nothing :
  (forall button, _get_button_code (str_lower button) = _get_button_code button) /\
  (forall button code, _get_button_code button = Some code -> (1 <= code <= 7)%Z) /\
  (forall lines events e,
     parse lines = Ok events -> In e events ->
     action e = lit "mouse_press" \/ action e = lit "mouse_release" ->
     _get_button_code (button_sent e) = Some 1%Z \/
     _get_button_code (button_sent e) = Some 3%Z) /\
  (forall D Sh button w,
     _get_button_code button = None ->
     mouse_press D Sh button w = (Ok false, w) /\
     mouse_release D Sh button w = (Ok false, w)) /\
  (forall D Sh button w,
     (exists w', (exists b, mouse_press D Sh button w = (Ok b, w')) \/
                 (exists e, mouse_press D Sh button w = (Raise e, w') /\
                            is_Exception e = false)) /\
     (exists w', (exists b, mouse_release D Sh button w = (Ok b, w')) \/
                 (exists e, mouse_release D Sh button w = (Raise e, w') /\
                            is_Exception e = false))).
Proof.
  split; [|split; [|split; [|split]]].
  - intros button. unfold _get_button_code. now rewrite str_lower_lower.
  - exact button_code_range.
  - intros lines events e Hp Hin Hact.
    pose proof (parse_shape lines events Hp) as Hall.
    rewrite Forall_forall in Hall. destruct (Hall e Hin) as [_ He].
    destruct He as [idx ts d pressed left wp wd line | idx ts d pressed key line Hk
                   | idx ts d line]; cbn [action] in Hact.
    + destruct left; [left|right]; reflexivity.
    + destruct pressed; destruct Hact as [H|H]; discriminate H.
    + destruct Hact as [H|H]; discriminate H.
  - intros D Sh button w Hnone. unfold mouse_press, mouse_release, io_except.
    rewrite Hnone. split; reflexivity.
  - intros D Sh button w. split; apply io_except_outcome;
      intros e w0; eexists; eexists; reflexivity.
Qed.

Lemma script_buttons_have_codes_and_unknown_buttons_send_nothing_witness :
  exists e,
    parse [lit "[ +0.250s ] onMousePressed R: window(10,20) world(0.5,0.5)"] = Ok [e] /\
    button_sent e = lit "right" /\
    _get_button_code (button_sent e) = Some 3%Z.
Proof.
  destruct (parse [lit "[ +0.250s ] onMousePressed R: window(10,20) world(0.5,0.5)"])
    as [events|err] eqn:Hp; [|vm_compute in Hp; discriminate Hp].
  destruct events as [|e [|e2 rest]]; try (vm_compute in Hp; discriminate Hp).
  exists e. split; [reflexivity|].
  assert (Hb : button_sent e = lit "right").
  { vm_compute in Hp. injection Hp as <-. reflexivity. }
  split; [exact Hb|].
  destruct (proj1 (proj2 (proj2 script_buttons_have_codes_and_unknown_buttons_send_nothing))
              _ _ e Hp (or_introl eq_refl)) as [H|H].
  - vm_compute in Hp. injection Hp as <-. left. reflexivity.
  - rewrite Hb in H. discriminate H.
  - exact H.
Defined.

(** X28. With [which] on the path and programs that leave no trace,
    [check_x11_dependencies] reports, in this order, that none of scrot,
    import and xwd is there, that xdotool is not there, and that DISPLAY
    is unset or empty; [setup_linux_environment] answers [True] exactly
    on Linux with nothing missing, after one line at info level, and
    otherwise lists what is missing at error level. xwd alone satisfies
    the check, but [capture_screen] runs scrot and import only: without
    these two it answers [False] after one warning, whatever else is
    installed. *)
Theorem environment_check_accepts_xwd_that_screen_capture_never_runs :
  forall installed status display w,
    installed (lit "which") = true ->
    let Sh := tools installed status display in
    let missing := missing_tools installed display in
    check_x11_dependencies Sh w = (Ok missing, w) /\
    (exists w',
       setup_linux_environment Sh true w =
         (Ok (match missing with [] => true | _ => false end), w') /\
       trace w' = trace w ++ setup_report missing) /\
    setup_linux_environment Sh false w =
      (Ok false,
       emit w (E_log WARNING
                 (lit "Not running on Linux - X11 features will not be available") None)) /\
    (forall output_path,
       fst (capture_screen Sh output_path w) =
       Ok ((installed (lit "scrot") &&
            (status [lit "scrot"; output_path] =? 0)%Z) ||
           (installed (lit "import") &&
            (status [lit "import"; output_path] =? 0)%Z))) /\
    (forall output_path,
       installed (lit "scrot") = false -> installed (lit "import") = false ->
       capture_screen Sh output_path w =
       (Ok false,
        emit w (E_log WARNING
                  (lit "No screenshot tool available. Install scrot or ImageMagick.")
                  None))).
Proof.
  intros installed status display w Hwhich Sh missing.
  assert (Hcheck : forall w0, check_x11_dependencies Sh w0 = (Ok missing, w0)).
  { intros w0. unfold check_x11_dependencies.
    unfold io_bind at 1. unfold Sh. rewrite (which_any_tools installed status display Hwhich).
    unfold io_bind at 1. rewrite (which_tool installed status display Hwhich).
    unfold io_bind at 1.
    change (environ_get (tools installed status display) (lit "DISPLAY") w0)
      with (@Ok (option str) display, w0).
    unfold io_ret, missing, missing_tools.
    destruct (existsb installed [lit "scrot"; lit "import"; lit "xwd"]);
      destruct (installed (lit "xdotool")); destruct (truthy_text display); reflexivity. }
  assert (Hscreen : forall output_path,
    capture_screen Sh output_path w =
    if installed (lit "scrot") && (status [lit "scrot"; output_path] =? 0)%Z then
      (Ok true,
       emit w (E_log DEBUG (lit "Captured screen using scrot: {output_path}") None))
    else if installed (lit "import") && (status [lit "import"; output_path] =? 0)%Z then
      (Ok true,
       emit w (E_log DEBUG (lit "Captured screen using import: {output_path}") None))
    else
      (Ok false,
       emit w (E_log WARNING
                 (lit "No screenshot tool available. Install scrot or ImageMagick.")
                 None))).
  { intros output_path. unfold capture_screen, io_except, capture_screen_tools.
    unfold io_bind at 1. unfold Sh.
    rewrite (exits_with_0_tools installed status display (lit "scrot") [output_path] w
               eq_refl).
    destruct (installed (lit "scrot") && (status [lit "scrot"; output_path] =? 0)%Z);
      [reflexivity|].
    unfold io_bind at 1.
    rewrite (exits_with_0_tools installed status display (lit "import") [output_path] w
               eq_refl).
    destruct (installed (lit "import") && (status [lit "import"; output_path] =? 0)%Z);
      reflexivity. }
  split; [apply Hcheck|]. split; [|split; [reflexivity|split]].
  - unfold setup_linux_environment. cbn [negb]. unfold io_bind at 1. rewrite Hcheck.
    destruct missing as [|item rest] eqn:Em.
    + eexists. split; reflexivity.
    + assert (Hfor : forall (items : list str) w0, exists w1,
                io_for items (fun item : str => log_text ERROR (lit "  - " ++ item)) w0 =
                  (Ok tt, w1) /\
                trace w1 = trace w0 ++
                           map (fun item => E_log ERROR (lit "  - " ++ item) None) items).
      { induction items as [|i items IH]; intros w0.
        - exists w0. split; [reflexivity|]. cbn. now rewrite app_nil_r.
        - destruct (IH (emit w0 (E_log ERROR (lit "  - " ++ i) None))) as (w1 & E & Ht).
          exists w1. split.
          + cbn [io_for]. unfold io_bind at 1, log_text at 1. exact E.
          + rewrite Ht. cbn [emit trace map]. now rewrite <- app_assoc. }
      destruct (Hfor (item :: rest)
                  (emit w (E_log ERROR (lit "Missing required X11 dependencies:") None)))
        as (w1 & E1 & T1).
      eexists. split.
      * unfold io_bind at 1, Sys.log at 1. unfold io_bind at 1. rewrite E1.
        unfold io_bind at 1, Sys.log at 1. reflexivity.
      * cbn [emit trace setup_report]. rewrite T1. cbn [emit trace].
        now rewrite <- !app_assoc.
  - intros output_path. rewrite Hscreen.
    destruct (installed (lit "scrot") && (status [lit "scrot"; output_path] =? 0)%Z);
      [reflexivity|].
    destruct (installed (lit "import") && (status [lit "import"; output_path] =? 0)%Z);
      reflexivity.
  - intros output_path H1 H2. rewrite Hscreen, H1, H2. reflexivity.
Qed.

Lemma environment_check_accepts_xwd_that_screen_capture_never_runs_witness :
  let installed := fun prog : str =>
    str_eqb prog (lit "which") || str_eqb prog (lit "xwd") ||
    str_eqb prog (lit "xdotool") in
  let Sh := tools installed (fun _ => 0%Z) (Some (lit ":0")) in
  let w := mkWorld 0 [] 1 None None [] in
  fst (setup_linux_environment Sh true w) = Ok true /\
  fst (capture_screen Sh (lit "shots/000_after_launch.png") w) = Ok false.
Proof.
  intros installed Sh w.
  destruct (environment_check_accepts_xwd_that_screen_capture_never_runs
              installed (fun _ => 0%Z) (Some (lit ":0")) w eq_refl)
    as (_ & (w' & Hs & _) & _ & _ & Hc).
  split.
  - fold Sh in Hs. rewrite Hs. reflexivity.
  - fold Sh in Hc. rewrite (Hc (lit "shots/000_after_launch.png") eq_refl eq_refl).
    reflexivity.
Defined.

End X11Theorems.

(** ** Waiting on Linux *)

Module LinuxFacts.
Import Py RunnerSpec ReplaySpec LinuxSpec AutomationRunner.
Import RunnerFacts CaptureFacts StealthFacts WaitFacts.
Local Open Scope m_scope.
Local Open Scope Q_scope.

Lemma now_nap w : now (nap w) == now w + (1 # 10).
Proof. unfold nap, Sys.sleep. cbn [fltb Qle_bool]. simpl. rewrite fadd_eq. lra. Qed.

Lemma trace_nap w : trace (nap w) = trace w ++ [E_sleep (1 # 10)].
Proof. reflexivity. Qed.

Lemma polls_cover (timeout : Q) :
  0 < timeout ->
  let n := inject_Z (Z.of_nat (polls timeout)) in
  timeout <= n * (1 # 10) /\ n * (1 # 10) - (1 # 10) < timeout.
Proof.
  intros Hpos n. unfold n, polls.
  pose proof (Qle_ceiling (timeout * 10)) as Hle.
  pose proof (Qceiling_lt (timeout * 10)) as Hlt.
  unfold Z.sub in Hlt. rewrite inject_Z_plus, inject_Z_opp in Hlt.
  change (inject_Z 1) with 1 in Hlt.
  set (c := Qceiling (timeout * 10)) in *.
  assert (Hx : 0 < inject_Z c).
  { generalize dependent (inject_Z c). intros x Hle Hlt. lra. }
  assert (Hc : (0 < c)%Z).
  { rewrite Zlt_Qlt. exact Hx. }
  rewrite Z2Nat.id by lia.
  split; generalize dependent (inject_Z c); intros x Hle Hlt Hx; lra.
Qed.

Section Linux.
Variable B : Backend.
Variable config : AutomationConfig.

Lemma await_loop_stop fuel start p s w :
  fltb (fsub (now w) start) (exit_timeout config) = false ->
  await_exit_loop B config (S fuel) start p s w = Some (Ok tt, s, w).
Proof.
  intros H. cbn [await_exit_loop].
  rewrite (bind_ok _ _ (lift Sys.time) _ s w (now w) s w eq_refl). now rewrite H.
Qed.

Lemma await_loop_gone fuel start p s w w1 :
  fltb (fsub (now w) start) (exit_timeout config) = true ->
  is_process_running B p w = (Ok false, w1) ->
  await_exit_loop B config (S fuel) start p s w = Some (Ok tt, s, w1).
Proof.
  intros H Hgone. cbn [await_exit_loop].
  rewrite (bind_ok _ _ (lift Sys.time) _ s w (now w) s w eq_refl). rewrite H.
  unfold bind at 1, lift at 1. rewrite Hgone. reflexivity.
Qed.

Lemma await_loop_pass fuel start p s w :
  keeps_running B ->
  fltb (fsub (now w) start) (exit_timeout config) = true ->
  await_exit_loop B config (S fuel) start p s w =
  await_exit_loop B config fuel start p s (nap w).
Proof.
  intros Hstay H. cbn [await_exit_loop].
  rewrite (bind_ok _ _ (lift Sys.time) _ s w (now w) s w eq_refl). rewrite H.
  unfold bind at 1, lift at 1. rewrite Hstay. cbn [negb]. reflexivity.
Qed.

Lemma await_loop_polls start p s :
  keeps_running B ->
  forall m fuel w,
    (m < fuel)%nat ->
    exit_timeout config <= now w - start + inject_Z (Z.of_nat m) * (1 # 10) ->
    ((0 < m)%nat ->
     now w - start + inject_Z (Z.of_nat m) * (1 # 10) - (1 # 10) < exit_timeout config) ->
    exists w',
      await_exit_loop B config fuel start p s w = Some (Ok tt, s, w') /\
      trace w' = trace w ++ repeat (E_sleep (1 # 10)) m /\
      now w' == now w + inject_Z (Z.of_nat m) * (1 # 10).
Proof.
  intros Hstay.
  induction m as [|m IH]; intros fuel w Hfuel HA HB;
    (destruct fuel as [|fuel]; [lia|]).
  - exists w. change (inject_Z (Z.of_nat 0)) with 0 in *.
    rewrite await_loop_stop by (apply fltb_false; rewrite fsub_eq; lra).
    split; [reflexivity|]. split; [now rewrite app_nil_r|lra].
  - assert (Hn : inject_Z (Z.of_nat (S m)) == inject_Z (Z.of_nat m) + 1).
    { rewrite Nat2Z.inj_succ, <- Z.add_1_r, inject_Z_plus. reflexivity. }
    rewrite Hn in HA, HB.
    assert (Hm : 0 <= inject_Z (Z.of_nat m)).
    { change 0 with (inject_Z 0). rewrite <- Zle_Qle. lia. }
    specialize (HB ltac:(lia)).
    rewrite await_loop_pass by
      (try exact Hstay; apply fltb_true; rewrite fsub_eq; lra).
    destruct (IH fuel (nap w)) as (w' & Hrun & Ht & Hnow).
    + lia.
    + rewrite now_nap. lra.
    + intros _. rewrite now_nap. lra.
    + exists w'. split; [exact Hrun|]. split.
      * rewrite Ht, trace_nap, <- app_assoc. reflexivity.
      * rewrite Hnow, now_nap, Hn. lra.
Qed.
End Linux.

End LinuxFacts.

Module LinuxWaitFacts.
Import Py RunnerSpec ReplaySpec LinuxSpec AutomationRunner.
Import RunnerFacts CaptureFacts StealthFacts WaitFacts LinuxFacts.
Local Open Scope m_scope.
Local Open Scope Q_scope.

Lemma now_passed config w : now (passed config w) == now w + (1 # 5).
Proof. unfold passed. cbn [now]. rewrite fadd_eq. lra. Qed.

Lemma trace_passed config w : trace (passed config w) = trace w ++ pass_effects config.
Proof. reflexivity. Qed.

Ltac after_sleep :=
  unfold Sys.sleep; change (fltb (2 # 10) 0) with false; cbv beta iota;
  unfold emit, set_now; cbn [now files pid exit_at term_delay trace app];
  rewrite <- ?app_assoc; reflexivity.

Section Linux.
Variable B : Backend.
Variable config : AutomationConfig.
Hypothesis nothing : nothing_found B.

Lemma find_and_focus_nothing p s w :
  find_and_focus B config p s w = Some (Ok None, s, passed config w).
Proof.
  destruct nothing as (Htitle & Hpid & Hany).
  unfold find_and_focus, passed, pass_effects.
  destruct (window_title config) as [[|c t]|] eqn:E; cbn [truthy_text].
  - cbv beta iota delta [bind ret lift logging time_sleep Sys.log truthy_handle negb andb].
    rewrite Hpid. cbv beta iota. rewrite Hany. cbv beta iota delta [truthy_handle].
    after_sleep.
  - cbv beta iota delta [bind ret lift logging time_sleep Sys.log truthy_handle negb andb].
    rewrite Htitle. cbv beta iota. rewrite Hpid. cbv beta iota.
    after_sleep.
  - cbv beta iota delta [bind ret lift logging time_sleep Sys.log truthy_handle negb andb].
    rewrite Hpid. cbv beta iota. rewrite Hany. cbv beta iota delta [truthy_handle].
    after_sleep.
Qed.

Lemma wait_linux_pass fuel deadline p s w :
  fltb (now w) deadline = true ->
  wait_for_window_linux_loop B config (S fuel) deadline p s w =
  wait_for_window_linux_loop B config fuel deadline p s (passed config w).
Proof.
  intros Hlt. cbn [wait_for_window_linux_loop].
  rewrite (bind_ok _ _ (lift Sys.time) _ s w (now w) s w eq_refl). rewrite Hlt.
  unfold bind at 1, try_except. rewrite find_and_focus_nothing. reflexivity.
Qed.

Lemma wait_linux_stop fuel deadline p s w :
  fltb (now w) deadline = false ->
  wait_for_window_linux_loop B config (S fuel) deadline p s w =
  Some (Raise lookup_timeout, s, w).
Proof.
  intros Hlt. cbn [wait_for_window_linux_loop].
  rewrite (bind_ok _ _ (lift Sys.time) _ s w (now w) s w eq_refl). now rewrite Hlt.
Qed.

Lemma wait_linux_polls deadline p s : forall m fuel w,
  (m < fuel)%nat ->
  deadline <= now w + inject_Z (Z.of_nat m) * (1 # 5) ->
  ((0 < m)%nat -> now w + inject_Z (Z.of_nat m) * (1 # 5) - (1 # 5) < deadline) ->
  exists w',
    wait_for_window_linux_loop B config fuel deadline p s w =
    Some (Raise lookup_timeout, s, w') /\
    trace w' = trace w ++ passes config m /\
    now w' == now w + inject_Z (Z.of_nat m) * (1 # 5).
Proof.
  induction m as [|m IH]; intros fuel w Hfuel HA HB;
    (destruct fuel as [|fuel]; [lia|]).
  - exists w. change (inject_Z (Z.of_nat 0)) with 0 in *.
    rewrite wait_linux_stop by (apply fltb_false; lra).
    split; [reflexivity|]. split; [cbn; now rewrite app_nil_r|lra].
  - assert (Hn : inject_Z (Z.of_nat (S m)) == inject_Z (Z.of_nat m) + 1).
    { rewrite Nat2Z.inj_succ, <- Z.add_1_r, inject_Z_plus. reflexivity. }
    rewrite Hn in HA, HB.
    assert (Hm : 0 <= inject_Z (Z.of_nat m)).
    { change 0 with (inject_Z 0). rewrite <- Zle_Qle. lia. }
    specialize (HB ltac:(lia)).
    rewrite wait_linux_pass by (apply fltb_true; lra).
    destruct (IH fuel (passed config w)) as (w' & Hrun & Ht & Hnow).
    + lia.
    + rewrite now_passed. lra.
    + intros _. rewrite now_passed. lra.
    + exists w'. split; [exact Hrun|]. split.
      * rewrite Ht, trace_passed, <- app_assoc. reflexivity.
      * rewrite Hnow, now_passed, Hn. lra.
Qed.
End Linux.

End LinuxWaitFacts.

Module LinuxOrderFacts.
Import Py RunnerSpec ReplaySpec LinuxSpec AutomationRunner.
Import RunnerFacts CaptureFacts StealthFacts WaitFacts LinuxFacts.
Local Open Scope m_scope.
Local Open Scope Q_scope.

Lemma bind_ext (A C : Type) (m : M A) (k k' : A -> M C) s w :
  (forall a s' w', k a s' w' = k' a s' w') -> bind m k s w = bind m k' s w.
Proof.
  intros H. unfold bind. destruct (m s w) as [[[[a|e] s1] w1]|]; auto.
Qed.

Lemma bind_cong (A C : Type) (m m' : M A) (k k' : A -> M C) s w :
  m s w = m' s w ->
  (forall a s' w', k a s' w' = k' a s' w') -> bind m k s w = bind m' k' s w.
Proof.
  intros Hm H. unfold bind. rewrite Hm.
  destruct (m' s w) as [[[[a|e] s1] w1]|]; auto.
Qed.

Section Titled.
Variable B : Backend.
Variable config : AutomationConfig.
Variable any : IO (option Z).
Hypothesis titled : truthy_text (window_title config) = true.

Lemma find_and_focus_titled p s w :
  find_and_focus (with_fallback B any) config p s w = find_and_focus B config p s w.
Proof.
  unfold find_and_focus. rewrite titled. cbn [negb andb].
  cbn [with_fallback find_window_by_title find_windows_by_process
       find_any_visible_window focus_window].
  apply bind_ext. intros id0 s0 w0.
  apply bind_ext. intros id1 s1 w1.
  rewrite !andb_false_r. reflexivity.
Qed.

Lemma wait_loop_titled deadline p : forall fuel s w,
  wait_for_window_linux_loop (with_fallback B any) config fuel deadline p s w =
  wait_for_window_linux_loop B config fuel deadline p s w.
Proof.
  induction fuel as [|fuel IH]; intros s w; [reflexivity|].
  cbn [wait_for_window_linux_loop].
  apply bind_ext. intros t s0 w0.
  destruct (fltb t deadline); [|reflexivity].
  apply bind_cong.
  - unfold try_except. now rewrite find_and_focus_titled.
  - intros [id|] s1 w1; [reflexivity|apply IH].
Qed.
End Titled.

End LinuxOrderFacts.

Module LinuxTheorems.
Import Py RunnerSpec ReplaySpec LinuxSpec AutomationRunner.
Import RunnerFacts CaptureFacts StealthFacts WaitFacts LinuxFacts.
Import LinuxWaitFacts LinuxOrderFacts.
Local Open Scope m_scope.
Local Open Scope Q_scope.





End LinuxTheorems.
